(** * weston-desktop-matchbox: buffer pool, frame throttle and launcher menu

    A shallow embedding of [src/main.c].  Every handler of the C program is a
    function from the state it touches to a [result]: the new state together
    with the requests it sent (Wayland requests, cairo drawing, stderr lines,
    launches), or a [Fault] where the C code dereferences a null pointer or
    converts a double that no [guint] represents.

    Conventions.
    - [uint32_t] and [int32_t] values are [Z]; conversions wrap explicitly.
    - [double] values are IEEE 754 binary64 numbers, Rocq's primitive
      [float]: every sum, difference, product and quotient of the C code is
      the primitive operation, rounded to nearest-even as the hardware
      does, and every comparison is the primitive comparison (false on a
      NaN).  Each C operation is one rounded operation; nothing is fused.
    - Pointers returned by allocators ([wl_buffer *], [wl_callback *], mapped
      memory) are opaque [handle]s supplied by the caller as an [alloc]
      answer, the way the operating system and libwayland supply them. *)

From Stdlib Require Import ZArith QArith Lia.
From Stdlib Require Import Floats.
From Stdlib Require Import List String Ascii Bool Sorted Permutation.
Import ListNotations.

Local Open Scope Z_scope.

Definition double := float.
Bind Scope float_scope with double.

(** ** C numerics *)

Definition handle := nat.
Bind Scope nat_scope with handle.

Definition to_uint32 (z : Z) : Z := z mod 2 ^ 32.

(** Conversion of an integer to [double]; exact below 2^53 in absolute
    value, which covers every [int], [uint32_t] and [guint]. *)
Definition double_of_Z (z : Z) : double :=
  if z <? 0 then (- of_uint63 (Uint63.of_Z (- z)))%float
  else of_uint63 (Uint63.of_Z z).

(** [wl_fixed_t] is a signed 24.8 fixed-point number; the division by 256
    is exact. *)
Definition wl_fixed_to_double (f : Z) : double := (double_of_Z f / 256)%float.

(** [fmax] and [fmin] of the C library: the greater (smaller) argument, and
    the other argument when one is a NaN. *)
Definition fmax (x y : double) : double :=
  if (y <=? x)%float then x
  else if (x <? y)%float then y
  else if is_nan y then x else y.

Definition fmin (x y : double) : double :=
  if (x <=? y)%float then x
  else if (y <? x)%float then y
  else if is_nan y then x else y.

(** The integral part of a binary64 value [(-1)^s * m * 2^e], toward zero
    and toward minus infinity; none for an infinity or a NaN. *)
Definition truncate (f : spec_float) : option Z :=
  match f with
  | S754_zero _ => Some 0
  | S754_finite s m e =>
      let a := if 0 <=? e then Zpos m * 2 ^ e else Zpos m / 2 ^ (- e) in
      Some (if s then - a else a)
  | _ => None
  end.

Definition floor (f : spec_float) : option Z :=
  match f with
  | S754_zero _ => Some 0
  | S754_finite s m e =>
      let n := if s then Zneg m else Zpos m in
      Some (if 0 <=? e then n * 2 ^ e else n / 2 ^ (- e))
  | _ => None
  end.

(** Conversion of a double to [guint]: the fractional part is discarded
    (truncation toward zero); the C standard leaves the conversion undefined
    when the truncated value is not representable, as for an infinity or a
    NaN. *)
Definition double_to_guint (q : double) : option Z :=
  match truncate (Prim2SF q) with
  | Some t => if (0 <=? t) && (t <? 2 ^ 32) then Some t else None
  | None => None
  end.

(** A double division followed by the conversion to [guint].  A zero
    divisor yields an infinity or a NaN, which no [guint] represents. *)
Definition div_to_guint (x y : double) : option Z := double_to_guint (x / y).

(** ** Constants *)

Definition MENU_PADDING : Z := 10.
Definition BTN_LEFT : Z := 272.                        (* 0x110, linux/input.h *)
Definition WL_POINTER_BUTTON_STATE_RELEASED : Z := 0.
Definition WL_POINTER_AXIS_VERTICAL_SCROLL : Z := 0.
Definition WL_OUTPUT_MODE_CURRENT : Z := 1.
Definition WL_SHM_FORMAT_XRGB8888 : Z := 1.

(** ** Data model *)

(** [GAppInfo]: display name, opaque launch handle, and the answer of
    [g_app_info_should_show]. *)
Record app := mk_app {
  app_name : string;
  app_handle : handle;
  app_should_show : bool
}.

(** [struct buffer]. *)
Record buffer := mk_buffer {
  buf_buffer : handle;          (* struct wl_buffer *buffer *)
  buf_busy : bool;
  buf_width : Z;
  buf_height : Z;
  buf_stride : Z;
  buf_format : Z;
  buf_size : Z;
  buf_data : handle             (* the mapping *)
}.

Definition set_busy (v : bool) (b : buffer) : buffer :=
  mk_buffer (buf_buffer b) v (buf_width b) (buf_height b) (buf_stride b)
            (buf_format b) (buf_size b) (buf_data b).

(** [cairo_font_extents_t], the two fields the program reads. *)
Record cairo_font_extents_t := mk_extents {
  ext_ascent : double;
  ext_height : double
}.

(** The function-pointer slots of [struct desktop_surface] hold one of the
    handlers of this program, or null.  One type per C signature. *)
Inductive configure_fn := background_configure_fn.
Inductive seat_fn :=
| background_cursor_motion_fn
| background_cursor_enter_fn
| background_cursor_leave_fn.
Inductive button_fn := background_pointer_button_fn.
Inductive axis_fn := background_pointer_axis_fn.

Record desktop_surface := mk_desktop_surface {
  ds_configure : option configure_fn;
  ds_cursor : option string;
  ds_cursor_x : double;
  ds_cursor_y : double;
  ds_on_cursor_motion : option seat_fn;
  ds_on_cursor_enter : option seat_fn;
  ds_on_cursor_leave : option seat_fn;
  ds_on_pointer_button : option button_fn;
  ds_on_pointer_axis : option axis_fn;
  ds_on_pointer_frame : option seat_fn
}.

Definition set_cursor_pos (x y : double) (s : desktop_surface) : desktop_surface :=
  mk_desktop_surface (ds_configure s) (ds_cursor s) x y
    (ds_on_cursor_motion s) (ds_on_cursor_enter s) (ds_on_cursor_leave s)
    (ds_on_pointer_button s) (ds_on_pointer_axis s) (ds_on_pointer_frame s).

(** [struct background].  The back pointer to the owning output is kept on
    the output's side ([out_background]). *)
Record background := mk_background {
  bg_base : desktop_surface;
  bg_surface : handle;
  bg_buffers : list buffer;     (* wl_list, head first *)
  bg_width : Z;
  bg_height : Z;
  bg_y_scroll : double;
  bg_frame : option handle;     (* struct wl_callback *frame *)
  bg_needs_draw : bool;
  bg_extents : cairo_font_extents_t
}.

Definition set_base (s : desktop_surface) (b : background) : background :=
  mk_background s (bg_surface b) (bg_buffers b) (bg_width b) (bg_height b)
    (bg_y_scroll b) (bg_frame b) (bg_needs_draw b) (bg_extents b).

Definition set_buffers (l : list buffer) (b : background) : background :=
  mk_background (bg_base b) (bg_surface b) l (bg_width b) (bg_height b)
    (bg_y_scroll b) (bg_frame b) (bg_needs_draw b) (bg_extents b).

Definition set_size (w h : Z) (b : background) : background :=
  mk_background (bg_base b) (bg_surface b) (bg_buffers b) w h
    (bg_y_scroll b) (bg_frame b) (bg_needs_draw b) (bg_extents b).

Definition set_y_scroll (y : double) (b : background) : background :=
  mk_background (bg_base b) (bg_surface b) (bg_buffers b) (bg_width b)
    (bg_height b) y (bg_frame b) (bg_needs_draw b) (bg_extents b).

Definition set_frame (f : option handle) (b : background) : background :=
  mk_background (bg_base b) (bg_surface b) (bg_buffers b) (bg_width b)
    (bg_height b) (bg_y_scroll b) f (bg_needs_draw b) (bg_extents b).

Definition set_needs_draw (v : bool) (b : background) : background :=
  mk_background (bg_base b) (bg_surface b) (bg_buffers b) (bg_width b)
    (bg_height b) (bg_y_scroll b) (bg_frame b) v (bg_extents b).

Definition set_extents (e : cairo_font_extents_t) (b : background) : background :=
  mk_background (bg_base b) (bg_surface b) (bg_buffers b) (bg_width b)
    (bg_height b) (bg_y_scroll b) (bg_frame b) (bg_needs_draw b) e.

(** [struct output]. *)
Record output := mk_output {
  out_output : handle;          (* struct wl_output *output *)
  out_background : option background;
  out_width : Z;
  out_height : Z
}.

(** ** What the handlers send out *)

Inductive color :=
| grey          (* 0.5, 0.5, 0.5 *)
| cyan          (* 0, 1, 1 *)
| black.        (* 0, 0, 0 *)

Inductive cairo_op :=
| fill_rectangle (w h : Z) (c : color)
| select_font (face : string) (size : Z)
| show_text (c : color) (x y : double) (text : string).

Inductive request :=
| perror (msg : string)
| launch_failed (name : string)          (* the fprintf of launch_app *)
| g_app_info_launch (a : app)
| free_buffer (b : buffer)               (* munmap, wl_buffer_destroy, free *)
| wl_shm_pool_create_buffer (b : buffer)
| cairo_paint (data : handle) (ops : list cairo_op)
| wl_surface_attach (surface : handle) (b : buffer)
| wl_surface_damage (surface : handle) (x y w h : Z)
| wl_surface_frame (surface : handle) (cb : handle)
| wl_callback_destroy (cb : handle)
| wl_surface_commit (surface : handle)
| wl_compositor_create_surface (surface : handle)
| weston_desktop_shell_set_background (out : handle) (surface : handle)
| wl_pointer_set_cursor (serial : Z) (name : string).

(** Outcome of a handler: it returns, or it runs into undefined behaviour
    (a null pointer dereferenced, a double out of the range of [guint]).
    Either way [sent] lists what it had sent by then, oldest first. *)
Inductive result (S : Type) :=
| Done (s : S) (sent : list request)
| Fault (sent : list request).
Arguments Done {S} s sent.
Arguments Fault {S} sent.

Definition sent_of {S} (r : result S) : list request :=
  match r with Done _ l => l | Fault l => l end.

(** Run [k] after a step that already sent [pre]. *)
Definition after {S} (pre : list request) (r : result S) : result S :=
  match r with
  | Done s l => Done s (pre ++ l)
  | Fault l => Fault (pre ++ l)
  end.

(** ** The environment of the handlers *)

(** How the three system calls of [create_buffer] can end. *)
Inductive shm_outcome :=
| memfd_create_fails
| ftruncate_fails
| mmap_fails
| shm_ok.

(** What the system answers when a handler allocates. *)
Record alloc := mk_alloc {
  al_shm : shm_outcome;
  al_wl_buffer : handle;
  al_data : handle;
  al_callback : handle
}.

(** Process-wide facts that no handler changes: the sorted application list
    built by [main], cairo's stride rule, the extents cairo measures for the
    font the renderer selects, whether launching an application works, and
    which cursor names the loaded theme has. *)
Record env := mk_env {
  application_list : list app;
  cairo_format_stride_for_width : Z -> Z;
  font_extents : cairo_font_extents_t;
  launch_succeeds : app -> bool;
  theme_has_cursor : string -> bool
}.

(** ** Buffers *)

(** [buffer_release]: the listener's user data is the [struct buffer] that
    owns the [wl_buffer]; the pool entry with that handle is updated. *)
Definition buffer_release (wl_buffer : handle) (pool : list buffer) : list buffer :=
  map (fun b => if Nat.eqb (buf_buffer b) wl_buffer then set_busy false b else b) pool.

(** [create_buffer]: null (with a line on stderr) when one of the three
    system calls fails.  [size] is computed in [uint32_t]; [mmap] refuses a
    mapping of length 0 whatever else the system would answer. *)
Definition create_buffer (a : alloc) (width height stride format : Z)
  : option buffer * list request :=
  let size := to_uint32 (height * stride) in
  match al_shm a with
  | memfd_create_fails => (None, [perror "Unable to create memfd"])
  | ftruncate_fails => (None, [perror "Unable to truncate memfd"])
  | mmap_fails => (None, [perror "Unable to map memfd"])
  | shm_ok =>
      if size =? 0 then (None, [perror "Unable to map memfd"])
      else
        let b := mk_buffer (al_wl_buffer a) false width height stride format
                           size (al_data a) in
        (Some b, [wl_shm_pool_create_buffer b])
  end.

(** [attach_buffer] on the pool entry at position [i]. *)
Fixpoint update_at {A} (i : nat) (f : A -> A) (l : list A) : list A :=
  match l, i with
  | [], _ => []
  | x :: r, O => f x :: r
  | x :: r, S j => x :: update_at j f r
  end.

Fixpoint find_index {A} (p : A -> bool) (l : list A) : option nat :=
  match l with
  | [] => None
  | x :: r => if p x then Some O
              else match find_index p r with
                   | Some i => Some (S i)
                   | None => None
                   end
  end.

(** ** Renderer *)

Definition g_list_length {A} (l : list A) : Z := Z.of_nat (List.length l).

(** The condition of the first loop of [draw_background]. *)
Definition wrong_size (w h stride : Z) (b : buffer) : bool :=
  negb (buf_busy b) &&
  (negb (buf_width b =? w) || negb (buf_height b =? h)
   || negb (buf_stride b =? stride)).

(** The condition of the second loop. *)
Definition reusable (w h stride : Z) (b : buffer) : bool :=
  negb (buf_busy b) && (buf_width b =? w) && (buf_height b =? h)
  && (buf_stride b =? stride).

(** The scroll clamp.  The product and the difference are each rounded to
    binary64; [background->height - MENU_PADDING * 2] is unsigned
    arithmetic, converted to [double] afterwards. *)
Definition max_y_scroll (E : env) (h : Z) (ext : cairo_font_extents_t) : double :=
  let total_height :=
    (double_of_Z (g_list_length (application_list E)) * ext_height ext)%float in
  (total_height - double_of_Z (to_uint32 (h - MENU_PADDING * 2)))%float.

Definition clamp_y_scroll (m : double) (y : double) : double :=
  if (0 <? m)%float then fmin (fmax y 0) m else 0%float.

(** One iteration of the row loop at vertical position [y]: the row is
    skipped ([None]) or its text is shown in the returned colour. *)
Definition row_color (h : Z) (cursor_y : double) (ext : cairo_font_extents_t)
  (y : double) : option color :=
  if (0 <=? y + ext_height ext)%float && (y <=? double_of_Z h)%float then
    if (y <? cursor_y)%float && (cursor_y <=? y + ext_height ext)%float
    then Some cyan else Some black
  else None.

Definition draw_row (h : Z) (cursor_y : double) (ext : cairo_font_extents_t)
  (y : double) (a : app) : list cairo_op :=
  match row_color h cursor_y ext y with
  | Some c =>
      [show_text c (double_of_Z MENU_PADDING) (y + ext_ascent ext)%float (app_name a)]
  | None => []
  end.

Fixpoint draw_rows (h : Z) (cursor_y : double) (ext : cairo_font_extents_t)
  (y : double) (apps : list app) : list cairo_op :=
  match apps with
  | [] => []
  | a :: rest =>
      draw_row h cursor_y ext y a
      ++ draw_rows h cursor_y ext (y + ext_height ext)%float rest
  end.

(** The tail of [draw_background], once [pool] holds the buffer to draw
    into at position [i]. *)
Definition paint_and_commit (E : env) (a : alloc) (bg : background)
  (pool : list buffer) (i : nat) (buf : buffer) : background * list request :=
  let ext := font_extents E in
  let y_scroll := clamp_y_scroll (max_y_scroll E (bg_height bg) ext) (bg_y_scroll bg) in
  let ops :=
    [fill_rectangle (bg_width bg) (bg_height bg) grey;
     select_font "sans-serif" 20]
    ++ draw_rows (bg_height bg) (ds_cursor_y (bg_base bg)) ext
         (double_of_Z MENU_PADDING - y_scroll)%float (application_list E) in
  let bg' :=
    set_frame (Some (al_callback a))
      (set_buffers (update_at i (set_busy true) pool)
         (set_y_scroll y_scroll (set_extents ext bg))) in
  (bg',
   [cairo_paint (buf_data buf) ops;
    wl_surface_attach (bg_surface bg) buf;
    wl_surface_damage (bg_surface bg) 0 0 (bg_width bg) (bg_height bg);
    wl_surface_frame (bg_surface bg) (al_callback a);
    wl_surface_commit (bg_surface bg)]).

Definition draw_background (E : env) (a : alloc) (bg : background)
  : result background :=
  match bg_frame bg with
  | Some _ => Done (set_needs_draw true bg) []
  | None =>
      let bg := set_needs_draw false bg in
      let w := bg_width bg in
      let h := bg_height bg in
      let stride := to_uint32 (cairo_format_stride_for_width E w) in
      let freed := filter (wrong_size w h stride) (bg_buffers bg) in
      let kept := filter (fun b => negb (wrong_size w h stride b)) (bg_buffers bg) in
      let frees := map free_buffer freed in
      match find_index (reusable w h stride) kept with
      | Some i =>
          match nth_error kept i with
          | Some buf =>
              let (bg', sent) := paint_and_commit E a bg kept i buf in
              Done bg' (frees ++ sent)
          | None => Fault frees
          end
      | None =>
          match create_buffer a w h stride WL_SHM_FORMAT_XRGB8888 with
          | (Some buf, made) =>
              let (bg', sent) := paint_and_commit E a bg (buf :: kept) 0 buf in
              Done bg' (frees ++ made ++ sent)
          | (None, logged) =>
              (* wl_list_insert (&background->buffers, &buffer->link) with a
                 null buffer writes through the null pointer *)
              Fault (frees ++ logged)
          end
      end
  end.

(** ** Handlers of the background surface *)

Definition background_frame_done (E : env) (a : alloc) (bg : background)
  : result background :=
  match bg_frame bg with
  | None => Fault []                       (* wl_callback_destroy (NULL) *)
  | Some cb =>
      let bg1 := set_frame None bg in
      if bg_needs_draw bg1
      then after [wl_callback_destroy cb] (draw_background E a bg1)
      else Done bg1 [wl_callback_destroy cb]
  end.

Definition background_configure (E : env) (a : alloc) (width height : Z)
  (bg : background) : result background :=
  draw_background E a (set_size (to_uint32 width) (to_uint32 height) bg).

Definition background_cursor_motion := draw_background.
Definition background_cursor_enter := draw_background.
Definition background_cursor_leave := draw_background.

Definition background_pointer_axis (E : env) (a : alloc) (axis : Z)
  (value : double) (bg : background) : result background :=
  if axis =? WL_POINTER_AXIS_VERTICAL_SCROLL
  then draw_background E a (set_y_scroll (bg_y_scroll bg + value)%float bg)
  else Done bg [].

Definition g_list_nth_data {A} (l : list A) (n : Z) : option A :=
  nth_error l (Z.to_nat n).

Definition launch_app (E : env) (a : app) : list request :=
  if launch_succeeds E a then [g_app_info_launch a]
  else [g_app_info_launch a; launch_failed (app_name a)].

(** The button handler changes no state; it only sends.  [Fault] stands
    for the undefined double-to-[guint] conversion. *)
Definition background_pointer_button (E : env) (button state : Z)
  (bg : background) : result background :=
  if (button =? BTN_LEFT) && (state =? WL_POINTER_BUTTON_STATE_RELEASED)
     && negb (ext_height (bg_extents bg) =? 0)%float
  then
    let menu_y := (ds_cursor_y (bg_base bg) + bg_y_scroll bg
                   - double_of_Z MENU_PADDING)%float in
    if (0 <=? menu_y)%float then
      match div_to_guint menu_y (ext_height (bg_extents bg)) with
      | Some menu_idx =>
          match g_list_nth_data (application_list E) menu_idx with
          | Some app => Done bg (launch_app E app)
          | None => Done bg []
          end
      | None => Fault []
      end
    else Done bg []
  else Done bg [].

(** ** Pointer router *)

(** The part of the process state one background's events touch: the
    global [current_cursor] (by name), [seat->pointer.surface] (null, or the
    surface of this background) and the background itself. *)
Record session := mk_session {
  current_cursor : option string;
  seat_pointer_surface : option handle;
  ss_background : background
}.

Definition with_background (cur : option string) (focus : option handle)
  (r : result background) : result session :=
  match r with
  | Done bg l => Done (mk_session cur focus bg) l
  | Fault l => Fault l
  end.

(** [set_cursor]: nothing when the name is the current one or the theme
    lacks it; else the image is attached to the cursor surface, committed
    and set on the pointer (one request here). *)
Definition set_cursor (E : env) (name : string) (serial : Z)
  (cur : option string) : option string * list request :=
  let load :=
    if theme_has_cursor E name
    then (Some name, [wl_pointer_set_cursor serial name])
    else (cur, []) in
  match cur with
  | Some c => if String.eqb c name then (cur, []) else load
  | None => load
  end.

Definition call_seat_fn (E : env) (a : alloc) (f : seat_fn) (bg : background)
  : result background :=
  match f with
  | background_cursor_motion_fn => background_cursor_motion E a bg
  | background_cursor_enter_fn => background_cursor_enter E a bg
  | background_cursor_leave_fn => background_cursor_leave E a bg
  end.

Definition desktop_shell_configure (E : env) (a : alloc) (width height : Z)
  (ss : session) : result session :=
  match ds_configure (bg_base (ss_background ss)) with
  | Some background_configure_fn =>
      with_background (current_cursor ss) (seat_pointer_surface ss)
        (background_configure E a width height (ss_background ss))
  | None => Fault []
  end.

Definition pointer_enter (E : env) (a : alloc) (serial surface_x surface_y : Z)
  (ss : session) : result session :=
  let bg := ss_background ss in
  let s := bg_base bg in
  let focus := Some (bg_surface bg) in
  let (cur, sent) :=
    match ds_cursor s with
    | Some name => set_cursor E name serial (current_cursor ss)
    | None => (current_cursor ss, [])
    end in
  let bg1 := set_base (set_cursor_pos (wl_fixed_to_double surface_x)
                                      (wl_fixed_to_double surface_y) s) bg in
  match ds_on_cursor_enter s with
  | Some f => after sent (with_background cur focus (call_seat_fn E a f bg1))
  | None => Done (mk_session cur focus bg1) sent
  end.

Definition pointer_leave (E : env) (a : alloc) (ss : session) : result session :=
  let bg := ss_background ss in
  let s := bg_base bg in
  let bg1 := set_base (set_cursor_pos (-1)%float (-1)%float s) bg in
  match ds_on_cursor_leave s with
  | Some f => with_background None None (call_seat_fn E a f bg1)
  | None => Done (mk_session None None bg1) []
  end.

Definition pointer_motion (E : env) (a : alloc) (surface_x surface_y : Z)
  (ss : session) : result session :=
  match seat_pointer_surface ss with
  | None => Done ss []
  | Some _ =>
      let bg := ss_background ss in
      let s := bg_base bg in
      let bg1 := set_base (set_cursor_pos (wl_fixed_to_double surface_x)
                                          (wl_fixed_to_double surface_y) s) bg in
      match ds_on_cursor_motion s with
      | Some f =>
          with_background (current_cursor ss) (seat_pointer_surface ss)
            (call_seat_fn E a f bg1)
      | None => Done (mk_session (current_cursor ss) (seat_pointer_surface ss) bg1) []
      end
  end.

Definition pointer_button (E : env) (button state : Z) (ss : session)
  : result session :=
  match seat_pointer_surface ss, ds_on_pointer_button (bg_base (ss_background ss)) with
  | Some _, Some background_pointer_button_fn =>
      with_background (current_cursor ss) (seat_pointer_surface ss)
        (background_pointer_button E button state (ss_background ss))
  | _, _ => Done ss []
  end.

Definition pointer_axis (E : env) (a : alloc) (axis value : Z) (ss : session)
  : result session :=
  match seat_pointer_surface ss, ds_on_pointer_axis (bg_base (ss_background ss)) with
  | Some _, Some background_pointer_axis_fn =>
      with_background (current_cursor ss) (seat_pointer_surface ss)
        (background_pointer_axis E a axis (wl_fixed_to_double value)
           (ss_background ss))
  | _, _ => Done ss []
  end.

Definition pointer_frame (E : env) (a : alloc) (ss : session) : result session :=
  match seat_pointer_surface ss, ds_on_pointer_frame (bg_base (ss_background ss)) with
  | Some _, Some f =>
      with_background (current_cursor ss) (seat_pointer_surface ss)
        (call_seat_fn E a f (ss_background ss))
  | _, _ => Done ss []
  end.

(** ** The event loop, for the events of one background *)

Inductive event :=
| ev_configure (width height : Z)
| ev_pointer_enter (serial surface_x surface_y : Z)
| ev_pointer_leave
| ev_pointer_motion (surface_x surface_y : Z)
| ev_pointer_button (button state : Z)
| ev_pointer_axis (axis value : Z)
| ev_pointer_frame
| ev_frame_done
| ev_buffer_release (wl_buffer : handle).

Definition dispatch (E : env) (ev : event) (a : alloc) (ss : session)
  : result session :=
  match ev with
  | ev_configure w h => desktop_shell_configure E a w h ss
  | ev_pointer_enter serial x y => pointer_enter E a serial x y ss
  | ev_pointer_leave => pointer_leave E a ss
  | ev_pointer_motion x y => pointer_motion E a x y ss
  | ev_pointer_button b st => pointer_button E b st ss
  | ev_pointer_axis ax v => pointer_axis E a ax v ss
  | ev_pointer_frame => pointer_frame E a ss
  | ev_frame_done =>
      with_background (current_cursor ss) (seat_pointer_surface ss)
        (background_frame_done E a (ss_background ss))
  | ev_buffer_release b =>
      Done (mk_session (current_cursor ss) (seat_pointer_surface ss)
              (set_buffers (buffer_release b (bg_buffers (ss_background ss)))
                 (ss_background ss))) []
  end.

(** [wl_display_dispatch] in a loop: events in arrival order, each with the
    system's answer to the allocations its handler makes. *)
Fixpoint run (E : env) (evs : list (event * alloc)) (ss : session)
  : result session :=
  match evs with
  | [] => Done ss []
  | (ev, a) :: rest =>
      match dispatch E ev a ss with
      | Done ss' sent => after sent (run E rest ss')
      | Fault sent => Fault sent
      end
  end.

(** ** Outputs *)

(** The background [output_done] builds: zeroed by [calloc], then the
    capability record filled in. *)
Definition new_background (surface : handle) : background :=
  mk_background
    (mk_desktop_surface (Some background_configure_fn) (Some "left_ptr"%string)
       (-1)%float (-1)%float
       (Some background_cursor_motion_fn) (Some background_cursor_enter_fn)
       (Some background_cursor_leave_fn) (Some background_pointer_button_fn)
       (Some background_pointer_axis_fn) None)
    surface [] 0 0 0%float None false (mk_extents 0%float 0%float).

Definition output_mode (flags width height refresh : Z) (o : output) : output :=
  if Z.land flags WL_OUTPUT_MODE_CURRENT =? 0 then o
  else mk_output (out_output o) (out_background o)
         (to_uint32 width) (to_uint32 height).

(** [surface] is what [wl_compositor_create_surface] returns. *)
Definition output_done (surface : handle) (o : output) : output * list request :=
  match out_background o with
  | Some _ => (o, [])
  | None =>
      (mk_output (out_output o) (Some (new_background surface))
         (out_width o) (out_height o),
       [wl_compositor_create_surface surface;
        weston_desktop_shell_set_background (out_output o) surface])
  end.

(** The session of an output right after its first "done": no cursor image
    set, no pointer focus, the new background. *)
Definition initial_session (surface : handle) : session :=
  mk_session None None (new_background surface).

(** ** The application list *)

Definition byte_at (s : string) : Z :=
  match s with
  | EmptyString => 0
  | String c _ => Z.of_nat (nat_of_ascii c)
  end.

(** [strcmp]: bytes compared as [unsigned char]; a zero byte ends the
    string. *)
Fixpoint strcmp (a b : string) : Z :=
  match a, b with
  | String c a', String d b' =>
      if Z.of_nat (nat_of_ascii c) =? Z.of_nat (nat_of_ascii d)
      then if Z.of_nat (nat_of_ascii c) =? 0 then 0 else strcmp a' b'
      else Z.of_nat (nat_of_ascii c) - Z.of_nat (nat_of_ascii d)
  | _, _ => byte_at a - byte_at b
  end.

(** [g_strcmp0] on the names, which [g_app_info_get_name] never leaves null. *)
Definition g_strcmp0 (a b : string) : Z := strcmp a b.

Definition sort_apps (a b : app) : Z := g_strcmp0 (app_name a) (app_name b).

(** GLib's [g_list_insert_sorted]: walk while [func (data, element) > 0],
    link the new node before the first element where it is not. *)
Fixpoint g_list_insert_sorted {A} (l : list A) (data : A) (func : A -> A -> Z)
  : list A :=
  match l with
  | [] => [data]
  | x :: r => if 0 <? func data x then x :: g_list_insert_sorted r data func
              else data :: l
  end.

(** The body of the loop of [main] over [g_app_info_get_all ()], and the
    loop. *)
Definition add_app (acc : list app) (a : app) : list app :=
  if app_should_show a then g_list_insert_sorted acc a sort_apps else acc.

Definition build_application_list (all : list app) : list app :=
  fold_left add_app all [].

(** ** The registry and the start of [main] *)

(** GLib's [MIN] macro. *)
Definition MIN (a b : Z) : Z := if a <? b then a else b.



(** One [global] event of the registry, with what the calls of its handler
    return: the proxy of [wl_registry_bind], the cursor surface made for a
    compositor, the cursor theme loaded for a [wl_shm] (null when loading
    fails).  [calloc] and [wl_registry_bind] are taken to succeed. *)
Record advert := mk_advert {
  ad_name : Z;
  ad_interface : string;
  ad_version : Z;
  ad_proxy : handle;
  ad_surface : handle;
  ad_theme : option handle
}.

(** The file-scope variables that [registry_global] and [main] share. *)
Record globals := mk_globals {
  compositor : option handle;
  shm : option handle;
  cursor_theme : option handle;
  desktop_shell : option handle;
  xdg_wm_base : option handle;
  viewporter : option handle;
  cursor_surface : option handle;
  output_list : list output;          (* wl_list, head first *)
  need_roundtrip : bool
}.


Definition set_need_roundtrip (v : bool) (g : globals) : globals :=
  mk_globals (compositor g) (shm g) (cursor_theme g) (desktop_shell g)
    (xdg_wm_base g) (viewporter g) (cursor_surface g) (output_list g) v.

(** What [main] and the registry handler call. *)
Inductive call :=
| g_app_info_get_all
| g_object_ref (a : app)
| g_list_free_full (apps : list app)
| wl_display_connect
| wl_display_get_registry
| signal (signum : Z)
| wl_registry_add_listener
| wl_display_roundtrip
| wl_registry_bind (name : Z) (interface : string) (version : Z)
| add_listener (interface : string) (proxy : handle)
| wl_cursor_theme_load (size : Z)
| fprintf_stderr (msg : string)
| weston_desktop_shell_set_panel_position (position : Z)
| weston_desktop_shell_desktop_ready
| wl_compositor_destroy
| wl_shm_destroy
| weston_desktop_shell_destroy
| wl_registry_destroy
| wl_display_disconnect
| handler (r : request).             (* a call that handlers make too *)

(** [strcmp (interface, name) == 0]. *)
Definition interface_is (name : string) (ad : advert) : bool :=
  strcmp (ad_interface ad) name =? 0.

Definition registry_global (ad : advert) (g : globals) : globals * list call :=
  if interface_is "wl_compositor" ad then
    (mk_globals (Some (ad_proxy ad)) (shm g) (cursor_theme g) (desktop_shell g)
       (xdg_wm_base g) (viewporter g) (Some (ad_surface ad)) (output_list g)
       (need_roundtrip g),
     [wl_registry_bind (ad_name ad) "wl_compositor" (MIN (ad_version ad) 5);
      handler (wl_compositor_create_surface (ad_surface ad))])
  else if interface_is "wl_seat" ad then
    (g, [wl_registry_bind (ad_name ad) "wl_seat" (MIN (ad_version ad) 5);
         add_listener "wl_seat" (ad_proxy ad)])
  else if interface_is "wl_shm" ad then
    (mk_globals (compositor g) (Some (ad_proxy ad)) (ad_theme ad) (desktop_shell g)
       (xdg_wm_base g) (viewporter g) (cursor_surface g) (output_list g)
       (need_roundtrip g),
     [wl_registry_bind (ad_name ad) "wl_shm" (MIN (ad_version ad) 1);
      add_listener "wl_shm" (ad_proxy ad);
      wl_cursor_theme_load 32])
  else if interface_is "weston_desktop_shell" ad then
    (mk_globals (compositor g) (shm g) (cursor_theme g) (Some (ad_proxy ad))
       (xdg_wm_base g) (viewporter g) (cursor_surface g) (output_list g)
       (need_roundtrip g),
     [wl_registry_bind (ad_name ad) "weston_desktop_shell" (MIN (ad_version ad) 1);
      add_listener "weston_desktop_shell" (ad_proxy ad)])
  else if interface_is "xdg_wm_base" ad then
    (mk_globals (compositor g) (shm g) (cursor_theme g) (desktop_shell g)
       (Some (ad_proxy ad)) (viewporter g) (cursor_surface g) (output_list g)
       (need_roundtrip g),
     [wl_registry_bind (ad_name ad) "xdg_wm_base" (MIN (ad_version ad) 4);
      add_listener "xdg_wm_base" (ad_proxy ad)])
  else if interface_is "wp_viewporter" ad then
    (mk_globals (compositor g) (shm g) (cursor_theme g) (desktop_shell g)
       (xdg_wm_base g) (Some (ad_proxy ad)) (cursor_surface g) (output_list g)
       (need_roundtrip g),
     [wl_registry_bind (ad_name ad) "wp_viewporter" (MIN (ad_version ad) 1)])
  else if interface_is "wl_output" ad then
    (mk_globals (compositor g) (shm g) (cursor_theme g) (desktop_shell g)
       (xdg_wm_base g) (viewporter g) (cursor_surface g)
       (mk_output (ad_proxy ad) None 0 0 :: output_list g) true,
     [wl_registry_bind (ad_name ad) "wl_output" (MIN (ad_version ad) 4);
      add_listener "wl_output" (ad_proxy ad)])
  else (g, []).

(** The registry events of one dispatch, in order. *)
Fixpoint deliver (ads : list advert) (g : globals) : globals * list call :=
  match ads with
  | [] => (g, [])
  | ad :: rest =>
      let (g1, c1) := registry_global ad g in
      let (g2, c2) := deliver rest g1 in
      (g2, c1 ++ c2)
  end.





(** * Vocabulary of the properties *)

(** ** Buffer pool *)

(** The stride, the buffers freed and the buffers kept by a draw of [bg],
    as the first loop of [draw_background] computes them. *)
Definition draw_stride (E : env) (bg : background) : Z :=
  to_uint32 (cairo_format_stride_for_width E (bg_width bg)).

Definition freed_buffers (E : env) (bg : background) : list buffer :=
  filter (wrong_size (bg_width bg) (bg_height bg) (draw_stride E bg)) (bg_buffers bg).

Definition kept_buffers (E : env) (bg : background) : list buffer :=
  filter (fun b => negb (wrong_size (bg_width bg) (bg_height bg) (draw_stride E bg) b))
         (bg_buffers bg).

(** [b] has the geometry the surface needs now. *)
Definition fits (E : env) (bg : background) (b : buffer) : Prop :=
  buf_width b = bg_width bg /\ buf_height b = bg_height bg
  /\ buf_stride b = draw_stride E bg.

(** The size in bytes of a buffer for the surface as it is now. *)
Definition draw_size (E : env) (bg : background) : Z :=
  to_uint32 (bg_height bg * draw_stride E bg).

(** [create_buffer] succeeds for [bg]: the system calls work and the
    mapping is not empty. *)
Definition can_allocate (E : env) (a : alloc) (bg : background) : bool :=
  match al_shm a with
  | shm_ok => negb (draw_size E bg =? 0)
  | _ => false
  end.

(** [y] is [x] up to the busy flag. *)
Definition same_but_busy (x y : buffer) : Prop :=
  buf_buffer y = buf_buffer x /\ buf_width y = buf_width x
  /\ buf_height y = buf_height x /\ buf_stride y = buf_stride x
  /\ buf_format y = buf_format x /\ buf_size y = buf_size x
  /\ buf_data y = buf_data x.

Fixpoint distinct_handles (l : list handle) : bool :=
  match l with
  | [] => true
  | x :: r => negb (existsb (Nat.eqb x) r) && distinct_handles r
  end.

(** No two buffers of the pool share a mapping, and the mapping the system
    hands out next is none of theirs: [mmap] does not return an address
    that is still mapped. *)
Definition mappings_distinct (a : alloc) (pool : list buffer) : bool :=
  distinct_handles (al_data a :: map buf_data pool).

(** The four ways [draw_background] ends: gated by the outstanding
    callback, drawing into a reused buffer, drawing into a new one, or
    faulting on the null result of [create_buffer]. *)
Inductive draw_case (E : env) (a : alloc) (bg : background)
  : result background -> Prop :=
| draw_gated cb :
    bg_frame bg = Some cb ->
    draw_case E a bg (Done (set_needs_draw true bg) [])
| draw_reuse i buf :
    bg_frame bg = None ->
    nth_error (kept_buffers E bg) i = Some buf ->
    reusable (bg_width bg) (bg_height bg) (draw_stride E bg) buf = true ->
    draw_case E a bg
      (Done (fst (paint_and_commit E a (set_needs_draw false bg)
                    (kept_buffers E bg) i buf))
            (map free_buffer (freed_buffers E bg)
             ++ snd (paint_and_commit E a (set_needs_draw false bg)
                       (kept_buffers E bg) i buf)))
| draw_fresh buf :
    bg_frame bg = None ->
    (forall b, In b (kept_buffers E bg) ->
               reusable (bg_width bg) (bg_height bg) (draw_stride E bg) b = false) ->
    can_allocate E a bg = true ->
    buf = mk_buffer (al_wl_buffer a) false (bg_width bg) (bg_height bg)
            (draw_stride E bg) WL_SHM_FORMAT_XRGB8888
            (draw_size E bg) (al_data a) ->
    draw_case E a bg
      (Done (fst (paint_and_commit E a (set_needs_draw false bg)
                    (buf :: kept_buffers E bg) 0 buf))
            (map free_buffer (freed_buffers E bg)
             ++ [wl_shm_pool_create_buffer buf]
             ++ snd (paint_and_commit E a (set_needs_draw false bg)
                       (buf :: kept_buffers E bg) 0 buf)))
| draw_null msg :
    bg_frame bg = None ->
    (forall b, In b (kept_buffers E bg) ->
               reusable (bg_width bg) (bg_height bg) (draw_stride E bg) b = false) ->
    can_allocate E a bg = false ->
    draw_case E a bg (Fault (map free_buffer (freed_buffers E bg) ++ [perror msg])).

(** ** Events *)

(** Requests that touch neither buffers nor frame callbacks. *)
Definition quiet (r : request) : bool :=
  match r with
  | g_app_info_launch _ | launch_failed _ | wl_pointer_set_cursor _ _ => true
  | _ => false
  end.

(** [bg1] is [bg] up to what the router and the handlers overwrite before
    they ask for a redraw: cursor position, size, scroll offset. *)
Definition same_core (bg1 bg : background) : Prop :=
  bg_surface bg1 = bg_surface bg /\ bg_buffers bg1 = bg_buffers bg
  /\ bg_frame bg1 = bg_frame bg /\ bg_needs_draw bg1 = bg_needs_draw bg
  /\ bg_extents bg1 = bg_extents bg.

(** What an event can do: ask for a redraw of an updated background
    ([dc_draw]), leave the background alone up to the cursor position
    ([dc_quiet]), fault, complete the frame, or release a buffer. *)
Inductive dispatch_case (E : env) (ev : event) (a : alloc) (ss : session)
  : result session -> Prop :=
| dc_draw pre cur focus bg1 :
    same_core bg1 (ss_background ss) ->
    forallb quiet pre = true ->
    ev <> ev_frame_done -> (forall b, ev <> ev_buffer_release b) ->
    dispatch_case E ev a ss
      (after pre (with_background cur focus (draw_background E a bg1)))
| dc_quiet cur focus base sent :
    forallb quiet sent = true ->
    ev <> ev_frame_done -> (forall b, ev <> ev_buffer_release b) ->
    dispatch_case E ev a ss
      (Done (mk_session cur focus (set_base base (ss_background ss))) sent)
| dc_fault :
    ev <> ev_frame_done -> (forall b, ev <> ev_buffer_release b) ->
    dispatch_case E ev a ss (Fault [])
| dc_frame_none :
    ev = ev_frame_done -> bg_frame (ss_background ss) = None ->
    dispatch_case E ev a ss (Fault [])
| dc_frame_idle cb :
    ev = ev_frame_done -> bg_frame (ss_background ss) = Some cb ->
    bg_needs_draw (ss_background ss) = false ->
    dispatch_case E ev a ss
      (Done (mk_session (current_cursor ss) (seat_pointer_surface ss)
               (set_frame None (ss_background ss)))
            [wl_callback_destroy cb])
| dc_frame_redraw cb :
    ev = ev_frame_done -> bg_frame (ss_background ss) = Some cb ->
    bg_needs_draw (ss_background ss) = true ->
    dispatch_case E ev a ss
      (after [wl_callback_destroy cb]
         (with_background (current_cursor ss) (seat_pointer_surface ss)
            (draw_background E a (set_frame None (ss_background ss)))))
| dc_release b :
    ev = ev_buffer_release b ->
    dispatch_case E ev a ss
      (Done (mk_session (current_cursor ss) (seat_pointer_surface ss)
               (set_buffers (buffer_release b (bg_buffers (ss_background ss)))
                  (ss_background ss)))
            []).

Definition is_set {A} (o : option A) : bool :=
  match o with Some _ => true | None => false end.

(** The events whose handler reaches [draw_background] in state [ss]: the
    configure, and the pointer events the router passes on to a handler of
    the background that redraws. *)
Definition asks_redraw (ev : event) (ss : session) : bool :=
  let s := bg_base (ss_background ss) in
  let focus := is_set (seat_pointer_surface ss) in
  match ev with
  | ev_configure _ _ => is_set (ds_configure s)
  | ev_pointer_enter _ _ _ => is_set (ds_on_cursor_enter s)
  | ev_pointer_leave => is_set (ds_on_cursor_leave s)
  | ev_pointer_motion _ _ => focus && is_set (ds_on_cursor_motion s)
  | ev_pointer_axis axis _ =>
      focus && is_set (ds_on_pointer_axis s)
      && (axis =? WL_POINTER_AXIS_VERTICAL_SCROLL)
  | ev_pointer_frame => focus && is_set (ds_on_pointer_frame s)
  | ev_pointer_button _ _ | ev_frame_done | ev_buffer_release _ => false
  end.

(** ** Frame throttle *)

(** Frame callbacks are counted along what is sent: a [wl_surface_frame]
    creates one, a [wl_callback_destroy] ends one. *)
Definition callback_delta (r : request) : Z :=
  match r with
  | wl_surface_frame _ _ => 1
  | wl_callback_destroy _ => -1
  | _ => 0
  end.

(** The count after [sent], when it was [c0] before. *)
Definition outstanding (c0 : Z) (sent : list request) : Z :=
  fold_left (fun c r => c + callback_delta r) sent c0.

(** The count a state stands for: 1 when its [frame] handle is set. *)
Definition pending (bg : background) : Z :=
  match bg_frame bg with Some _ => 1 | None => 0 end.

(** At every point of [sent] the count stays within 0 and 1. *)
Definition throttled (c0 : Z) (sent : list request) : Prop :=
  forall p q, sent = p ++ q -> 0 <= outstanding c0 p <= 1.

(** Requests that leave the count alone. *)
Definition neutral (l : list request) : Prop :=
  forall r, In r l -> callback_delta r = 0.

(** A draw is what ends in a commit of the surface. *)
Definition is_commit (r : request) : bool :=
  match r with wl_surface_commit _ => true | _ => false end.

(** Number of draws in [sent]. *)
Definition draws (sent : list request) : nat := List.length (filter is_commit sent).

(** No frame completion among the events. *)
Definition no_frame_done (evs : list (event * alloc)) : Prop :=
  forall e a, In (e, a) evs -> e <> ev_frame_done.

(** The window in which the flag of [ss] was set: the events split at one
    that found the flag clear and set it, the callback outstanding now was
    outstanding then, and no frame completion came since. *)
Definition requested_in_window (E : env) (ss0 : session)
  (evs : list (event * alloc)) (ss : session) : Prop :=
  exists pre ev a post s1 sent1 s2 sent2,
    evs = pre ++ (ev, a) :: post
    /\ run E pre ss0 = Done s1 sent1
    /\ bg_needs_draw (ss_background s1) = false
    /\ bg_frame (ss_background s1) = bg_frame (ss_background ss)
    /\ dispatch E ev a s1 = Done s2 sent2
    /\ bg_needs_draw (ss_background s2) = true
    /\ no_frame_done ((ev, a) :: post).

(** ** Scroll offset *)

(** [total_height] and the unsigned [height - MENU_PADDING * 2] of the
    clamp, with the row height cached on the background. *)
Definition total_height (E : env) (bg : background) : double :=
  (double_of_Z (g_list_length (application_list E))
   * ext_height (bg_extents bg))%float.

Definition visible_height (bg : background) : Z :=
  to_uint32 (bg_height bg - MENU_PADDING * 2).

(** [max_y_scroll] of the clamp for the state as it is. *)
Definition scroll_bound (E : env) (bg : background) : double :=
  (total_height E bg - double_of_Z (visible_height bg))%float.

(** The upper end of the range: the bound when it is positive, else 0. *)
Definition scroll_limit (E : env) (bg : background) : double :=
  if (0 <? scroll_bound E bg)%float then scroll_bound E bg else 0%float.

(** The offset lies in [[0, max (0, total_height - visible_height)]], in
    the arithmetic and the order of the doubles. *)
Definition scroll_in_range (E : env) (bg : background) : Prop :=
  (0 <=? bg_y_scroll bg)%float = true
  /\ (bg_y_scroll bg <=? scroll_limit E bg)%float = true.

(** What every reachable state satisfies between two events. *)
Definition scroll_settled (E : env) (bg : background) : Prop :=
  bg_needs_draw bg = false ->
  scroll_in_range E bg
  /\ ((0 <? scroll_bound E bg)%float = false -> bg_y_scroll bg = 0%float).

(** ** Menu geometry *)

(** [menu_y] of the button handler, and the quotient it converts. *)
Definition menu_y (bg : background) : double :=
  (ds_cursor_y (bg_base bg) + bg_y_scroll bg - double_of_Z MENU_PADDING)%float.

Definition click_quotient (bg : background) : double :=
  (menu_y bg / ext_height (bg_extents bg))%float.

(** The index of the hit test: the floor of the quotient. *)
Definition click_index (bg : background) : option Z :=
  floor (Prim2SF (click_quotient bg)).

(** Position of the row loop after [i] iterations. *)
Fixpoint loop_y (ext : cairo_font_extents_t) (y : double) (i : nat) : double :=
  match i with
  | O => y
  | S j => loop_y ext (y + ext_height ext)%float j
  end.

(** The loop variable [y] of the renderer when it reaches entry [i]: the
    top of the row, [MENU_PADDING - y_scroll] and [i] rounded additions of
    the row height. *)
Definition row_y (bg : background) (i : nat) : double :=
  loop_y (bg_extents bg) (double_of_Z MENU_PADDING - bg_y_scroll bg)%float i.

(** The rows the renderer paints for the state [bg] it leaves behind. *)
Definition painted_menu (E : env) (bg : background) : list cairo_op :=
  draw_rows (bg_height bg) (ds_cursor_y (bg_base bg)) (bg_extents bg)
            (double_of_Z MENU_PADDING - bg_y_scroll bg)%float (application_list E).

(** Entry [a], reached at [y], is painted in the highlight colour. *)
Definition highlighted (bg : background) (y : double) (a : app) : Prop :=
  draw_row (bg_height bg) (ds_cursor_y (bg_base bg)) (bg_extents bg) y a
  = [show_text cyan (double_of_Z MENU_PADDING)
       (y + ext_ascent (bg_extents bg))%float (app_name a)].

(** The launches among the requests. *)
Definition is_launch (r : request) : bool :=
  match r with g_app_info_launch _ => true | _ => false end.

(** The rational a finite double stands for. *)
Definition exact (x : double) : Q :=
  match Prim2SF x with
  | S754_finite s m e =>
      ((if s then -1 else 1) * inject_Z (Zpos m) * 2 ^ e)%Q
  | _ => 0%Q
  end.

(** Top of the row of entry [i] in exact arithmetic:
    [MENU_PADDING - y_scroll + i * H]. *)
Definition row_top (bg : background) (i : nat) : Q :=
  (inject_Z MENU_PADDING - exact (bg_y_scroll bg)
   + inject_Z (Z.of_nat i) * exact (ext_height (bg_extents bg)))%Q.

(** The same formula with every operation in doubles. *)
Definition row_top_double (bg : background) (i : nat) : double :=
  (double_of_Z MENU_PADDING - bg_y_scroll bg
   + double_of_Z (Z.of_nat i) * ext_height (bg_extents bg))%float.

(** ** Order of the application list *)

(** Order of two entries under [sort_apps]. *)
Definition name_le (a b : app) : Prop := sort_apps a b <= 0.

(** The entries whose name compares equal to [n]. *)
Definition same_name (n : string) (a : app) : bool := strcmp (app_name a) n =? 0.

(** Ties kept in input order, which is what a stable sort would give. *)
Definition keeps_input_order (all : list app) : Prop :=
  forall n, filter (same_name n) (build_application_list all)
            = filter (same_name n) (filter app_should_show all).

(** ** Sample data *)

(** The names of the sorting example. *)
Definition sample_input : list app :=
  [mk_app "Zed" 1 true; mk_app "apple" 2 true; mk_app "Box" 3 true].

(** Two entries of the same name. *)
Definition tie_input : list app :=
  [mk_app "Files" 1 true; mk_app "Files" 2 true].

(** Six applications, already in order. *)
Definition menu_input : list app :=
  [mk_app "Calculator" 11 true; mk_app "Files" 12 true; mk_app "Mail" 13 true;
   mk_app "Music" 14 true; mk_app "Terminal" 15 true; mk_app "Web" 16 true].

(** Three applications, cairo's stride for 32 bits per pixel, a font 23
    high, launches that work and a theme that has every cursor. *)
Definition sample_env : env :=
  mk_env (build_application_list sample_input) (fun w => 4 * w)
         (mk_extents 18%float 23%float) (fun _ => true) (fun _ => true).

(** The same with the six applications: a menu 138 high. *)
Definition menu_env : env :=
  mk_env (build_application_list menu_input) (fun w => 4 * w)
         (mk_extents 18%float 23%float) (fun _ => true) (fun _ => true).

(** The six applications under a font whose height is the double next
    above 48.003125 (which is 240.015625 / 5). *)
Definition skew_env : env :=
  mk_env (build_application_list menu_input) (fun w => 4 * w)
         (mk_extents 38%float 0x1.8006666666667p+5%float)
         (fun _ => true) (fun _ => true).

(** An allocation that works and hands out [n]. *)
Definition sample_alloc (n : nat) : alloc := mk_alloc shm_ok n n n.

(** An output that has no background yet. *)
Definition sample_output : output := mk_output 3 None 0 0.

(** An 800x600 buffer the compositor still holds. *)
Definition sample_busy : buffer :=
  mk_buffer 100 true 800 600 3200 WL_SHM_FORMAT_XRGB8888 1920000 200.

(** A background resized to 1024x768 while its 800x600 buffer is still
    with the compositor, and no frame callback outstanding. *)
Definition sample_resized : session :=
  mk_session None None
    (set_buffers [sample_busy] (set_size 1024 768 (new_background 7))).

(** The session [evs] leads to from a new background on surface 7. *)
Definition state_after (E : env) (evs : list (event * alloc)) : session :=
  match run E evs (initial_session 7) with
  | Done ss _ => ss
  | Fault _ => initial_session 7
  end.

(** The first configure, then the pointer entering at (5, 33). *)
Definition sample_start : list (event * alloc) :=
  [(ev_configure 800 600, sample_alloc 1);
   (ev_pointer_enter 1 1280 8448, sample_alloc 2)].

(** A scroll of -5 arriving before the frame callback of the first draw. *)
Definition sample_scroll : list (event * alloc) :=
  sample_start
  ++ [(ev_pointer_axis WL_POINTER_AXIS_VERTICAL_SCROLL (-1280), sample_alloc 3)].

(** What follows the first configure in [sample_scroll]: the pointer
    enters and the scroll arrives while the callback is outstanding. *)
Definition sample_gated_events : list (event * alloc) :=
  [(ev_pointer_enter 1 1280 8448, sample_alloc 2);
   (ev_pointer_axis WL_POINTER_AXIS_VERTICAL_SCROLL (-1280), sample_alloc 3)].


(** A surface 100 high for the six applications: the pointer enters, both
    frame callbacks complete, and a scroll of 100 arrives while the surface
    is idle. *)
Definition sample_long_scroll : list (event * alloc) :=
  [(ev_configure 200 100, sample_alloc 1);
   (ev_pointer_enter 1 1280 8448, sample_alloc 2);
   (ev_frame_done, sample_alloc 3);
   (ev_frame_done, sample_alloc 4);
   (ev_pointer_axis WL_POINTER_AXIS_VERTICAL_SCROLL 25600, sample_alloc 5)].

(** The first configure, then the pointer entering at (5, 250.015625). *)
Definition sample_start_skew : list (event * alloc) :=
  [(ev_configure 800 600, sample_alloc 1);
   (ev_pointer_enter 1 1280 64004, sample_alloc 2)].

(** The state the first configure leaves behind. *)
Definition sample_configured : session :=
  Eval vm_compute in
    state_after sample_env [(ev_configure 800 600, sample_alloc 1)].

(** The state after [sample_start]: the callback of the first draw is
    outstanding, the enter has asked for a redraw, and the pointer is at
    height 33, the top of the second row. *)
Definition sample_entered : session :=
  Eval vm_compute in state_after sample_env sample_start.

(** The state after [sample_scroll]. *)
Definition sample_gated : session :=
  Eval vm_compute in state_after sample_env sample_scroll.


(** The state after [sample_long_scroll]. *)
Definition sample_scrolled : session :=
  Eval vm_compute in state_after menu_env sample_long_scroll.

(** The state after [sample_start_skew]. *)
Definition sample_skewed : session :=
  Eval vm_compute in state_after skew_env sample_start_skew.

(** ** Vocabulary of the further properties *)

(** The slots of the capability record that no event writes: everything
    but the cursor position. *)
Definition same_handlers (s1 s2 : desktop_surface) : Prop :=
  ds_configure s1 = ds_configure s2 /\ ds_cursor s1 = ds_cursor s2
  /\ ds_on_cursor_motion s1 = ds_on_cursor_motion s2
  /\ ds_on_cursor_enter s1 = ds_on_cursor_enter s2
  /\ ds_on_cursor_leave s1 = ds_on_cursor_leave s2
  /\ ds_on_pointer_button s1 = ds_on_pointer_button s2
  /\ ds_on_pointer_axis s1 = ds_on_pointer_axis s2
  /\ ds_on_pointer_frame s1 = ds_on_pointer_frame s2.

(** No pointer enter among the events. *)
Definition no_enter (evs : list (event * alloc)) : Prop :=
  forall serial x y a, ~ In (ev_pointer_enter serial x y, a) evs.

(** The launch-related requests: the launch and its failure line. *)
Definition launch_related (r : request) : bool :=
  match r with
  | g_app_info_launch _ | launch_failed _ => true
  | _ => false
  end.

(** Requests that manage the pool ahead of the painting. *)
Definition pool_request (r : request) : bool :=
  match r with
  | free_buffer _ | wl_shm_pool_create_buffer _ => true
  | _ => false
  end.

(** A pool with one idle 800x600 buffer and one busy one. *)
Definition sample_pool : list buffer :=
  [mk_buffer 100 false 800 600 3200 WL_SHM_FORMAT_XRGB8888 1920000 200;
   mk_buffer 101 true 800 600 3200 WL_SHM_FORMAT_XRGB8888 1920000 201].

(** Vertical scroll events carrying the given deltas. *)
Definition scroll_events (vs : list (Z * alloc)) : list (event * alloc) :=
  map (fun va => (ev_pointer_axis WL_POINTER_AXIS_VERTICAL_SCROLL (fst va), snd va)) vs.

(** The offset after adding the deltas one by one, unclamped. *)
Definition scroll_sum (y : double) (vs : list (Z * alloc)) : double :=
  fold_left (fun y va => (y + wl_fixed_to_double (fst va))%float) vs y.

(** A surface 10 high showing the three sample entries. *)
Definition sample_tiny : background := set_size 300 10 (new_background 7).

(** An example of a rounded quotient: three rows
    0x1.2aaaaaaaaaaabp+4 high (the double next above 56 / 3), the cursor at
    66, no scroll. *)
Definition sample_thirds : background :=
  set_extents (mk_extents 15%float 0x1.2aaaaaaaaaaabp+4%float)
    (set_base (set_cursor_pos 5%float 66%float (bg_base (new_background 7)))
       (set_size 800 600 (new_background 7))).

(** A string without zero byte, as every C string is. *)
Fixpoint no_nul (s : string) : bool :=
  match s with
  | EmptyString => true
  | String c r => negb (Nat.eqb (nat_of_ascii c) 0) && no_nul r
  end.



Definition advertised (name : string) (ads : list advert) : bool :=
  existsb (interface_is name) ads.












(** ** Tactics *)

Ltac not_frame_release := first [discriminate | intros ?; discriminate].

Ltac split_eqb :=
  repeat match goal with
         | |- context [?p =? ?q] => destruct (Z.eqb_spec p q)
         | H : context [?p =? ?q] |- _ => destruct (Z.eqb_spec p q)
         end.

(** * Properties *)

(** ** Binary64 order *)

Lemma SFcompare_self f : f <> S754_nan -> SFcompare f f = Some Eq.
Proof.
  destruct f as [s|s| |s m e]; simpl; intro H; try congruence.
  - destruct s; reflexivity.
  - rewrite Z.compare_refl.
    change (Pos.compare_cont Eq m m) with (Pos.compare m m).
    rewrite Pos.compare_refl. destruct s; reflexivity.
Qed.

Lemma SFcompare_refl f c : SFcompare f f = Some c -> c = Eq.
Proof.
  intro H. destruct f as [s|s| |s m e]; try discriminate H;
    rewrite SFcompare_self in H by discriminate; congruence.
Qed.

Lemma flt_fle (x y : double) : (x <? y)%float = true -> (x <=? y)%float = true.
Proof.
  rewrite FloatAxioms.ltb_spec, FloatAxioms.leb_spec. unfold SFltb, SFleb.
  destruct (SFcompare _ _) as [[]|]; congruence.
Qed.

Lemma flt_irrefl (x : double) : (x <? x)%float = false.
Proof.
  rewrite FloatAxioms.ltb_spec. unfold SFltb.
  destruct (SFcompare _ _) as [c|] eqn:H; [|reflexivity].
  rewrite (SFcompare_refl _ _ H). reflexivity.
Qed.

Lemma fle_refl (x : double) : is_nan x = false -> (x <=? x)%float = true.
Proof.
  unfold is_nan. rewrite FloatAxioms.eqb_spec, FloatAxioms.leb_spec.
  unfold SFeqb, SFleb. destruct (SFcompare _ _) as [[]|]; simpl; congruence.
Qed.

Lemma SFcompare_some_refl a b c :
  SFcompare a b = Some c -> SFcompare b b = Some Eq.
Proof.
  intro H. apply SFcompare_self. intro Hb. subst b.
  destruct a; discriminate H.
Qed.

(** What compares less than a double is not a NaN. *)
Lemma flt_not_nan (x y : double) : (x <? y)%float = true -> is_nan y = false.
Proof.
  unfold is_nan. rewrite FloatAxioms.ltb_spec, FloatAxioms.eqb_spec.
  unfold SFltb, SFeqb.
  destruct (SFcompare (Prim2SF x) (Prim2SF y)) as [c|] eqn:H; [|discriminate].
  rewrite (SFcompare_some_refl _ _ _ H). reflexivity.
Qed.

Ltac order_cases :=
  repeat match goal with
         | |- context [Z.compare ?p ?q] => destruct (Z.compare_spec p q); subst
         | |- context [Pos.compare ?p ?q] => destruct (Pos.compare_spec p q); subst
         | H : context [Z.compare ?p ?q] |- _ => destruct (Z.compare_spec p q); subst
         | H : context [Pos.compare ?p ?q] |- _ => destruct (Pos.compare_spec p q); subst
         end.

(** [SFcompare] is a lexicographic order on sign, exponent and
    mantissa. *)
Lemma SFcompare_trans a b c :
  (SFcompare a b = Some Lt \/ SFcompare a b = Some Eq) ->
  (SFcompare b c = Some Lt \/ SFcompare b c = Some Eq) ->
  (SFcompare a c = Some Lt \/ SFcompare a c = Some Eq)
  /\ (SFcompare a b = Some Lt \/ SFcompare b c = Some Lt -> SFcompare a c = Some Lt).
Proof.
  destruct a as [sa|sa| |sa ma ea], b as [sb|sb| |sb mb eb], c as [sc|sc| |sc mc ec];
    simpl;
    try (intros [H|H]; discriminate H);
    try (intros _ [H|H]; discriminate H);
    repeat match goal with s : bool |- _ => destruct s end; simpl;
    change (Pos.compare_cont Eq) with Pos.compare;
    intros H1 H2;
    try (destruct H1 as [H1|H1]; discriminate H1);
    try (destruct H2 as [H2|H2]; discriminate H2);
    try (split; [auto | intros [X|X]; first [exact X | discriminate X | reflexivity]]; fail).
  all: order_cases; simpl in *;
    try (destruct H1 as [H1|H1]; discriminate H1);
    try (destruct H2 as [H2|H2]; discriminate H2);
    try lia;
    try (split; [auto | intros [X|X]; first [exact X | discriminate X | reflexivity]]; fail).
Qed.

Lemma SFleb_cases a b :
  SFleb a b = true <-> (SFcompare a b = Some Lt \/ SFcompare a b = Some Eq).
Proof.
  unfold SFleb. destruct (SFcompare a b) as [[]|]; split; intro H; auto;
    try discriminate; destruct H as [H|H]; discriminate.
Qed.

Lemma SFltb_cases a b : SFltb a b = true <-> SFcompare a b = Some Lt.
Proof.
  unfold SFltb. destruct (SFcompare a b) as [[]|]; split; intro H; auto;
    discriminate.
Qed.

Lemma fle_trans (x y z : double) :
  (x <=? y)%float = true -> (y <=? z)%float = true -> (x <=? z)%float = true.
Proof.
  rewrite !FloatAxioms.leb_spec, !SFleb_cases. intros H1 H2.
  apply (SFcompare_trans _ _ _ H1 H2).
Qed.

Lemma flt_fle_trans (x y z : double) :
  (x <? y)%float = true -> (y <=? z)%float = true -> (x <? z)%float = true.
Proof.
  rewrite !FloatAxioms.ltb_spec, !FloatAxioms.leb_spec, !SFltb_cases, SFleb_cases.
  intros H1 H2.
  apply (SFcompare_trans _ _ _ (or_introl H1) H2). left. exact H1.
Qed.

(** ** [fmax], [fmin] and the clamp *)

Lemma fmax_zero_nonneg (y : double) : (0 <=? fmax y 0)%float = true.
Proof.
  unfold fmax. destruct (0 <=? y)%float eqn:A; [exact A|].
  destruct (y <? 0)%float; reflexivity.
Qed.

Lemma clamp_y_scroll_range (m y : double) :
  (0 <=? clamp_y_scroll m y)%float = true
  /\ (clamp_y_scroll m y <=? (if (0 <? m)%float then m else 0))%float = true.
Proof.
  unfold clamp_y_scroll.
  destruct (0 <? m)%float eqn:Hm; [|split; reflexivity].
  pose proof (fmax_zero_nonneg y) as Hr.
  pose proof (flt_not_nan _ _ Hm) as Hn.
  unfold fmin.
  destruct (fmax y 0 <=? m)%float eqn:A; [split; [exact Hr | exact A]|].
  assert (Hmm : (0 <=? m)%float = true /\ (m <=? m)%float = true)
    by (split; [apply flt_fle; exact Hm | apply fle_refl; exact Hn]).
  destruct (m <? fmax y 0)%float; [exact Hmm|].
  rewrite Hn. exact Hmm.
Qed.

Lemma clamp_y_scroll_zero (m y : double) :
  (0 <? m)%float = false -> clamp_y_scroll m y = 0%float.
Proof. intro H. unfold clamp_y_scroll. rewrite H. reflexivity. Qed.

(** ** Division and the conversion to [guint] *)

(** Rounding keeps the sign it is given. *)
Lemma binary_round_aux_sign s m e l :
  match binary_round_aux prec emax s m e l with
  | S754_zero s' | S754_infinity s' | S754_finite s' _ _ => s' = s
  | S754_nan => True
  end.
Proof.
  unfold binary_round_aux.
  destruct (shr_fexp prec emax m e l) as [mrs' e'].
  destruct (shr_fexp prec emax _ e' loc_Exact) as [mrs'' e''].
  destruct (shr_m mrs''); [reflexivity | | exact I].
  destruct (e'' <=? emax - prec); reflexivity.
Qed.

(** Of a double that is not negative, the integral part toward zero is
    the floor. *)
Lemma truncate_floor (f : spec_float) :
  match f with
  | S754_infinity s | S754_finite s _ _ => s = false
  | _ => True
  end -> truncate f = floor f.
Proof.
  destruct f as [s|s| |s m e]; unfold truncate, floor; intro H; subst;
    reflexivity.
Qed.

(** A zero divisor leaves nothing to convert. *)
Lemma div_to_guint_zero (m h : double) :
  (h =? 0)%float = true -> div_to_guint m h = None.
Proof.
  rewrite FloatAxioms.eqb_spec. change (Prim2SF 0) with (S754_zero false).
  intro H. unfold div_to_guint, double_to_guint.
  rewrite FloatAxioms.div_spec.
  destruct (Prim2SF h) as [s|s| |s mh eh]; try discriminate H;
    try (destruct s; discriminate H).
  destruct (Prim2SF m) as [sx|sx| |sx mx ex]; reflexivity.
Qed.

(** ** Unsigned arithmetic *)

Lemma to_uint32_range (z : Z) : 0 <= to_uint32 z < 2 ^ 32.
Proof. unfold to_uint32. apply Z.mod_pos_bound. reflexivity. Qed.

Lemma to_uint32_small (z : Z) : 0 <= z < 2 ^ 32 -> to_uint32 z = z.
Proof. intro H. unfold to_uint32. apply Z.mod_small. exact H. Qed.

(** ** Lists *)

Lemma find_index_some {A} (p : A -> bool) (l : list A) (i : nat) :
  find_index p l = Some i -> exists x, nth_error l i = Some x /\ p x = true.
Proof.
  revert i. induction l as [|x r IH]; simpl; intros i H; [discriminate|].
  destruct (p x) eqn:Px.
  - inversion H; subst. exists x. split; [reflexivity | exact Px].
  - destruct (find_index p r) as [j|]; [|discriminate].
    inversion H; subst. simpl. apply IH. reflexivity.
Qed.

Lemma find_index_none {A} (p : A -> bool) (l : list A) :
  find_index p l = None -> forall x, In x l -> p x = false.
Proof.
  induction l as [|y r IH]; simpl; intros H x Hin; [contradiction|].
  destruct (p y) eqn:Py; [discriminate|].
  destruct (find_index p r); [discriminate|].
  destruct Hin as [->|Hin]; [exact Py | apply IH; [reflexivity | exact Hin]].
Qed.

Lemma update_at_keeps {A} (f : A -> A) (l : list A) (i : nat) (b : A) :
  In b l -> (forall x, nth_error l i = Some x -> x <> b) ->
  In b (update_at i f l).
Proof.
  revert i. induction l as [|y r IH]; simpl; intros i Hin Hne; [contradiction|].
  destruct i as [|j]; simpl.
  - destruct Hin as [->|Hin]; [|right; exact Hin].
    exfalso. apply (Hne b); reflexivity.
  - destruct Hin as [->|Hin]; [left; reflexivity|].
    right. apply IH; [exact Hin | exact Hne].
Qed.

Lemma update_at_hits {A} (f : A -> A) (l : list A) (i : nat) (x : A) :
  nth_error l i = Some x -> In (f x) (update_at i f l).
Proof.
  revert i. induction l as [|y r IH]; intros [|j] H; simpl in *; try discriminate.
  - inversion H; subst. left; reflexivity.
  - right. apply IH; exact H.
Qed.

Lemma update_at_from {A} (f : A -> A) (l : list A) (i : nat) (b : A) :
  In b (update_at i f l) ->
  In b l \/ exists x, nth_error l i = Some x /\ b = f x.
Proof.
  revert i. induction l as [|y r IH]; intros [|j] H; simpl in *; try contradiction.
  - destruct H as [<-|H]; [right; exists y; auto | left; right; exact H].
  - destruct H as [<-|H]; [left; left; reflexivity|].
    destruct (IH _ H) as [Hin|Hx]; [left; right; exact Hin | right; exact Hx].
Qed.

(** ** The three ways [draw_background] ends *)

Lemma wrong_size_true w h s b :
  wrong_size w h s b = true <->
  buf_busy b = false /\ (buf_width b <> w \/ buf_height b <> h \/ buf_stride b <> s).
Proof.
  unfold wrong_size.
  rewrite andb_true_iff, !orb_true_iff, !negb_true_iff, !Z.eqb_neq.
  tauto.
Qed.

Lemma reusable_true w h s b :
  reusable w h s b = true <->
  buf_busy b = false /\ buf_width b = w /\ buf_height b = h /\ buf_stride b = s.
Proof.
  unfold reusable.
  rewrite !andb_true_iff, negb_true_iff, !Z.eqb_eq. tauto.
Qed.

Lemma busy_is_kept E bg b :
  In b (bg_buffers bg) -> buf_busy b = true -> In b (kept_buffers E bg).
Proof.
  intros Hin Hb. unfold kept_buffers. apply filter_In. split; [exact Hin|].
  unfold wrong_size. rewrite Hb. reflexivity.
Qed.

Lemma draw_background_case E a bg : draw_case E a bg (draw_background E a bg).
Proof.
  unfold draw_background.
  destruct (bg_frame bg) as [cb|] eqn:Hf.
  - exact (draw_gated E a bg cb Hf).
  - cbv zeta.
    destruct (find_index _ _) as [i|] eqn:Hfind.
    + destruct (find_index_some _ _ _ Hfind) as [buf [Hn Hr]].
      rewrite Hn.
      destruct (paint_and_commit _ _ _ _ _ _) as [bg' sent] eqn:Hp.
      pose proof (draw_reuse E a bg i buf Hf Hn Hr) as C.
      unfold kept_buffers, freed_buffers, draw_stride in C.
      change (bg_buffers (set_needs_draw false bg)) with (bg_buffers bg) in Hp.
      change (bg_width (set_needs_draw false bg)) with (bg_width bg) in Hp.
      change (bg_height (set_needs_draw false bg)) with (bg_height bg) in Hp.
      rewrite Hp in C. exact C.
    + pose proof (find_index_none _ _ Hfind) as Hnone.
      unfold create_buffer. cbv zeta.
      change (bg_width (set_needs_draw false bg)) with (bg_width bg).
      change (bg_height (set_needs_draw false bg)) with (bg_height bg).
      change (bg_buffers (set_needs_draw false bg)) with (bg_buffers bg).
      fold (draw_stride E bg). fold (draw_size E bg).
      assert (Hcan : can_allocate E a bg
                     = match al_shm a with
                       | shm_ok => negb (draw_size E bg =? 0)
                       | _ => false
                       end) by reflexivity.
      destruct (al_shm a) eqn:Hs;
        try (apply draw_null; [exact Hf | exact Hnone | exact Hcan]).
      destruct (draw_size E bg =? 0) eqn:Hz.
      * apply draw_null; [exact Hf | exact Hnone | exact Hcan].
      * destruct (paint_and_commit _ _ _ _ _ _) as [bg' sent] eqn:Hp.
        pose proof (draw_fresh E a bg _ Hf Hnone Hcan eq_refl) as C.
        unfold kept_buffers, freed_buffers in C.
        rewrite Hp in C. exact C.
Qed.

Lemma same_core_refl bg : same_core bg bg.
Proof. repeat split. Qed.

Lemma set_base_self bg : set_base (bg_base bg) bg = bg.
Proof. destruct bg; reflexivity. Qed.

Lemma session_eta ss :
  mk_session (current_cursor ss) (seat_pointer_surface ss) (ss_background ss) = ss.
Proof. destruct ss; reflexivity. Qed.

Lemma after_nil {S} (r : result S) : after [] r = r.
Proof. destruct r; reflexivity. Qed.

Lemma with_background_after cur focus pre r :
  with_background cur focus (after pre r) = after pre (with_background cur focus r).
Proof. destruct r; reflexivity. Qed.

Lemma set_cursor_quiet E name serial cur :
  forallb quiet (snd (set_cursor E name serial cur)) = true.
Proof.
  unfold set_cursor.
  destruct cur as [c|]; [destruct (String.eqb c name)|];
    destruct (theme_has_cursor E name); reflexivity.
Qed.

Lemma launch_app_quiet E app : forallb quiet (launch_app E app) = true.
Proof. unfold launch_app. destruct (launch_succeeds E app); reflexivity. Qed.

Lemma dispatch_draw_nil E ev a ss cur focus bg1 :
  same_core bg1 (ss_background ss) ->
  ev <> ev_frame_done -> (forall b, ev <> ev_buffer_release b) ->
  dispatch_case E ev a ss (with_background cur focus (draw_background E a bg1)).
Proof.
  intros Hc H1 H2.
  rewrite <- (after_nil (with_background cur focus (draw_background E a bg1))).
  apply dc_draw; [exact Hc | reflexivity | exact H1 | exact H2].
Qed.

Lemma dispatch_quiet_same E ev a ss sent :
  forallb quiet sent = true ->
  ev <> ev_frame_done -> (forall b, ev <> ev_buffer_release b) ->
  dispatch_case E ev a ss (Done ss sent).
Proof.
  intros Hq H1 H2.
  pose proof (dc_quiet E ev a ss (current_cursor ss) (seat_pointer_surface ss)
                (bg_base (ss_background ss)) sent Hq H1 H2) as C.
  rewrite set_base_self, session_eta in C. exact C.
Qed.

Lemma dispatch_is_case E ev a ss : dispatch_case E ev a ss (dispatch E ev a ss).
Proof.
  destruct ev; simpl.
  - (* configure *)
    unfold desktop_shell_configure.
    destruct (ds_configure _) as [[]|].
    + unfold background_configure.
      apply dispatch_draw_nil; [repeat split | not_frame_release ..].
    + apply dc_fault; not_frame_release.
  - (* enter *)
    unfold pointer_enter.
    destruct (match ds_cursor _ with Some _ => _ | None => _ end) as [cur sent] eqn:Hc.
    assert (Hq : forallb quiet sent = true).
    { destruct (ds_cursor _).
      - pose proof (set_cursor_quiet E s serial (current_cursor ss)) as Q.
        rewrite Hc in Q. exact Q.
      - inversion Hc. reflexivity. }
    destruct (ds_on_cursor_enter _) as [f|].
    + replace (call_seat_fn E a f) with (draw_background E a) by (destruct f; reflexivity).
      apply dc_draw; [repeat split | exact Hq | not_frame_release ..].
    + apply dc_quiet; [exact Hq | not_frame_release ..].
  - (* leave *)
    unfold pointer_leave.
    destruct (ds_on_cursor_leave _) as [f|].
    + replace (call_seat_fn E a f) with (draw_background E a) by (destruct f; reflexivity).
      apply dispatch_draw_nil; [repeat split | not_frame_release ..].
    + apply dc_quiet; [reflexivity | not_frame_release ..].
  - (* motion *)
    unfold pointer_motion.
    destruct (seat_pointer_surface ss) as [s|] eqn:Hs.
    + destruct (ds_on_cursor_motion _) as [f|].
      * replace (call_seat_fn E a f) with (draw_background E a) by (destruct f; reflexivity).
        apply dispatch_draw_nil; [repeat split | not_frame_release ..].
      * apply dc_quiet; [reflexivity | not_frame_release ..].
    + apply dispatch_quiet_same; [reflexivity | not_frame_release ..].
  - (* button *)
    unfold pointer_button.
    destruct (seat_pointer_surface ss) as [s|] eqn:Hs;
      [destruct (ds_on_pointer_button _) as [[]|]|];
      try (apply dispatch_quiet_same; [reflexivity | not_frame_release ..]).
    unfold background_pointer_button.
    destruct (_ && _ && _);
      [|simpl; rewrite <- Hs, session_eta;
        apply dispatch_quiet_same; [reflexivity | not_frame_release ..]].
    destruct (0 <=? _)%float;
      [|simpl; rewrite <- Hs, session_eta;
        apply dispatch_quiet_same; [reflexivity | not_frame_release ..]].
    destruct (div_to_guint _ _); [|apply dc_fault; not_frame_release].
    destruct (g_list_nth_data _ _); simpl; rewrite <- Hs, session_eta;
      apply dispatch_quiet_same;
      first [apply launch_app_quiet | reflexivity | not_frame_release].
  - (* axis *)
    unfold pointer_axis.
    destruct (seat_pointer_surface ss) as [s|] eqn:Hs;
      [destruct (ds_on_pointer_axis _) as [[]|]|];
      try (apply dispatch_quiet_same; [reflexivity | not_frame_release ..]).
    unfold background_pointer_axis.
    destruct (axis =? _).
    + apply dispatch_draw_nil; [repeat split | not_frame_release ..].
    + simpl. rewrite <- Hs, session_eta.
      apply dispatch_quiet_same; [reflexivity | not_frame_release ..].
  - (* pointer frame *)
    unfold pointer_frame.
    destruct (seat_pointer_surface ss) as [s|] eqn:Hs;
      [destruct (ds_on_pointer_frame _) as [f|]|];
      try (apply dispatch_quiet_same; [reflexivity | not_frame_release ..]).
    replace (call_seat_fn E a f) with (draw_background E a) by (destruct f; reflexivity).
    apply dispatch_draw_nil; [apply same_core_refl | not_frame_release ..].
  - (* frame done *)
    unfold background_frame_done.
    destruct (bg_frame (ss_background ss)) as [cb|] eqn:Hf.
    + change (bg_needs_draw (set_frame None (ss_background ss)))
        with (bg_needs_draw (ss_background ss)).
      destruct (bg_needs_draw (ss_background ss)) eqn:Hn.
      * rewrite with_background_after.
        apply (dc_frame_redraw E ev_frame_done a ss cb eq_refl Hf Hn).
      * apply (dc_frame_idle E ev_frame_done a ss cb eq_refl Hf Hn).
    + apply (dc_frame_none E ev_frame_done a ss eq_refl Hf).
  - (* release *)
    apply (dc_release E _ a ss wl_buffer eq_refl).
Qed.

(** ** Buffer pool *)

Lemma in_frees b l : In (free_buffer b) (map free_buffer l) -> In b l.
Proof.
  intro H. apply in_map_iff in H. destruct H as [x [Hx Hin]].
  inversion Hx; subst. exact Hin.
Qed.

Lemma attach_not_in_frees s b l : ~ In (wl_surface_attach s b) (map free_buffer l).
Proof.
  intro H. apply in_map_iff in H. destruct H as [x [Hx _]]. discriminate.
Qed.

Lemma freed_buffers_spec E bg b :
  In b (freed_buffers E bg) ->
  In b (bg_buffers bg) /\ buf_busy b = false /\ ~ fits E bg b.
Proof.
  unfold freed_buffers. intro H. apply filter_In in H. destruct H as [Hin Hw].
  apply wrong_size_true in Hw. destruct Hw as [Hb Hm].
  split; [exact Hin|]. split; [exact Hb|].
  unfold fits. intros [H1 [H2 H3]]. tauto.
Qed.

Lemma kept_buffers_in E bg b : In b (kept_buffers E bg) -> In b (bg_buffers bg).
Proof. unfold kept_buffers. intro H. apply filter_In in H. tauto. Qed.

Lemma draw_frees E a bg b :
  In (free_buffer b) (sent_of (draw_background E a bg)) ->
  In b (bg_buffers bg) /\ buf_busy b = false /\ ~ fits E bg b.
Proof.
  destruct (draw_background_case E a bg)
    as [cb Hf|i buf Hf Hn Hr|buf Hf Hnone Hs Hbuf|msg Hf Hnone Hs];
    simpl; intro H.
  - contradiction.
  - apply in_app_or in H. destruct H as [H|H].
    + apply freed_buffers_spec, in_frees, H.
    + simpl in H. intuition discriminate.
  - apply in_app_or in H. destruct H as [H|H].
    + apply freed_buffers_spec, in_frees, H.
    + simpl in H. intuition discriminate.
  - apply in_app_or in H. destruct H as [H|H].
    + apply freed_buffers_spec, in_frees, H.
    + simpl in H. intuition discriminate.
Qed.

Lemma draw_attaches E a bg s b :
  In (wl_surface_attach s b) (sent_of (draw_background E a bg)) ->
  buf_busy b = false /\ fits E bg b
  /\ (In b (bg_buffers bg)
      \/ In (wl_shm_pool_create_buffer b) (sent_of (draw_background E a bg))).
Proof.
  destruct (draw_background_case E a bg)
    as [cb Hf|i buf Hf Hn Hr|buf Hf Hnone Hs Hbuf|msg Hf Hnone Hs];
    simpl; intro H.
  - contradiction.
  - apply in_app_or in H. destruct H as [H|H]; [destruct (attach_not_in_frees _ _ _ H)|].
    simpl in H.
    destruct H as [H|[H|[H|[H|[H|[]]]]]]; try discriminate.
    inversion H; subst s b.
    apply reusable_true in Hr. destruct Hr as [Hb [Hw [Hh Hst]]].
    split; [exact Hb|]. split; [repeat split; assumption|].
    left. apply (kept_buffers_in E). apply (nth_error_In _ _ Hn).
  - apply in_app_or in H. destruct H as [H|H]; [destruct (attach_not_in_frees _ _ _ H)|].
    simpl in H.
    destruct H as [H|[H|[H|[H|[H|[H|[]]]]]]]; try discriminate.
    inversion H; subst s b.
    split; [rewrite Hbuf; reflexivity|].
    split; [rewrite Hbuf; repeat split|].
    right. apply in_or_app. right. left. reflexivity.
  - apply in_app_or in H. destruct H as [H|H]; [destruct (attach_not_in_frees _ _ _ H)|].
    simpl in H. intuition discriminate.
Qed.

Lemma draw_keeps_busy E a bg bg' sent b :
  draw_background E a bg = Done bg' sent ->
  In b (bg_buffers bg) -> buf_busy b = true -> In b (bg_buffers bg').
Proof.
  intros Hd Hin Hb.
  pose proof (busy_is_kept E bg b Hin Hb) as Hk.
  destruct (draw_background_case E a bg)
    as [cb Hf|i buf Hf Hn Hr|buf Hf Hnone Hs Hbuf|msg Hf Hnone Hs];
    inversion Hd; subst; simpl.
  - exact Hin.
  - apply update_at_keeps; [exact Hk|].
    intros x Hx. rewrite Hn in Hx. inversion Hx; subst x.
    intro Heq. subst buf. apply reusable_true in Hr. destruct Hr as [Hr _]. congruence.
  - right. exact Hk.
Qed.

Lemma draw_marks_busy E a bg bg' sent s b :
  draw_background E a bg = Done bg' sent ->
  In (wl_surface_attach s b) sent -> In (set_busy true b) (bg_buffers bg').
Proof.
  intros Hd H.
  destruct (draw_background_case E a bg)
    as [cb Hf|i buf Hf Hn Hr|buf Hf Hnone Hs Hbuf|msg Hf Hnone Hs];
    inversion Hd; subst bg' sent; clear Hd.
  - contradiction.
  - apply in_app_or in H. destruct H as [H|H]; [destruct (attach_not_in_frees _ _ _ H)|].
    simpl in H.
    destruct H as [H|[H|[H|[H|[H|[]]]]]]; try discriminate.
    inversion H; subst s b. simpl. apply update_at_hits. exact Hn.
  - apply in_app_or in H. destruct H as [H|H]; [destruct (attach_not_in_frees _ _ _ H)|].
    simpl in H.
    destruct H as [H|[H|[H|[H|[H|[H|[]]]]]]]; try discriminate.
    inversion H; subst s b. simpl. left. reflexivity.
Qed.

(** Without a buffer to reuse and without a new one, the draw faults. *)
Lemma draw_without_buffer_faults E a bg :
  bg_frame bg = None -> can_allocate E a bg = false ->
  (forall b, In b (kept_buffers E bg) ->
             reusable (bg_width bg) (bg_height bg) (draw_stride E bg) b = false) ->
  exists msg,
    draw_background E a bg
    = Fault (map free_buffer (freed_buffers E bg) ++ [perror msg]).
Proof.
  intros Hf Hs Hnone.
  destruct (draw_background_case E a bg)
    as [cb Hf'|i buf Hf' Hn Hr|buf Hf' Hnone' Hs' Hbuf|msg Hf' Hnone' Hs'];
    try congruence.
  - apply nth_error_In in Hn. rewrite (Hnone buf Hn) in Hr. discriminate.
  - exists msg. reflexivity.
Qed.

Lemma quiet_not_free b l : forallb quiet l = true -> ~ In (free_buffer b) l.
Proof.
  intros Hq Hin. rewrite forallb_forall in Hq. apply Hq in Hin. discriminate.
Qed.

Lemma quiet_not_attach s b l : forallb quiet l = true -> ~ In (wl_surface_attach s b) l.
Proof.
  intros Hq Hin. rewrite forallb_forall in Hq. apply Hq in Hin. discriminate.
Qed.

Lemma sent_of_after {S} pre (r : result S) : sent_of (after pre r) = pre ++ sent_of r.
Proof. destruct r; reflexivity. Qed.

Lemma sent_of_with_background cur focus r :
  sent_of (with_background cur focus r) = sent_of r.
Proof. destruct r; reflexivity. Qed.

Lemma after_done {S} pre (r : result S) s sent :
  after pre r = Done s sent -> exists sent', r = Done s sent' /\ sent = pre ++ sent'.
Proof.
  destruct r; simpl; intro H; inversion H; subst. eexists; split; reflexivity.
Qed.

Lemma with_background_done cur focus r ss sent :
  with_background cur focus r = Done ss sent ->
  exists bg, r = Done bg sent /\ ss = mk_session cur focus bg.
Proof.
  destruct r; simpl; intro H; inversion H; subst. eexists; split; reflexivity.
Qed.

Lemma busy_survives_release b w pool :
  In b pool -> buf_busy b = true -> buf_buffer b <> w -> In b (buffer_release w pool).
Proof.
  intros Hin Hb Hne. unfold buffer_release. apply in_map_iff.
  exists b. split; [|exact Hin].
  destruct (Nat.eqb (buf_buffer b) w) eqn:He; [|reflexivity].
  apply Nat.eqb_eq in He. contradiction.
Qed.

(** Every event leaves a busy buffer alone, except its own release. *)
Lemma dispatch_busy E ev a ss b :
  In b (bg_buffers (ss_background ss)) -> buf_busy b = true ->
  ~ In (free_buffer b) (sent_of (dispatch E ev a ss))
  /\ (forall s, ~ In (wl_surface_attach s b) (sent_of (dispatch E ev a ss)))
  /\ (forall ss' sent, dispatch E ev a ss = Done ss' sent ->
        ev <> ev_buffer_release (buf_buffer b) ->
        In b (bg_buffers (ss_background ss'))).
Proof.
  intros Hin Hb.
  assert (Hdraw : forall bg1 pre cur focus,
             bg_buffers bg1 = bg_buffers (ss_background ss) ->
             (forall b', ~ In (free_buffer b') pre) ->
             (forall s b', ~ In (wl_surface_attach s b') pre) ->
             let r := after pre (with_background cur focus (draw_background E a bg1)) in
             ~ In (free_buffer b) (sent_of r)
             /\ (forall s, ~ In (wl_surface_attach s b) (sent_of r))
             /\ (forall ss' sent, r = Done ss' sent ->
                   In b (bg_buffers (ss_background ss')))).
  { intros bg1 pre cur focus Hbuf Hp1 Hp2 r. subst r.
    rewrite sent_of_after, sent_of_with_background.
    split; [|split].
    - intro H. apply in_app_or in H. destruct H as [H|H]; [exact (Hp1 _ H)|].
      apply draw_frees in H. destruct H as [_ [H _]]. congruence.
    - intros s H. apply in_app_or in H. destruct H as [H|H]; [exact (Hp2 _ _ H)|].
      apply draw_attaches in H. destruct H as [H _]. congruence.
    - intros ss' sent H.
      apply after_done in H. destruct H as [sent' [H _]].
      apply with_background_done in H. destruct H as [bg' [H ->]]. simpl.
      apply (draw_keeps_busy E a bg1 bg' sent' b H); [rewrite Hbuf; exact Hin | exact Hb]. }
  destruct (dispatch_is_case E ev a ss)
    as [pre cur focus bg1 Hc Hq H1 H2|cur focus base sent Hq H1 H2|H1 H2
       |He Hf|cb He Hf Hn|cb He Hf Hn|w He].
  - destruct Hc as [_ [Hbuf _]].
    destruct (Hdraw bg1 pre cur focus Hbuf
                (fun b' => quiet_not_free b' pre Hq)
                (fun s b' => quiet_not_attach s b' pre Hq)) as [A [B C]].
    split; [exact A|]. split; [exact B|]. intros ss' sent H _. exact (C ss' sent H).
  - simpl. split; [apply quiet_not_free; exact Hq|].
    split; [intro s; apply quiet_not_attach; exact Hq|].
    intros ss' sent' H _. inversion H; subst. exact Hin.
  - simpl. split; [tauto|]. split; [tauto|]. discriminate.
  - simpl. split; [tauto|]. split; [tauto|]. discriminate.
  - simpl. split; [intuition discriminate|]. split; [intros s; intuition discriminate|].
    intros ss' sent' H _. inversion H; subst. exact Hin.
  - destruct (Hdraw (set_frame None (ss_background ss)) [wl_callback_destroy cb]
                (current_cursor ss) (seat_pointer_surface ss) eq_refl) as [A [B C]].
    + intros b' H. simpl in H. intuition discriminate.
    + intros s b' H. simpl in H. intuition discriminate.
    + split; [exact A|]. split; [exact B|]. intros ss' sent H _. exact (C ss' sent H).
  - simpl. split; [tauto|]. split; [tauto|].
    intros ss' sent' H Hne. inversion H; subst. simpl.
    apply busy_survives_release; [exact Hin | exact Hb|].
    intro Heq. apply Hne. rewrite Heq. reflexivity.
Qed.

(** ** Frame throttle *)

Lemma outstanding_app c l1 l2 :
  outstanding c (l1 ++ l2) = outstanding (outstanding c l1) l2.
Proof. unfold outstanding. apply fold_left_app. Qed.

Lemma throttled_nil c : 0 <= c <= 1 -> throttled c [].
Proof.
  intros Hc p q H. symmetry in H. apply app_eq_nil in H. destruct H as [-> _].
  exact Hc.
Qed.

Lemma throttled_cons c r l :
  0 <= c <= 1 -> throttled (c + callback_delta r) l -> throttled c (r :: l).
Proof.
  intros Hc Hl p q H. destruct p as [|x p]; [exact Hc|].
  simpl in H. inversion H; subst. simpl. apply (Hl p q). reflexivity.
Qed.

Lemma throttled_app c l1 l2 :
  throttled c l1 -> throttled (outstanding c l1) l2 -> throttled c (l1 ++ l2).
Proof.
  revert c. induction l1 as [|r l1 IH]; intros c H1 H2; simpl.
  - exact H2.
  - apply throttled_cons.
    + apply (H1 [] (r :: l1)). reflexivity.
    + apply IH; [|exact H2].
      intros p q H. apply (H1 (r :: p) q). simpl. rewrite H. reflexivity.
Qed.

Lemma throttled_start c l : throttled c l -> 0 <= c <= 1.
Proof. intro H. apply (H [] l). reflexivity. Qed.

Lemma neutral_outstanding c l : neutral l -> outstanding c l = c.
Proof.
  revert c. induction l as [|r l IH]; intros c H; [reflexivity|].
  unfold outstanding. simpl. fold (outstanding (c + callback_delta r) l).
  rewrite IH.
  - rewrite (H r); [lia | left; reflexivity].
  - intros x Hx. apply H. right. exact Hx.
Qed.

Lemma neutral_throttled c l : 0 <= c <= 1 -> neutral l -> throttled c l.
Proof.
  intros Hc Hn p q H. rewrite neutral_outstanding; [exact Hc|].
  intros r Hr. apply Hn. rewrite H. apply in_or_app. left. exact Hr.
Qed.

Lemma quiet_neutral l : forallb quiet l = true -> neutral l.
Proof.
  intros Hq r Hr. rewrite forallb_forall in Hq. apply Hq in Hr.
  destruct r; simpl in *; try discriminate; reflexivity.
Qed.

Lemma frees_neutral l : neutral (map free_buffer l).
Proof.
  intros r Hr. apply in_map_iff in Hr. destruct Hr as [x [<- _]]. reflexivity.
Qed.

Lemma quiet_draws l : forallb quiet l = true -> draws l = 0%nat.
Proof.
  unfold draws. induction l as [|r l IH]; simpl; intro H; [reflexivity|].
  apply andb_true_iff in H. destruct H as [Hr Hl].
  destruct r; simpl in *; try discriminate; apply IH; exact Hl.
Qed.

Lemma draws_app l1 l2 : draws (l1 ++ l2) = (draws l1 + draws l2)%nat.
Proof. unfold draws. rewrite filter_app, length_app. reflexivity. Qed.

Lemma draws_frees l : draws (map free_buffer l) = 0%nat.
Proof. unfold draws. induction l; simpl; auto. Qed.

(** What one call of [draw_background] does to the callback count. *)
Lemma draw_throttled E a bg :
  throttled (pending bg) (sent_of (draw_background E a bg))
  /\ (forall bg' sent, draw_background E a bg = Done bg' sent ->
        outstanding (pending bg) sent = pending bg').
Proof.
  destruct (draw_background_case E a bg)
    
    as [cb Hf|i buf Hf Hn Hr|buf Hf Hnone Hs Hbuf|msg Hf Hnone Hs];
    unfold pending; rewrite Hf; simpl sent_of.
  - split; [apply throttled_nil; lia|].
    intros bg' sent H. inversion H; subst. simpl. rewrite Hf. reflexivity.
  - split.
    + apply throttled_app; [apply neutral_throttled; [lia | apply frees_neutral]|].
      rewrite neutral_outstanding by apply frees_neutral.
      simpl. repeat (apply throttled_cons; [simpl; lia|]). apply throttled_nil. simpl. lia.
    + intros bg' sent H. inversion H; subst.
      rewrite outstanding_app.
      rewrite (neutral_outstanding _ (map free_buffer _)) by apply frees_neutral.
      reflexivity.
  - split.
    + apply throttled_app; [apply neutral_throttled; [lia | apply frees_neutral]|].
      rewrite neutral_outstanding by apply frees_neutral.
      simpl. repeat (apply throttled_cons; [simpl; lia|]). apply throttled_nil. simpl. lia.
    + intros bg' sent H. inversion H; subst.
      rewrite outstanding_app.
      rewrite (neutral_outstanding _ (map free_buffer _)) by apply frees_neutral.
      reflexivity.
  - split; [|discriminate].
    apply throttled_app; [apply neutral_throttled; [lia | apply frees_neutral]|].
    rewrite neutral_outstanding by apply frees_neutral.
    apply throttled_cons; [lia|]. apply throttled_nil. simpl. lia.
Qed.

Lemma pending_range bg : 0 <= pending bg <= 1.
Proof. unfold pending. destruct (bg_frame bg); lia. Qed.

Lemma pending_same_core bg1 bg : same_core bg1 bg -> pending bg1 = pending bg.
Proof. intros [_ [_ [H _]]]. unfold pending. rewrite H. reflexivity. Qed.

Lemma dispatch_throttled E ev a ss :
  throttled (pending (ss_background ss)) (sent_of (dispatch E ev a ss))
  /\ (forall ss' sent, dispatch E ev a ss = Done ss' sent ->
        outstanding (pending (ss_background ss)) sent = pending (ss_background ss')).
Proof.
  pose proof (pending_range (ss_background ss)) as Hc.
  destruct (dispatch_is_case E ev a ss)
    as [pre cur focus bg1 Hcore Hq H1 H2|cur focus base sent Hq H1 H2|H1 H2
       |He Hf|cb He Hf Hn|cb He Hf Hn|w He].
  - rewrite sent_of_after, sent_of_with_background.
    destruct (draw_throttled E a bg1) as [A B].
    rewrite (pending_same_core _ _ Hcore) in A, B.
    split.
    + apply throttled_app; [apply neutral_throttled; [exact Hc | apply quiet_neutral, Hq]|].
      rewrite neutral_outstanding by apply quiet_neutral, Hq. exact A.
    + intros ss' sent H.
      apply after_done in H. destruct H as [sent' [H ->]].
      apply with_background_done in H. destruct H as [bg' [H ->]]. simpl.
      rewrite outstanding_app.
      rewrite (neutral_outstanding _ pre) by apply quiet_neutral, Hq.
      apply B. exact H.
  - simpl. split; [apply neutral_throttled; [exact Hc | apply quiet_neutral, Hq]|].
    intros ss' sent' H. inversion H; subst. simpl.
    rewrite neutral_outstanding by apply quiet_neutral, Hq. reflexivity.
  - simpl. split; [apply throttled_nil; exact Hc | discriminate].
  - simpl. split; [apply throttled_nil; exact Hc | discriminate].
  - simpl. unfold pending. rewrite Hf. split.
    + apply throttled_cons; [lia|]. apply throttled_nil. simpl. lia.
    + intros ss' sent' H. inversion H; subst. reflexivity.
  - rewrite sent_of_after, sent_of_with_background.
    destruct (draw_throttled E a (set_frame None (ss_background ss))) as [A B].
    unfold pending in *. rewrite Hf. simpl in A, B.
    split.
    + apply throttled_cons; [lia | exact A].
    + intros ss' sent H.
      apply after_done in H. destruct H as [sent' [H ->]].
      apply with_background_done in H. destruct H as [bg' [H ->]]. simpl.
      apply (B bg' sent' H).
  - simpl. split; [apply throttled_nil; exact Hc|].
    intros ss' sent' H. inversion H; subst. reflexivity.
Qed.

Lemma run_throttled E evs : forall ss,
  throttled (pending (ss_background ss)) (sent_of (run E evs ss))
  /\ (forall ss' sent, run E evs ss = Done ss' sent ->
        outstanding (pending (ss_background ss)) sent = pending (ss_background ss')).
Proof.
  induction evs as [|[ev a] rest IH]; intro ss; simpl.
  - split; [apply throttled_nil, pending_range|].
    intros ss' sent H. inversion H; subst. reflexivity.
  - destruct (dispatch_throttled E ev a ss) as [A B].
    destruct (dispatch E ev a ss) as [ss1 sent1|sent1] eqn:Hd.
    + specialize (B ss1 sent1 eq_refl). simpl in A.
      destruct (IH ss1) as [A' B'].
      rewrite sent_of_after. split.
      * apply throttled_app; [exact A|]. rewrite B. exact A'.
      * intros ss' sent H. apply after_done in H. destruct H as [sent' [H ->]].
        rewrite outstanding_app, B. apply B'. exact H.
    + simpl in A. split; [exact A | discriminate].
Qed.

(** A request made while a callback is outstanding only sets the flag. *)
Lemma draw_while_outstanding E a bg cb :
  bg_frame bg = Some cb ->
  draw_background E a bg = Done (set_needs_draw true bg) [].
Proof. intro H. unfold draw_background. rewrite H. reflexivity. Qed.

(** A request made while idle draws once, when the buffer can be had. *)
Lemma draw_while_idle E a bg :
  bg_frame bg = None -> can_allocate E a bg = true ->
  exists bg' sent,
    draw_background E a bg = Done bg' sent /\ draws sent = 1%nat
    /\ bg_frame bg' = Some (al_callback a) /\ bg_needs_draw bg' = false.
Proof.
  intros Hf Hs.
  destruct (draw_background_case E a bg)
    as [cb Hf'|i buf Hf' Hn Hr|buf Hf' Hnone Hs' Hbuf|msg Hf' Hnone Hs']; try congruence.
  - eexists; eexists. split; [reflexivity|].
    split; [rewrite draws_app, draws_frees; reflexivity|]. split; reflexivity.
  - eexists; eexists. split; [reflexivity|].
    split; [rewrite draws_app, draws_frees; reflexivity|]. split; reflexivity.
Qed.

Lemma dispatch_while_outstanding E ev a ss ss' sent cb :
  bg_frame (ss_background ss) = Some cb -> ev <> ev_frame_done ->
  dispatch E ev a ss = Done ss' sent ->
  draws sent = 0%nat /\ bg_frame (ss_background ss') = Some cb
  /\ (bg_needs_draw (ss_background ss) = true ->
      bg_needs_draw (ss_background ss') = true).
Proof.
  intros Hf Hev Hd.
  destruct (dispatch_is_case E ev a ss)
    as [pre cur focus bg1 Hcore Hq H1 H2|cur focus base sent0 Hq H1 H2|H1 H2
       |He Hf'|cb' He Hf' Hn|cb' He Hf' Hn|w He];
    try contradiction; try discriminate.
  - destruct Hcore as [_ [_ [Hfr _]]]. rewrite Hf in Hfr.
    rewrite (draw_while_outstanding E a bg1 cb Hfr) in Hd. simpl in Hd.
    inversion Hd; subst. simpl.
    split; [rewrite app_nil_r; apply quiet_draws, Hq|]. split; [exact Hfr | reflexivity].
  - inversion Hd; subst. simpl.
    split; [apply quiet_draws, Hq|]. split; [exact Hf | tauto].
  - inversion Hd; subst. simpl. split; [reflexivity|]. split; [exact Hf | tauto].
Qed.

Lemma run_while_outstanding E evs : forall ss ss' sent cb,
  bg_frame (ss_background ss) = Some cb -> no_frame_done evs ->
  run E evs ss = Done ss' sent ->
  draws sent = 0%nat /\ bg_frame (ss_background ss') = Some cb
  /\ (bg_needs_draw (ss_background ss) = true ->
      bg_needs_draw (ss_background ss') = true).
Proof.
  induction evs as [|[ev a] rest IH]; intros ss ss' sent cb Hf Hno Hr; simpl in Hr.
  - inversion Hr; subst. split; [reflexivity|]. split; [exact Hf | tauto].
  - destruct (dispatch E ev a ss) as [ss1 sent1|sent1] eqn:Hd; [|discriminate].
    apply after_done in Hr. destruct Hr as [sent2 [Hr ->]].
    assert (Hev : ev <> ev_frame_done) by (apply (Hno ev a); left; reflexivity).
    destruct (dispatch_while_outstanding E ev a ss ss1 sent1 cb Hf Hev Hd) as [D1 [F1 N1]].
    assert (Hno' : no_frame_done rest).
    { intros e a' Hin. apply (Hno e a'). right. exact Hin. }
    destruct (IH ss1 ss' sent2 cb F1 Hno' Hr) as [D2 [F2 N2]].
    split; [rewrite draws_app, D1, D2; reflexivity|]. split; [exact F2 | tauto].
Qed.

(** Frame completion: the pending request, if any, is served by one draw. *)
Lemma frame_done_serves E a bg cb :
  bg_frame bg = Some cb -> can_allocate E a bg = true ->
  exists bg' sent,
    background_frame_done E a bg = Done bg' sent
    /\ bg_needs_draw bg' = false
    /\ draws sent = (if bg_needs_draw bg then 1 else 0)%nat
    /\ (bg_needs_draw bg = true -> bg_frame bg' = Some (al_callback a)).
Proof.
  intros Hf Hs. unfold background_frame_done. rewrite Hf.
  change (bg_needs_draw (set_frame None bg)) with (bg_needs_draw bg).
  destruct (bg_needs_draw bg) eqn:Hn.
  - destruct (draw_while_idle E a (set_frame None bg) eq_refl Hs)
      as [bg' [sent [Hd [Hc [Hfr Hn']]]]].
    rewrite Hd. simpl. eexists; eexists. split; [reflexivity|].
    split; [exact Hn'|]. split; [exact Hc | intros _; exact Hfr].
  - eexists; eexists. split; [reflexivity|]. split; [exact Hn|].
    split; [reflexivity | discriminate].
Qed.

(** ** The pending-redraw flag *)

Lemma run_app E l1 : forall l2 ss,
  run E (l1 ++ l2) ss =
  match run E l1 ss with
  | Done s1 sent1 => after sent1 (run E l2 s1)
  | Fault sent1 => Fault sent1
  end.
Proof.
  induction l1 as [|[ev a] l1 IH]; intros l2 ss; simpl.
  - rewrite after_nil. reflexivity.
  - destruct (dispatch E ev a ss) as [s1 sent1|sent1]; [|reflexivity].
    rewrite IH. destruct (run E l1 s1) as [s2 sent2|sent2]; simpl; [|reflexivity].
    destruct (run E l2 s2); simpl; rewrite app_assoc; reflexivity.
Qed.

Lemma run_snoc_done E evs ev a ss ss' sent :
  run E (evs ++ [(ev, a)]) ss = Done ss' sent ->
  exists s1 sent1 sent2,
    run E evs ss = Done s1 sent1 /\ dispatch E ev a s1 = Done ss' sent2
    /\ sent = sent1 ++ sent2.
Proof.
  rewrite run_app. destruct (run E evs ss) as [s1 sent1|]; [|discriminate].
  intro H. apply after_done in H. destruct H as [sent' [H ->]].
  simpl in H. destruct (dispatch E ev a s1) as [s2 sent2|] eqn:Hd; [|discriminate].
  simpl in H. inversion H; subst.
  exists s1, sent1, sent2. rewrite app_nil_r. auto.
Qed.

Lemma draw_sets_flag E a bg bg' sent :
  draw_background E a bg = Done bg' sent -> bg_needs_draw bg' = true ->
  bg_frame bg <> None /\ bg_frame bg' = bg_frame bg /\ sent = [].
Proof.
  intros Hd Hn.
  destruct (draw_background_case E a bg)
    as [cb Hf|i buf Hf Hi Hr|buf Hf Hnone Hs Hbuf|msg Hf Hnone Hs];
    inversion Hd; subst; simpl in Hn; try discriminate.
  split; [congruence|]. split; reflexivity.
Qed.

Lemma draw_clears_flag E a bg bg' sent :
  bg_frame bg = None -> draw_background E a bg = Done bg' sent ->
  bg_needs_draw bg' = false.
Proof.
  intros Hf Hd.
  destruct (draw_background_case E a bg)
    as [cb Hf'|i buf Hf' Hi Hr|buf Hf' Hnone Hs Hbuf|msg Hf' Hnone Hs];
    inversion Hd; subst; try congruence; reflexivity.
Qed.

Lemma dispatch_flag E ev a ss ss' sent :
  dispatch E ev a ss = Done ss' sent ->
  bg_needs_draw (ss_background ss') = true ->
  ev <> ev_frame_done
  /\ bg_frame (ss_background ss') = bg_frame (ss_background ss)
  /\ (bg_needs_draw (ss_background ss) = true
      \/ bg_frame (ss_background ss) <> None).
Proof.
  intros Hd Hn.
  destruct (dispatch_is_case E ev a ss)
    as [pre cur focus bg1 Hcore Hq H1 H2|cur focus base sent0 Hq H1 H2|H1 H2
       |He Hf|cb He Hf Hn0|cb He Hf Hn0|w He];
    try discriminate.
  - apply after_done in Hd. destruct Hd as [sent' [Hd ->]].
    apply with_background_done in Hd. destruct Hd as [bg' [Hd ->]]. simpl in *.
    destruct (draw_sets_flag E a bg1 bg' sent' Hd Hn) as [F1 [F2 _]].
    destruct Hcore as [_ [_ [Hfr _]]]. rewrite Hfr in F1, F2.
    split; [exact H1|]. split; [exact F2 | right; exact F1].
  - inversion Hd; subst. simpl in *.
    split; [exact H1|]. split; [reflexivity | left; exact Hn].
  - inversion Hd; subst. simpl in Hn. congruence.
  - apply after_done in Hd. destruct Hd as [sent' [Hd ->]].
    apply with_background_done in Hd. destruct Hd as [bg' [Hd ->]]. simpl in Hn.
    rewrite (draw_clears_flag E a (set_frame None (ss_background ss)) bg' sent'
               eq_refl Hd) in Hn. discriminate.
  - inversion Hd; subst. simpl in *.
    split; [discriminate|]. split; [reflexivity | left; exact Hn].
Qed.

Lemma run_flag E ss0 evs :
  bg_needs_draw (ss_background ss0) = false ->
  forall ss sent,
    run E evs ss0 = Done ss sent ->
    bg_needs_draw (ss_background ss) = true ->
    bg_frame (ss_background ss) <> None /\ requested_in_window E ss0 evs ss.
Proof.
  intro H0. induction evs as [|[ev a] evs IH] using rev_ind; intros ss sent Hr Hn.
  - simpl in Hr. inversion Hr; subst. congruence.
  - apply run_snoc_done in Hr.
    destruct Hr as [s1 [sent1 [sent2 [Hr1 [Hd _]]]]].
    destruct (dispatch_flag E ev a s1 ss sent2 Hd Hn) as [Hev [Hfr Hor]].
    destruct (bg_needs_draw (ss_background s1)) eqn:Hn1.
    + destruct (IH s1 sent1 Hr1 Hn1) as [Hf1 W].
      split; [rewrite Hfr; exact Hf1|].
      destruct W as [pre [e0 [a0 [post [t1 [u1 [t2 [u2 [Heq [R [N [F [D [N2 NF]]]]]]]]]]]]]].
      exists pre, e0, a0, (post ++ [(ev, a)]), t1, u1, t2, u2.
      split; [rewrite Heq, <- app_assoc; reflexivity|].
      split; [exact R|]. split; [exact N|]. split; [congruence|].
      split; [exact D|]. split; [exact N2|].
      intros e a' Hin. change ((e0, a0) :: post ++ [(ev, a)])
        with (((e0, a0) :: post) ++ [(ev, a)]) in Hin.
      apply in_app_or in Hin. destruct Hin as [Hin|[Hin|[]]].
      * apply (NF e a' Hin).
      * inversion Hin; subst. exact Hev.
    + destruct Hor as [Hor|Hor]; [discriminate|].
      split; [rewrite Hfr; exact Hor|].
      exists evs, ev, a, [], s1, sent1, ss, sent2.
      split; [reflexivity|]. split; [exact Hr1|]. split; [exact Hn1|].
      split; [symmetry; exact Hfr|]. split; [exact Hd|]. split; [exact Hn|].
      intros e a' [Hin|[]]. inversion Hin; subst. exact Hev.
Qed.

(** ** Scroll clamp *)

(** What a draw that is performed leaves in the fields of the clamp. *)
Lemma draw_scroll E a bg bg' sent :
  bg_frame bg = None -> draw_background E a bg = Done bg' sent ->
  bg_y_scroll bg'
  = clamp_y_scroll (max_y_scroll E (bg_height bg) (font_extents E)) (bg_y_scroll bg)
  /\ bg_height bg' = bg_height bg /\ bg_extents bg' = font_extents E.
Proof.
  intros Hf Hd.
  destruct (draw_background_case E a bg)
    as [cb Hf'|i buf Hf' Hi Hr|buf Hf' Hnone Hs Hbuf|msg Hf' Hnone Hs];
    inversion Hd; subst; try congruence; repeat split.
Qed.

Lemma scroll_bound_drawn E bg bg' :
  bg_height bg' = bg_height bg -> bg_extents bg' = font_extents E ->
  scroll_bound E bg' = max_y_scroll E (bg_height bg) (font_extents E).
Proof.
  unfold scroll_bound, total_height, visible_height, max_y_scroll.
  intros -> ->. reflexivity.
Qed.

Lemma draw_clamps E a bg bg' sent :
  bg_frame bg = None -> draw_background E a bg = Done bg' sent ->
  scroll_in_range E bg'
  /\ ((0 <? scroll_bound E bg')%float = false -> bg_y_scroll bg' = 0%float).
Proof.
  intros Hf Hd.
  destruct (draw_scroll E a bg bg' sent Hf Hd) as [Hy [Hh He]].
  pose proof (scroll_bound_drawn E bg bg' Hh He) as Hb.
  unfold scroll_in_range, scroll_limit. rewrite Hb, Hy.
  split; [apply clamp_y_scroll_range | apply clamp_y_scroll_zero].
Qed.

Lemma scroll_settled_ext E bg bg' :
  bg_y_scroll bg' = bg_y_scroll bg -> bg_height bg' = bg_height bg ->
  bg_extents bg' = bg_extents bg -> bg_needs_draw bg' = bg_needs_draw bg ->
  scroll_settled E bg -> scroll_settled E bg'.
Proof.
  unfold scroll_settled, scroll_in_range, scroll_limit, scroll_bound,
    total_height, visible_height.
  intros -> -> -> ->. tauto.
Qed.

Lemma dispatch_settled E ev a ss ss' sent :
  scroll_settled E (ss_background ss) ->
  dispatch E ev a ss = Done ss' sent ->
  scroll_settled E (ss_background ss').
Proof.
  intros Hin Hd.
  destruct (dispatch_is_case E ev a ss)
    as [pre cur focus bg1 Hcore Hq H1 H2|cur focus base sent0 Hq H1 H2|H1 H2
       |He Hf|cb He Hf Hn0|cb He Hf Hn0|w He];
    try discriminate.
  - apply after_done in Hd. destruct Hd as [sent' [Hd ->]].
    apply with_background_done in Hd. destruct Hd as [bg' [Hd ->]]. simpl.
    destruct (bg_frame bg1) as [cb|] eqn:Hf.
    + rewrite (draw_while_outstanding E a bg1 cb Hf) in Hd. inversion Hd; subst.
      intro Hn. discriminate Hn.
    + intros _. apply (draw_clamps E a bg1 bg' sent' Hf Hd).
  - inversion Hd; subst. simpl.
    apply (scroll_settled_ext E (ss_background ss)); try reflexivity. exact Hin.
  - inversion Hd; subst. simpl.
    apply (scroll_settled_ext E (ss_background ss)); try reflexivity. exact Hin.
  - apply after_done in Hd. destruct Hd as [sent' [Hd ->]].
    apply with_background_done in Hd. destruct Hd as [bg' [Hd ->]]. simpl.
    intros _.
    apply (draw_clamps E a (set_frame None (ss_background ss)) bg' sent' eq_refl Hd).
  - inversion Hd; subst. simpl.
    apply (scroll_settled_ext E (ss_background ss)); try reflexivity. exact Hin.
Qed.

Lemma run_settled E evs : forall ss ss' sent,
  scroll_settled E (ss_background ss) ->
  run E evs ss = Done ss' sent ->
  scroll_settled E (ss_background ss').
Proof.
  induction evs as [|[ev a] rest IH]; intros ss ss' sent Hs Hr; simpl in Hr.
  - inversion Hr; subst. exact Hs.
  - destruct (dispatch E ev a ss) as [s1 sent1|] eqn:Hd; [|discriminate].
    apply after_done in Hr. destruct Hr as [sent2 [Hr _]].
    apply (IH s1 ss' sent2); [|exact Hr].
    apply (dispatch_settled E ev a ss s1 sent1 Hs Hd).
Qed.

Lemma scroll_limit_nonneg E bg : (0 <=? scroll_limit E bg)%float = true.
Proof.
  unfold scroll_limit.
  destruct (0 <? scroll_bound E bg)%float eqn:H; [apply flt_fle; exact H | reflexivity].
Qed.

Lemma initial_settled E surface :
  scroll_settled E (ss_background (initial_session surface)).
Proof.
  intros _. split; [|reflexivity].
  split; [reflexivity|]. apply scroll_limit_nonneg.
Qed.

(** For a surface at least the two paddings high, the unsigned difference
    is the difference. *)
Lemma visible_height_plain bg :
  2 * MENU_PADDING <= bg_height bg < 2 ^ 32 ->
  visible_height bg = bg_height bg - 2 * MENU_PADDING.
Proof.
  intro H. unfold visible_height. change (MENU_PADDING * 2) with 20.
  change (2 * MENU_PADDING) with 20 in *. apply to_uint32_small. lia.
Qed.

(** ** Hit test *)

Lemma flt_nonzero (x : double) : (0 <? x)%float = true -> (x =? 0)%float = false.
Proof.
  rewrite FloatAxioms.ltb_spec, FloatAxioms.eqb_spec.
  change (Prim2SF 0) with (S754_zero false).
  destruct (Prim2SF x) as [s|s| |s m e]; try discriminate;
    destruct s; try discriminate; reflexivity.
Qed.

Lemma floor_nonneg (f : spec_float) (i : Z) :
  match f with
  | S754_infinity s | S754_finite s _ _ => s = false
  | _ => True
  end -> floor f = Some i -> 0 <= i.
Proof.
  destruct f as [s|s| |s m e]; unfold floor; intros Hs H; try discriminate.
  - inversion H. lia.
  - subst s.
    assert (Hi : (if 0 <=? e then Z.pos m * 2 ^ e else Z.pos m / 2 ^ (- e)) = i)
      by congruence.
    subst i. destruct (0 <=? e) eqn:He.
    + apply Z.leb_le in He. apply Z.mul_nonneg_nonneg; [lia|].
      apply Z.pow_nonneg. lia.
    + apply Z.leb_gt in He. apply Z.div_pos; [lia|].
      apply Z.pow_pos_nonneg; lia.
Qed.

Lemma SFdiv_sign (x y : double) :
  (0 <=? x)%float = true -> (0 <? y)%float = true ->
  match Prim2SF (x / y) with
  | S754_infinity s | S754_finite s _ _ => s = false
  | _ => True
  end.
Proof.
  rewrite FloatAxioms.leb_spec, FloatAxioms.ltb_spec, FloatAxioms.div_spec.
  change (Prim2SF 0) with (S754_zero false).
  intros Hx Hy.
  destruct (Prim2SF x) as [sx|sx| |sx mx ex], (Prim2SF y) as [sy|sy| |sy my ey];
    try discriminate Hx; try discriminate Hy;
    repeat match goal with s : bool |- _ => destruct s end;
    try discriminate Hx; try discriminate Hy; try exact I; try reflexivity.
  unfold SF64div, SFdiv.
  destruct (SFdiv_core_binary prec emax (Z.pos mx) ex (Z.pos my) ey) as [[mz ez] lz].
  pose proof (binary_round_aux_sign (xorb false false) mz ez lz) as S.
  destruct (binary_round_aux prec emax (xorb false false) mz ez lz);
    try exact I; exact S.
Qed.

(** The index the handler converts is the floor of the quotient, when that
    fits a [guint]; nothing else converts. *)
Lemma div_to_guint_floor (x y : double) :
  (0 <=? x)%float = true -> (0 <? y)%float = true ->
  div_to_guint x y
  = match floor (Prim2SF (x / y)) with
    | Some i => if i <? 2 ^ 32 then Some i else None
    | None => None
    end
  /\ (forall i, floor (Prim2SF (x / y)) = Some i -> 0 <= i).
Proof.
  intros Hx Hy. pose proof (SFdiv_sign x y Hx Hy) as Hs.
  unfold div_to_guint, double_to_guint.
  rewrite (truncate_floor _ Hs).
  split; [|intros i Hi; apply (floor_nonneg _ _ Hs Hi)].
  destruct (floor (Prim2SF (x / y))) as [i|] eqn:Hf; [|reflexivity].
  pose proof (floor_nonneg _ _ Hs Hf) as H0.
  apply Z.leb_le in H0. rewrite H0. reflexivity.
Qed.


(** A left-button release with a row height that is not zero, unfolded. *)
Lemma button_left_release E bg :
  (ext_height (bg_extents bg) =? 0)%float = false ->
  background_pointer_button E BTN_LEFT WL_POINTER_BUTTON_STATE_RELEASED bg =
  if (0 <=? menu_y bg)%float then
    match div_to_guint (menu_y bg) (ext_height (bg_extents bg)) with
    | Some idx =>
        match g_list_nth_data (application_list E) idx with
        | Some app => Done bg (launch_app E app)
        | None => Done bg []
        end
    | None => Fault []
    end
  else Done bg [].
Proof.
  intro Hh. unfold background_pointer_button. rewrite Hh. reflexivity.
Qed.


Lemma button_zero_height E button state bg :
  (ext_height (bg_extents bg) =? 0)%float = true ->
  background_pointer_button E button state bg = Done bg [].
Proof.
  intro H. unfold background_pointer_button.
  rewrite H, andb_false_r. reflexivity.
Qed.

Lemma launch_app_once E app :
  filter is_launch (launch_app E app) = [g_app_info_launch app].
Proof. unfold launch_app. destruct (launch_succeeds E app); reflexivity. Qed.

(** What a left-button release does, by the index. *)
Lemma click_by_index E bg :
  (0 <? ext_height (bg_extents bg))%float = true ->
  (0 <=? menu_y bg)%float = true ->
  match click_index bg with
  | None =>
      background_pointer_button E BTN_LEFT WL_POINTER_BUTTON_STATE_RELEASED bg
      = Fault []
  | Some i =>
      0 <= i
      /\ background_pointer_button E BTN_LEFT WL_POINTER_BUTTON_STATE_RELEASED bg
         = if i <? 2 ^ 32 then
             match g_list_nth_data (application_list E) i with
             | Some app => Done bg (launch_app E app)
             | None => Done bg []
             end
           else Fault []
  end.
Proof.
  intros Hh Hm.
  rewrite (button_left_release E bg (flt_nonzero _ Hh)), Hm.
  destruct (div_to_guint_floor _ _ Hm Hh) as [Hd H0]. rewrite Hd.
  unfold click_index, click_quotient.
  destruct (floor _) as [i|]; [|reflexivity].
  split; [apply H0; reflexivity|].
  destruct (i <? 2 ^ 32); reflexivity.
Qed.

(** ** Rows of the renderer *)

Lemma loop_y_succ ext : forall i y,
  loop_y ext y (S i) = (loop_y ext y i + ext_height ext)%float.
Proof.
  induction i as [|i IH]; intro y; [reflexivity|].
  change (loop_y ext y (S (S i))) with (loop_y ext (y + ext_height ext)%float (S i)).
  rewrite IH. reflexivity.
Qed.

Lemma draw_rows_at h cy ext : forall i apps y app,
  nth_error apps i = Some app ->
  draw_rows h cy ext y apps =
  draw_rows h cy ext y (firstn i apps)
  ++ draw_row h cy ext (loop_y ext y i) app
  ++ draw_rows h cy ext (loop_y ext y i + ext_height ext)%float (skipn (S i) apps).
Proof.
  induction i as [|i IH]; intros apps y app Hn; destruct apps as [|a0 rest];
    try discriminate.
  - simpl in Hn. inversion Hn; subst. reflexivity.
  - simpl in Hn. change (firstn (S i) (a0 :: rest)) with (a0 :: firstn i rest).
    change (skipn (S (S i)) (a0 :: rest)) with (skipn (S i) rest).
    simpl draw_rows. rewrite (IH rest _ app Hn), <- app_assoc.
    reflexivity.
Qed.

(** A row is the highlighted one exactly when it is visible and the
    cursor is above its top (strictly) and not below its bottom; with the
    pointer on the surface the row is visible then. *)
Lemma row_color_cyan h cy ext y :
  (row_color h cy ext y = Some cyan <->
   (0 <=? y + ext_height ext)%float = true /\ (y <=? double_of_Z h)%float = true
   /\ (y <? cy)%float = true /\ (cy <=? y + ext_height ext)%float = true)
  /\ ((0 <=? cy)%float = true -> (cy <=? double_of_Z h)%float = true ->
      (row_color h cy ext y = Some cyan <->
       (y <? cy)%float = true /\ (cy <=? y + ext_height ext)%float = true)).
Proof.
  assert (A : row_color h cy ext y = Some cyan <->
              (0 <=? y + ext_height ext)%float = true
              /\ (y <=? double_of_Z h)%float = true
              /\ (y <? cy)%float = true
              /\ (cy <=? y + ext_height ext)%float = true).
  { unfold row_color.
    destruct (0 <=? y + ext_height ext)%float, (y <=? double_of_Z h)%float,
      (y <? cy)%float, (cy <=? y + ext_height ext)%float; simpl;
      split; intro H; try discriminate; try reflexivity; try tauto;
      destruct H as [H1 [H2 [H3 H4]]]; discriminate. }
  split; [exact A|]. intros H0 H1. rewrite A. split; [tauto|].
  intros [L U]. split; [apply (fle_trans _ _ _ H0 U)|].
  split; [apply flt_fle, (flt_fle_trans _ _ _ L H1)|]. split; assumption.
Qed.

Lemma draw_row_cyan h cy ext y app :
  draw_row h cy ext y app
  = [show_text cyan (double_of_Z MENU_PADDING) (y + ext_ascent ext)%float (app_name app)]
  <-> row_color h cy ext y = Some cyan.
Proof.
  unfold draw_row. destruct (row_color h cy ext y) as [[]|]; split; intro H;
    try discriminate; try reflexivity.
Qed.

Lemma draw_paints E a bg0 bg sent :
  bg_frame bg0 = None -> draw_background E a bg0 = Done bg sent ->
  exists data,
    In (cairo_paint data
          (fill_rectangle (bg_width bg) (bg_height bg) grey
           :: select_font "sans-serif" 20 :: painted_menu E bg)) sent.
Proof.
  intros Hf Hd.
  destruct (draw_background_case E a bg0)
    as [cb Hf'|i buf Hf' Hi Hr|buf Hf' Hnone Hs Hbuf|msg Hf' Hnone Hs];
    inversion Hd; subst; try congruence.
  - exists (buf_data buf). apply in_or_app. right. left. reflexivity.
  - eexists. apply in_or_app. right. right. left. reflexivity.
Qed.

Lemma row_y_succ bg i :
  row_y bg (S i) = (row_y bg i + ext_height (bg_extents bg))%float.
Proof. unfold row_y. apply loop_y_succ. Qed.

Lemma painted_menu_at E bg i app :
  nth_error (application_list E) i = Some app ->
  painted_menu E bg =
  draw_rows (bg_height bg) (ds_cursor_y (bg_base bg)) (bg_extents bg)
    (double_of_Z MENU_PADDING - bg_y_scroll bg)%float (firstn i (application_list E))
  ++ draw_row (bg_height bg) (ds_cursor_y (bg_base bg)) (bg_extents bg)
       (row_y bg i) app
  ++ draw_rows (bg_height bg) (ds_cursor_y (bg_base bg)) (bg_extents bg)
       (row_y bg (S i)) (skipn (S i) (application_list E)).
Proof.
  intro H. rewrite row_y_succ. unfold painted_menu, row_y.
  apply draw_rows_at. exact H.
Qed.

Lemma highlighted_iff bg i app :
  (0 <=? ds_cursor_y (bg_base bg))%float = true ->
  (ds_cursor_y (bg_base bg) <=? double_of_Z (bg_height bg))%float = true ->
  highlighted bg (row_y bg i) app <->
  (row_y bg i <? ds_cursor_y (bg_base bg))%float = true
  /\ (ds_cursor_y (bg_base bg) <=? row_y bg (S i))%float = true.
Proof.
  intros H0 H1. unfold highlighted. rewrite draw_row_cyan, row_y_succ.
  apply row_color_cyan; assumption.
Qed.

(** With the cursor on the top of the next row, the row above is the
    highlighted one. *)
Lemma highlighted_above bg i app :
  (0 <=? ds_cursor_y (bg_base bg))%float = true ->
  (ds_cursor_y (bg_base bg) <=? double_of_Z (bg_height bg))%float = true ->
  ds_cursor_y (bg_base bg) = row_y bg (S i) ->
  (row_y bg i <? row_y bg (S i))%float = true ->
  highlighted bg (row_y bg i) app
  /\ (forall next, ~ highlighted bg (row_y bg (S i)) next).
Proof.
  intros H0 H1 Hc Hlt. split.
  - apply highlighted_iff; try assumption. rewrite Hc.
    split; [exact Hlt|]. apply fle_refl. apply (flt_not_nan _ _ Hlt).
  - intros next Hn. apply highlighted_iff in Hn; try assumption.
    destruct Hn as [Hn _]. rewrite Hc, flt_irrefl in Hn. discriminate.
Qed.

(** ** [strcmp] is a total preorder *)

Lemma byte_at_nonneg s : 0 <= byte_at s.
Proof. destruct s; simpl; lia. Qed.

Lemma strcmp_refl a : strcmp a a = 0.
Proof.
  induction a as [|c a IH]; simpl; [reflexivity|].
  split_eqb; lia.
Qed.

Lemma strcmp_antisym a : forall b, strcmp b a = - strcmp a b.
Proof.
  induction a as [|c a IH]; intros [|d b]; simpl; try lia.
  split_eqb; try lia. apply IH.
Qed.

Lemma strcmp_trans a : forall b c,
  strcmp a b <= 0 -> strcmp b c <= 0 -> strcmp a c <= 0.
Proof.
  induction a as [|x a IH]; intros [|y b] [|z c]; simpl; intros H1 H2;
    try lia; split_eqb; try lia.
  apply (IH b c); assumption.
Qed.

Lemma strcmp_eq_trans a b c :
  strcmp a b = 0 -> strcmp b c = 0 -> strcmp a c = 0.
Proof.
  intros H1 H2.
  assert (strcmp a c <= 0) by (apply (strcmp_trans a b c); lia).
  assert (strcmp c a <= 0).
  { apply (strcmp_trans c b a); rewrite strcmp_antisym; lia. }
  rewrite (strcmp_antisym a c) in *. lia.
Qed.

Lemma name_le_trans a b c : name_le a b -> name_le b c -> name_le a c.
Proof. unfold name_le, sort_apps, g_strcmp0. apply strcmp_trans. Qed.

(** ** [g_list_insert_sorted] *)

(** Where the new node lands: after a run of elements it is greater than,
    before everything else. *)
Lemma insert_sorted_split {A} (func : A -> A -> Z) (l : list A) (data : A) :
  exists l1 l2,
    l = l1 ++ l2
    /\ g_list_insert_sorted l data func = l1 ++ data :: l2
    /\ (forall x, In x l1 -> 0 < func data x)
    /\ (match l2 with [] => True | x :: _ => func data x <= 0 end).
Proof.
  induction l as [|x r IH]; simpl.
  - exists [], []. repeat split. intros x [].
  - destruct (0 <? func data x) eqn:C.
    + apply Z.ltb_lt in C.
      destruct IH as [l1 [l2 [E1 [E2 [H1 H2]]]]].
      exists (x :: l1), l2. simpl. rewrite E2, <- E1.
      repeat split; [|exact H2].
      intros y [<-|Hy]; [exact C | apply H1; exact Hy].
    + apply Z.ltb_ge in C.
      exists [], (x :: r). repeat split; [|exact C]. intros y [].
Qed.

Lemma insert_sorted_perm {A} (func : A -> A -> Z) (l : list A) (data : A) :
  Permutation (data :: l) (g_list_insert_sorted l data func).
Proof.
  destruct (insert_sorted_split func l data) as [l1 [l2 [E1 [E2 _]]]].
  rewrite E2, E1. apply Permutation_middle.
Qed.

Lemma insert_sorted_sorted (l : list app) (a : app) :
  Sorted name_le l -> Sorted name_le (g_list_insert_sorted l a sort_apps).
Proof.
  induction l as [|x r IH]; simpl; intro Hs.
  - constructor; constructor.
  - destruct (0 <? sort_apps a x) eqn:C.
    + apply Z.ltb_lt in C.
      inversion Hs as [|? ? Hr Hhd]; subst.
      constructor; [apply IH; exact Hr|].
      assert (Hxa : name_le x a).
      { unfold name_le, sort_apps, g_strcmp0 in *.
        rewrite strcmp_antisym. lia. }
      destruct r as [|y r']; simpl.
      * constructor. exact Hxa.
      * destruct (0 <? sort_apps a y); constructor; [|exact Hxa].
        inversion Hhd; subst. assumption.
    + apply Z.ltb_ge in C. constructor; [exact Hs|]. constructor. exact C.
Qed.

Lemma insert_sorted_ties (l : list app) (a : app) (n : string) :
  filter (same_name n) (g_list_insert_sorted l a sort_apps) =
  if same_name n a then a :: filter (same_name n) l else filter (same_name n) l.
Proof.
  destruct (insert_sorted_split sort_apps l a) as [l1 [l2 [E1 [E2 [H1 _]]]]].
  rewrite E2, E1, !filter_app. simpl.
  destruct (same_name n a) eqn:Ha; [|reflexivity].
  assert (Hnil : filter (same_name n) l1 = []).
  { clear E1 E2. induction l1 as [|x r IH]; [reflexivity|]. simpl.
    destruct (same_name n x) eqn:Hx.
    - exfalso. unfold same_name in Ha, Hx. apply Z.eqb_eq in Ha, Hx.
      assert (Hax : strcmp (app_name a) (app_name x) = 0).
      { apply (strcmp_eq_trans _ n _); [exact Ha|].
        rewrite strcmp_antisym. lia. }
      specialize (H1 x (or_introl eq_refl)).
      unfold sort_apps, g_strcmp0 in H1. lia.
    - apply IH. intros y Hy. apply H1. right. exact Hy. }
  rewrite Hnil. reflexivity.
Qed.

(** ** The loop of [main] *)

Lemma fold_sorted all : forall acc,
  Sorted name_le acc -> Sorted name_le (fold_left add_app all acc).
Proof.
  induction all as [|a rest IH]; intros acc Hs; simpl; [exact Hs|].
  apply IH. unfold add_app. destruct (app_should_show a); [|exact Hs].
  apply insert_sorted_sorted. exact Hs.
Qed.

Lemma fold_perm all : forall acc,
  Permutation (filter app_should_show all ++ acc) (fold_left add_app all acc).
Proof.
  induction all as [|a rest IH]; intros acc; simpl; [reflexivity|].
  unfold add_app at 2. destruct (app_should_show a).
  - rewrite <- IH. simpl.
    rewrite <- (insert_sorted_perm sort_apps acc a).
    apply Permutation_middle.
  - apply IH.
Qed.

Lemma fold_ties n all : forall acc,
  filter (same_name n) (fold_left add_app all acc) =
  rev (filter (same_name n) (filter app_should_show all))
  ++ filter (same_name n) acc.
Proof.
  induction all as [|a rest IH]; intros acc; simpl; [reflexivity|].
  rewrite IH. unfold add_app. destruct (app_should_show a); [|reflexivity].
  rewrite insert_sorted_ties. simpl.
  destruct (same_name n a); [|reflexivity].
  simpl. rewrite <- app_assoc. reflexivity.
Qed.
(** ** The buffer a draw paints and attaches *)

Lemma paint_not_in_frees data ops l : ~ In (cairo_paint data ops) (map free_buffer l).
Proof.
  intro H. apply in_map_iff in H. destruct H as [x [Hx _]]. discriminate.
Qed.

Lemma create_not_in_frees b l : ~ In (wl_shm_pool_create_buffer b) (map free_buffer l).
Proof.
  intro H. apply in_map_iff in H. destruct H as [x [Hx _]]. discriminate.
Qed.

(** What a draw paints into is the mapping of the buffer it attaches. *)
Lemma draw_paint_target E a bg data ops :
  In (cairo_paint data ops) (sent_of (draw_background E a bg)) ->
  exists x,
    data = buf_data x
    /\ In (wl_surface_attach (bg_surface bg) x) (sent_of (draw_background E a bg)).
Proof.
  destruct (draw_background_case E a bg)
    as [cb Hf|i buf Hf Hn Hr|buf Hf Hnone Hs Hbuf|msg Hf Hnone Hs];
    simpl; intro H.
  - contradiction.
  - apply in_app_or in H. destruct H as [H|H]; [destruct (paint_not_in_frees _ _ _ H)|].
    simpl in H.
    destruct H as [H|[H|[H|[H|[H|[]]]]]]; try discriminate.
    inversion H; subst. exists buf. split; [reflexivity|].
    apply in_or_app. right. right. left. reflexivity.
  - apply in_app_or in H. destruct H as [H|H]; [destruct (paint_not_in_frees _ _ _ H)|].
    simpl in H.
    destruct H as [H|[H|[H|[H|[H|[H|[]]]]]]]; try discriminate.
    inversion H; subst data ops. exists buf. split; [reflexivity|].
    apply in_or_app. right. right. right. left. reflexivity.
  - apply in_app_or in H. destruct H as [H|H]; [destruct (paint_not_in_frees _ _ _ H)|].
    simpl in H. intuition discriminate.
Qed.

(** The buffer a draw creates has the handles the system answered with. *)
Lemma draw_creates E a bg x :
  In (wl_shm_pool_create_buffer x) (sent_of (draw_background E a bg)) ->
  buf_data x = al_data a /\ buf_buffer x = al_wl_buffer a /\ buf_busy x = false.
Proof.
  destruct (draw_background_case E a bg)
    as [cb Hf|i buf Hf Hn Hr|buf Hf Hnone Hs Hbuf|msg Hf Hnone Hs];
    simpl; intro H.
  - contradiction.
  - apply in_app_or in H. destruct H as [H|H]; [destruct (create_not_in_frees _ _ H)|].
    simpl in H. intuition discriminate.
  - apply in_app_or in H. destruct H as [H|H]; [destruct (create_not_in_frees _ _ H)|].
    simpl in H.
    destruct H as [H|[H|[H|[H|[H|[H|[]]]]]]]; try discriminate.
    inversion H; subst x. rewrite Hbuf. repeat split.
  - apply in_app_or in H. destruct H as [H|H]; [destruct (create_not_in_frees _ _ H)|].
    simpl in H. intuition discriminate.
Qed.

(** The attached buffer is in the pool afterwards with its flag set. *)
Lemma draw_sets_busy E a bg bg' sent s x :
  draw_background E a bg = Done bg' sent ->
  In (wl_surface_attach s x) sent ->
  exists y, In y (bg_buffers bg') /\ buf_busy y = true /\ same_but_busy x y.
Proof.
  intros Hd H. exists (set_busy true x).
  split; [apply (draw_marks_busy E a bg bg' sent s x Hd H)|].
  split; [reflexivity | repeat split].
Qed.

Lemma release_clears w pool y :
  In y (buffer_release w pool) -> buf_buffer y = w -> buf_busy y = false.
Proof.
  unfold buffer_release. intros H Hw. apply in_map_iff in H.
  destruct H as [x [Hx _]].
  destruct (Nat.eqb (buf_buffer x) w) eqn:He.
  - subst y. reflexivity.
  - subst y. apply Nat.eqb_neq in He. contradiction.
Qed.

Lemma release_keeps w pool b :
  In b pool -> buf_buffer b = w ->
  exists y, In y (buffer_release w pool) /\ buf_busy y = false /\ same_but_busy b y.
Proof.
  intros Hin Hw. exists (set_busy false b). split.
  - unfold buffer_release. apply in_map_iff. exists b. split; [|exact Hin].
    rewrite Hw, Nat.eqb_refl. reflexivity.
  - split; [reflexivity | repeat split].
Qed.

Lemma distinct_handles_NoDup l : distinct_handles l = true -> NoDup l.
Proof.
  induction l as [|x r IH]; simpl; intro H; [constructor|].
  apply andb_true_iff in H. destruct H as [Hx Hr].
  constructor; [|apply IH; exact Hr].
  intro Hin. apply negb_true_iff in Hx.
  assert (Ht : existsb (Nat.eqb x) r = true).
  { apply existsb_exists. exists x. split; [exact Hin | apply Nat.eqb_refl]. }
  congruence.
Qed.

Lemma same_image_same_element {A B} (f : A -> B) (l : list A) (x y : A) :
  NoDup (map f l) -> In x l -> In y l -> f x = f y -> x = y.
Proof.
  induction l as [|z r IH]; simpl; intros Hnd Hx Hy Hf; [contradiction|].
  inversion Hnd as [|? ? Hz Hr]; subst.
  destruct Hx as [<-|Hx], Hy as [<-|Hy]; try reflexivity.
  - exfalso. apply Hz. rewrite Hf. apply in_map. exact Hy.
  - exfalso. apply Hz. rewrite <- Hf. apply in_map. exact Hx.
  - apply IH; assumption.
Qed.

(** A draw does not paint into the mapping of a busy buffer. *)
Lemma draw_spares_busy_mapping E a bg b ops :
  mappings_distinct a (bg_buffers bg) = true ->
  In b (bg_buffers bg) -> buf_busy b = true ->
  ~ In (cairo_paint (buf_data b) ops) (sent_of (draw_background E a bg)).
Proof.
  intros Hd Hin Hb Hp.
  apply distinct_handles_NoDup in Hd. inversion Hd as [|? ? Hfresh Hnd]; subst.
  destruct (draw_paint_target E a bg _ _ Hp) as [x [Hx Ha]].
  destruct (draw_attaches E a bg _ _ Ha) as [Hidle [_ [Hpool|Hnew]]].
  - assert (x = b)
      by (apply (same_image_same_element buf_data (bg_buffers bg)); auto).
    congruence.
  - destruct (draw_creates E a bg x Hnew) as [Hdata _].
    apply Hfresh. rewrite <- Hdata, <- Hx. apply in_map. exact Hin.
Qed.

Lemma quiet_not_paint data ops l : forallb quiet l = true -> ~ In (cairo_paint data ops) l.
Proof.
  intros Hq Hin. rewrite forallb_forall in Hq. apply Hq in Hin. discriminate.
Qed.

(** No event paints into the mapping of a busy buffer. *)
Lemma dispatch_spares_busy_mapping E ev a ss b ops :
  mappings_distinct a (bg_buffers (ss_background ss)) = true ->
  In b (bg_buffers (ss_background ss)) -> buf_busy b = true ->
  ~ In (cairo_paint (buf_data b) ops) (sent_of (dispatch E ev a ss)).
Proof.
  intros Hd Hin Hb.
  destruct (dispatch_is_case E ev a ss)
    as [pre cur focus bg1 Hc Hq H1 H2|cur focus base sent Hq H1 H2|H1 H2
       |He Hf|cb He Hf Hn|cb He Hf Hn|w He].
  - destruct Hc as [_ [Hbuf _]].
    rewrite sent_of_after, sent_of_with_background. intro H.
    apply in_app_or in H. destruct H as [H|H]; [exact (quiet_not_paint _ _ _ Hq H)|].
    revert H. apply draw_spares_busy_mapping; try rewrite Hbuf; assumption.
  - simpl. apply quiet_not_paint. exact Hq.
  - simpl. tauto.
  - simpl. tauto.
  - simpl. intuition discriminate.
  - rewrite sent_of_after, sent_of_with_background. intro H.
    apply in_app_or in H. destruct H as [H|H]; [simpl in H; intuition discriminate|].
    revert H. apply draw_spares_busy_mapping; assumption.
  - simpl. tauto.
Qed.

(** ** Requests through the router *)

(** An event that asks for a redraw while a callback is outstanding draws
    nothing and leaves the flag set. *)
Lemma dispatch_asks_gated E ev a ss cb :
  asks_redraw ev ss = true -> bg_frame (ss_background ss) = Some cb ->
  exists ss' sent,
    dispatch E ev a ss = Done ss' sent
    /\ draws sent = 0%nat
    /\ bg_needs_draw (ss_background ss') = true
    /\ bg_frame (ss_background ss') = Some cb.
Proof.
  intros Ha Hf.
  assert (G : forall bg1 pre cur focus,
             bg_frame bg1 = Some cb -> forallb quiet pre = true ->
             exists ss' sent,
               after pre (with_background cur focus (draw_background E a bg1))
               = Done ss' sent
               /\ draws sent = 0%nat
               /\ bg_needs_draw (ss_background ss') = true
               /\ bg_frame (ss_background ss') = Some cb).
  { intros bg1 pre cur focus Hf1 Hq.
    rewrite (draw_while_outstanding E a bg1 cb Hf1). simpl.
    eexists; eexists. split; [reflexivity|].
    split; [rewrite app_nil_r; apply quiet_draws, Hq|].
    split; [reflexivity | exact Hf1]. }
  assert (G0 : forall bg1 cur focus,
             bg_frame bg1 = Some cb ->
             exists ss' sent,
               with_background cur focus (draw_background E a bg1) = Done ss' sent
               /\ draws sent = 0%nat
               /\ bg_needs_draw (ss_background ss') = true
               /\ bg_frame (ss_background ss') = Some cb).
  { intros bg1 cur focus Hf1.
    destruct (G bg1 [] cur focus Hf1 eq_refl) as [ss' [sent H]].
    rewrite after_nil in H. exists ss', sent. exact H. }
  destruct ev; simpl in Ha; try discriminate; simpl.
  - unfold desktop_shell_configure.
    destruct (ds_configure _) as [[]|]; [|discriminate].
    apply G0. exact Hf.
  - unfold pointer_enter.
    destruct (match ds_cursor _ with Some _ => _ | None => _ end) as [cur sent] eqn:Hc.
    assert (Hq : forallb quiet sent = true).
    { destruct (ds_cursor _).
      - pose proof (set_cursor_quiet E s serial (current_cursor ss)) as Q.
        rewrite Hc in Q. exact Q.
      - inversion Hc. reflexivity. }
    destruct (ds_on_cursor_enter _) as [f|]; [|discriminate].
    replace (call_seat_fn E a f) with (draw_background E a) by (destruct f; reflexivity).
    apply G; [exact Hf | exact Hq].
  - unfold pointer_leave.
    destruct (ds_on_cursor_leave _) as [f|]; [|discriminate].
    replace (call_seat_fn E a f) with (draw_background E a) by (destruct f; reflexivity).
    apply G0. exact Hf.
  - unfold pointer_motion.
    destruct (seat_pointer_surface ss) as [s|]; [|discriminate].
    destruct (ds_on_cursor_motion _) as [f|]; [|discriminate].
    replace (call_seat_fn E a f) with (draw_background E a) by (destruct f; reflexivity).
    apply G0. exact Hf.
  - unfold pointer_axis.
    destruct (seat_pointer_surface ss) as [s|]; [|discriminate].
    destruct (ds_on_pointer_axis _) as [[]|]; [|discriminate].
    unfold background_pointer_axis. simpl in Ha. rewrite Ha.
    apply G0. exact Hf.
  - unfold pointer_frame.
    destruct (seat_pointer_surface ss) as [s|]; [|discriminate].
    destruct (ds_on_pointer_frame _) as [f|]; [|discriminate].
    replace (call_seat_fn E a f) with (draw_background E a) by (destruct f; reflexivity).
    apply G0. exact Hf.
Qed.

Lemma flt_zero_not_fle (x : double) :
  (x <? 0)%float = true -> (0 <=? x)%float = false.
Proof.
  rewrite FloatAxioms.ltb_spec, FloatAxioms.leb_spec.
  change (Prim2SF 0) with (S754_zero false).
  destruct (Prim2SF x) as [s|s| |s m e]; try discriminate;
    destruct s; try discriminate; reflexivity.
Qed.

(** ** The sign of a difference *)

Lemma digits2_pos_bounds (m : positive) :
  2 ^ (Z.pos (digits2_pos m) - 1) <= Z.pos m < 2 ^ Z.pos (digits2_pos m).
Proof.
  induction m as [m IH|m IH|]; simpl digits2_pos.
  - rewrite Pos2Z.inj_succ.
    replace (Z.succ (Z.pos (digits2_pos m)) - 1) with (Z.succ (Z.pos (digits2_pos m) - 1)) by lia.
    rewrite !Z.pow_succ_r by lia. lia.
  - rewrite Pos2Z.inj_succ.
    replace (Z.succ (Z.pos (digits2_pos m)) - 1) with (Z.succ (Z.pos (digits2_pos m) - 1)) by lia.
    rewrite !Z.pow_succ_r by lia. lia.
  - simpl. lia.
Qed.

(** The mantissa of a valid finite double is below 2^53, and at least 2^52
    above the least exponent. *)
Lemma valid_mantissa (s : bool) (m : positive) (e : Z) :
  valid_binary (S754_finite s m e) = true ->
  emin <= e /\ Z.pos m < 2 ^ prec /\ (emin < e -> 2 ^ (prec - 1) <= Z.pos m).
Proof.
  unfold SpecFloat.valid_binary, bounded, canonical_mantissa, fexp.
  intro H. apply andb_true_iff in H. destruct H as [H _].
  apply Z.eqb_eq in H.
  pose proof (digits2_pos_bounds m) as [L U].
  set (d := Z.pos (digits2_pos m)) in *.
  assert (Hd : 0 < d) by (unfold d; lia).
  change (IntDef.Z.max (d + e - prec) emin = e) in H.
  assert (Hmax : Z.max (d + e - prec) emin = e) by exact H.
  split; [lia|]. split.
  - eapply Z.lt_le_trans; [exact U|]. apply Z.pow_le_mono_r; lia.
  - intro He. assert (d = prec) by lia. subst d. rewrite <- H0. exact L.
Qed.

Lemma shl_align_value (m : positive) (e e' : Z) :
  e' <= e -> Z.pos (fst (shl_align m e e')) = Z.pos m * 2 ^ (e - e').
Proof.
  intro H. unfold shl_align.
  destruct (e' - e) as [|d|d] eqn:Hd; try lia.
  - replace (e - e') with 0 by lia. simpl fst. lia.
  - simpl fst. change (Pos.iter xO m d) with (shift_pos d m).
    rewrite shift_pos_correct, Z.pow_pos_fold.
    replace (e - e') with (Z.pos d) by lia. lia.
Qed.

Lemma binary_round_sign s m e :
  match binary_round prec emax s m e with
  | S754_zero s' | S754_infinity s' | S754_finite s' _ _ => s' = s
  | S754_nan => True
  end.
Proof.
  unfold binary_round.
  destruct (shl_align m e _) as [mz ez]. apply binary_round_aux_sign.
Qed.

Lemma binary_normalize_not_positive (d e : Z) :
  d <= 0 -> SFltb (S754_zero false) (binary_normalize prec emax d e false) = false.
Proof.
  intro H. destruct d as [|p|p]; try lia; simpl; [reflexivity|].
  pose proof (binary_round_sign true p e) as S.
  destruct (binary_round prec emax true p e); try subst; reflexivity.
Qed.

(** The difference of two doubles, the first not above the second, is not
    positive. *)
Lemma SFsub_not_positive (x y : spec_float) :
  valid_binary x = true -> valid_binary y = true ->
  SFleb x y = true -> SFltb (S754_zero false) (SF64sub x y) = false.
Proof.
  intros Vx Vy Hle. unfold SF64sub.
  destruct x as [sx|sx| |sx mx ex], y as [sy|sy| |sy my ey];
    try discriminate Hle;
    try (destruct sx, sy; try discriminate Hle; reflexivity);
    try (destruct sx; try discriminate Hle; reflexivity);
    try (destruct sy; try discriminate Hle; reflexivity).
  unfold SFsub.
  apply binary_normalize_not_positive.
  destruct (valid_mantissa _ _ _ Vx) as [Ex [Ux Lx]].
  destruct (valid_mantissa _ _ _ Vy) as [Ey [Uy Ly]].
  change (IntDef.Z.min ex ey) with (Z.min ex ey).
  rewrite !shl_align_value by lia.
  unfold SFleb, SFcompare in Hle.
  change (Pos.compare_cont Eq mx my) with (Pos.compare mx my) in Hle.
  assert (P : forall k, 0 < k -> 2 * 2 ^ (prec - 1) <= 2 ^ (prec - 1) * 2 ^ k).
  { intros k Hk. rewrite (Z.mul_comm 2).
    apply Z.mul_le_mono_nonneg_l; [apply Z.pow_nonneg; lia|].
    change 2 with (2 ^ 1) at 1. apply Z.pow_le_mono_r; lia. }
  assert (Q2 : 2 ^ prec = 2 * 2 ^ (prec - 1)) by reflexivity.
  destruct sx, sy; unfold cond_Zopp; try discriminate Hle.
  - (* both negative: the first is the larger in absolute value *)
    destruct (Z.compare_spec ex ey) as [He|He|He]; try discriminate Hle.
    + subst ey. rewrite Z.min_id, Z.sub_diag, !Z.mul_1_r.
      destruct (Pos.compare_spec mx my) as [Hm|Hm|Hm]; try discriminate Hle; lia.
    + rewrite Z.min_r by lia. rewrite Z.sub_diag, Z.mul_1_r.
      specialize (Lx ltac:(lia)). specialize (P (ex - ey) ltac:(lia)).
      assert (2 ^ (prec - 1) * 2 ^ (ex - ey) <= Z.pos mx * 2 ^ (ex - ey)).
      { apply Z.mul_le_mono_nonneg_r; [apply Z.pow_nonneg; lia | exact Lx]. }
      lia.
  - assert (0 < 2 ^ (ex - Z.min ex ey)) by (apply Z.pow_pos_nonneg; lia).
    assert (0 < 2 ^ (ey - Z.min ex ey)) by (apply Z.pow_pos_nonneg; lia).
    nia.
  - destruct (Z.compare_spec ex ey) as [He|He|He]; try discriminate Hle.
    + subst ey. rewrite Z.min_id, Z.sub_diag, !Z.mul_1_r.
      destruct (Pos.compare_spec mx my) as [Hm|Hm|Hm]; try discriminate Hle; lia.
    + rewrite Z.min_l by lia. rewrite Z.sub_diag, Z.mul_1_r.
      specialize (Ly ltac:(lia)). specialize (P (ey - ex) ltac:(lia)).
      assert (2 ^ (prec - 1) * 2 ^ (ey - ex) <= Z.pos my * 2 ^ (ey - ex)).
      { apply Z.mul_le_mono_nonneg_r; [apply Z.pow_nonneg; lia | exact Ly]. }
      lia.
Qed.

Lemma fsub_not_positive (x y : double) :
  (x <=? y)%float = true -> (0 <? x - y)%float = false.
Proof.
  rewrite FloatAxioms.leb_spec, FloatAxioms.ltb_spec, FloatAxioms.sub_spec.
  change (Prim2SF 0) with (S754_zero false).
  apply SFsub_not_positive; apply Prim2SF_valid.
Qed.
(** * Claims *)

(** C1.  A buffer of the pool whose busy flag is set is never freed, never
    attached and never painted into, whatever event arrives, and it stays
    in the pool as it is unless the event is its own release, which clears
    the flag and nothing else.  [draw_background] frees only pool buffers
    that are not busy and whose width, height or stride differs from the
    surface's; it attaches only a buffer that is not busy and matches all
    three, taken from the pool or just created; what it paints into is the
    mapping of the buffer it attaches; and the attached buffer is in the
    pool afterwards with its busy flag set. *)
Theorem busy_buffer_never_freed_or_reused
  (E : env) (ev : event) (a : alloc) (ss : session) (b : buffer) :
  In b (bg_buffers (ss_background ss)) -> buf_busy b = true ->
  (~ In (free_buffer b) (sent_of (dispatch E ev a ss))
   /\ (forall s, ~ In (wl_surface_attach s b) (sent_of (dispatch E ev a ss)))
   /\ (mappings_distinct a (bg_buffers (ss_background ss)) = true ->
       forall ops,
         ~ In (cairo_paint (buf_data b) ops) (sent_of (dispatch E ev a ss)))
   /\ (forall ss' sent,
         dispatch E ev a ss = Done ss' sent ->
         ev <> ev_buffer_release (buf_buffer b) ->
         In b (bg_buffers (ss_background ss'))))
  /\ (exists ss',
        dispatch E (ev_buffer_release (buf_buffer b)) a ss = Done ss' []
        /\ (forall y, In y (bg_buffers (ss_background ss')) ->
                      buf_buffer y = buf_buffer b -> buf_busy y = false)
        /\ (exists y, In y (bg_buffers (ss_background ss'))
                      /\ buf_busy y = false /\ same_but_busy b y))
  /\ (forall bg x,
        In (free_buffer x) (sent_of (draw_background E a bg)) ->
        In x (bg_buffers bg) /\ buf_busy x = false /\ ~ fits E bg x)
  /\ (forall bg s x,
        In (wl_surface_attach s x) (sent_of (draw_background E a bg)) ->
        buf_busy x = false /\ fits E bg x
        /\ (In x (bg_buffers bg)
            \/ In (wl_shm_pool_create_buffer x) (sent_of (draw_background E a bg))))
  /\ (forall bg data ops,
        In (cairo_paint data ops) (sent_of (draw_background E a bg)) ->
        exists x,
          data = buf_data x
          /\ In (wl_surface_attach (bg_surface bg) x)
                (sent_of (draw_background E a bg)))
  /\ (forall bg bg' sent s x,
        draw_background E a bg = Done bg' sent ->
        In (wl_surface_attach s x) sent ->
        exists y, In y (bg_buffers bg') /\ buf_busy y = true /\ same_but_busy x y).
Proof.
  intros Hin Hb.
  destruct (dispatch_busy E ev a ss b Hin Hb) as [A [B C]].
  split.
  { split; [exact A|]. split; [exact B|]. split; [|exact C].
    intros Hd ops. apply dispatch_spares_busy_mapping; assumption. }
  split.
  { eexists. split; [reflexivity|]. simpl. split.
    - intros y. apply release_clears.
    - apply release_keeps; [exact Hin | reflexivity]. }
  split; [intros bg x; apply draw_frees|].
  split; [intros bg s x; apply draw_attaches|].
  split; [intros bg data ops; apply draw_paint_target|].
  intros bg bg' sent s x. apply draw_sets_busy.
Qed.

(** A resize to 1024x768 while the 800x600 buffer is busy: the buffer is
    not freed, its mapping is not painted into, and it is still in the pool
    after the draw. *)
Lemma busy_buffer_witness :
  ~ In (free_buffer sample_busy)
       (sent_of (dispatch sample_env (ev_configure 1024 768) (sample_alloc 5)
                   sample_resized))
  /\ (forall ops,
        ~ In (cairo_paint (buf_data sample_busy) ops)
             (sent_of (dispatch sample_env (ev_configure 1024 768) (sample_alloc 5)
                         sample_resized)))
  /\ In sample_busy
        (bg_buffers (ss_background
           (match dispatch sample_env (ev_configure 1024 768) (sample_alloc 5)
                    sample_resized with
            | Done ss' _ => ss'
            | Fault _ => sample_resized
            end))).
Proof.
  destruct (busy_buffer_never_freed_or_reused sample_env (ev_configure 1024 768)
              (sample_alloc 5) sample_resized sample_busy
              (or_introl eq_refl) eq_refl) as [[A [_ [P C]]] _].
  split; [exact A|]. split; [exact (P eq_refl)|].
  destruct (dispatch sample_env (ev_configure 1024 768) (sample_alloc 5)
              sample_resized) as [ss' sent|sent] eqn:Hd.
  - apply (C ss' sent eq_refl). discriminate.
  - left. reflexivity.
Defined.

(** C2.  Along any sequence of events the number of frame callbacks
    requested and not yet destroyed never leaves 0..1.  A call of
    [draw_background] while a callback is outstanding draws nothing and
    leaves [needs_draw] set, the callback and everything else as they were;
    a call while none is outstanding draws exactly once at once (given the
    buffer).  An event that asks for a redraw while a callback is
    outstanding, whatever follows it short of the frame completion, leaves
    nothing drawn, the callback outstanding and the flag set; the frame
    completion then draws exactly once, clears the flag and leaves the
    callback of that draw outstanding. *)
Theorem frame_throttle (E : env) (evs : list (event * alloc)) (ss : session) :
  throttled (pending (ss_background ss)) (sent_of (run E evs ss))
  /\ (forall ss' sent,
        run E evs ss = Done ss' sent ->
        outstanding (pending (ss_background ss)) sent = pending (ss_background ss'))
  /\ (forall a bg cb,
        bg_frame bg = Some cb ->
        exists bg',
          draw_background E a bg = Done bg' []
          /\ bg_needs_draw bg' = true /\ bg_frame bg' = Some cb
          /\ bg' = set_needs_draw true bg)
  /\ (forall a bg,
        bg_frame bg = None -> can_allocate E a bg = true ->
        exists bg' sent,
          draw_background E a bg = Done bg' sent /\ draws sent = 1%nat
          /\ bg_frame bg' = Some (al_callback a) /\ bg_needs_draw bg' = false)
  /\ (forall cb ev a0 ss' sent a,
        bg_frame (ss_background ss) = Some cb ->
        asks_redraw ev ss = true ->
        no_frame_done evs ->
        run E ((ev, a0) :: evs) ss = Done ss' sent ->
        can_allocate E a (ss_background ss') = true ->
        draws sent = 0%nat
        /\ bg_frame (ss_background ss') = Some cb
        /\ bg_needs_draw (ss_background ss') = true
        /\ exists ss'' sent'',
             dispatch E ev_frame_done a ss' = Done ss'' sent''
             /\ draws sent'' = 1%nat
             /\ bg_needs_draw (ss_background ss'') = false
             /\ bg_frame (ss_background ss'') = Some (al_callback a)).
Proof.
  destruct (run_throttled E evs ss) as [A B].
  split; [exact A|]. split; [exact B|].
  split.
  { intros a bg cb Hf. exists (set_needs_draw true bg).
    split; [apply (draw_while_outstanding E a bg cb Hf)|].
    split; [reflexivity|]. split; [exact Hf | reflexivity]. }
  split; [intros a bg; apply draw_while_idle|].
  intros cb ev a0 ss' sent a Hf Ha Hno Hr Hs.
  destruct (dispatch_asks_gated E ev a0 ss cb Ha Hf) as [s1 [sent1 [Hd [D1 [N1 F1]]]]].
  simpl in Hr. rewrite Hd in Hr.
  apply after_done in Hr. destruct Hr as [sent2 [Hr ->]].
  destruct (run_while_outstanding E evs s1 ss' sent2 cb F1 Hno Hr) as [D [F N]].
  specialize (N N1).
  split; [rewrite draws_app, D1, D; reflexivity|].
  split; [exact F|]. split; [exact N|].
  destruct (frame_done_serves E a (ss_background ss') cb F Hs)
    as [bg' [sent' [Hd' [Hn' [Hc Hfr]]]]].
  rewrite N in Hc.
  exists (mk_session (current_cursor ss') (seat_pointer_surface ss') bg'), sent'.
  simpl. rewrite Hd'. simpl.
  split; [reflexivity|]. split; [exact Hc|]. split; [exact Hn' | exact (Hfr N)].
Qed.

(** After the first draw of an 800x600 surface, with its callback
    outstanding: the pointer enters and a scroll arrives, nothing is drawn;
    the frame completion then draws once. *)
Lemma frame_throttle_witness :
  draws (sent_of (run sample_env sample_gated_events sample_configured)) = 0%nat
  /\ bg_frame (ss_background sample_gated) = Some 1%nat
  /\ bg_needs_draw (ss_background sample_gated) = true
  /\ exists ss'' sent'',
       dispatch sample_env ev_frame_done (sample_alloc 4) sample_gated
       = Done ss'' sent''
       /\ draws sent'' = 1%nat
       /\ bg_needs_draw (ss_background ss'') = false
       /\ bg_frame (ss_background ss'') = Some 4%nat.
Proof.
  assert (Hr : run sample_env sample_gated_events sample_configured
               = Done sample_gated
                   (sent_of (run sample_env sample_gated_events sample_configured)))
    by (vm_compute; reflexivity).
  destruct (frame_throttle sample_env
              [(ev_pointer_axis WL_POINTER_AXIS_VERTICAL_SCROLL (-1280), sample_alloc 3)]
              sample_configured) as [_ [_ [_ [_ L]]]].
  apply (L 1%nat (ev_pointer_enter 1 1280 8448) (sample_alloc 2) sample_gated
           (sent_of (run sample_env sample_gated_events sample_configured))
           (sample_alloc 4)).
  - reflexivity.
  - reflexivity.
  - intros e a [H|[]]. inversion H. discriminate.
  - exact Hr.
  - reflexivity.
Defined.

(** C3.  What the code does when the buffer cannot be allocated:
    [create_buffer] logs and returns null, and [draw_background] goes on to
    link the null buffer into the pool.  The first configure of a fresh
    background with a failing [mmap], and the same through the event loop
    with a failing [memfd_create], end in the fault, not in a skipped
    draw. *)
Lemma allocation_failure_faults :
  draw_background sample_env (mk_alloc mmap_fails 1 1 1)
    (set_size 800 600 (new_background 7))
  = Fault [perror "Unable to map memfd"]
  /\ run sample_env
       [(ev_configure 800 600, mk_alloc memfd_create_fails 1 1 1);
        (ev_pointer_enter 1 1280 8448, sample_alloc 2)]
       (initial_session 7)
     = Fault [perror "Unable to create memfd"].
Proof. split; reflexivity. Qed.

(** C4 as stated fails: a scroll delta that arrives while the frame
    callback of the last draw is outstanding is added and left unclamped.
    After the first configure (800x600, three entries 23 high, so the menu
    fits and the range is [[0, 0]]), the pointer entering and a scroll of
    -5, the offset is -5. *)
Lemma scroll_clamp_counterexample :
  exists ss sent,
    run sample_env sample_scroll (initial_session 7) = Done ss sent
    /\ bg_y_scroll (ss_background ss) = (-5)%float
    /\ bg_frame (ss_background ss) = Some 1%nat
    /\ bg_needs_draw (ss_background ss) = true
    /\ scroll_limit sample_env (ss_background ss) = 0%float
    /\ ~ scroll_in_range sample_env (ss_background ss).
Proof.
  eexists. eexists. split; [vm_compute; reflexivity|].
  split; [reflexivity|]. split; [reflexivity|]. split; [reflexivity|].
  split; [vm_compute; reflexivity|].
  intros [H _]. vm_compute in H. discriminate.
Qed.

(** C4, amended.  In every state reached from a new background by any
    sequence of events, whenever no redraw is pending the scroll offset
    lies in [[0, max (0, total_height - visible_height)]], the difference
    being the double the clamp computes ([total_height] the rounded product
    of the entry count and the row height, [visible_height] the surface
    height less twice the padding, in unsigned arithmetic: the plain
    difference for a surface at least that high), and it is 0 when
    [total_height <= visible_height]: every draw that is performed clamps
    it.  The axis handler itself only
    adds the delta; while a frame callback is outstanding the sum stays
    unclamped, with [needs_draw] set, until the draw that follows the frame
    completion. *)
Theorem scroll_clamped_when_drawn
  (E : env) (surface : handle) (evs : list (event * alloc))
  (ss : session) (sent : list request) :
  run E evs (initial_session surface) = Done ss sent ->
  (bg_needs_draw (ss_background ss) = false ->
   scroll_in_range E (ss_background ss)
   /\ ((0 <? scroll_bound E (ss_background ss))%float = false ->
       bg_y_scroll (ss_background ss) = 0%float)
   /\ ((total_height E (ss_background ss)
        <=? double_of_Z (visible_height (ss_background ss)))%float = true ->
       bg_y_scroll (ss_background ss) = 0%float))
  /\ scroll_bound E (ss_background ss)
     = (total_height E (ss_background ss)
        - double_of_Z (visible_height (ss_background ss)))%float
  /\ (2 * MENU_PADDING <= bg_height (ss_background ss) < 2 ^ 32 ->
      visible_height (ss_background ss)
      = bg_height (ss_background ss) - 2 * MENU_PADDING)
  /\ (forall a bg bg' sent',
        bg_frame bg = None ->
        draw_background E a bg = Done bg' sent' ->
        scroll_in_range E bg'
        /\ bg_y_scroll bg' = clamp_y_scroll (scroll_bound E bg') (bg_y_scroll bg))
  /\ (forall a v bg cb,
        bg_frame bg = Some cb ->
        background_pointer_axis E a WL_POINTER_AXIS_VERTICAL_SCROLL v bg
        = Done (set_needs_draw true (set_y_scroll (bg_y_scroll bg + v)%float bg)) []).
Proof.
  intro Hr.
  pose proof (run_settled E evs _ ss sent (initial_settled E surface) Hr) as Hs.
  split.
  { intro Hn. destruct (Hs Hn) as [A B].
    split; [exact A|]. split; [exact B|].
    intro Hle. apply B. apply fsub_not_positive. exact Hle. }
  split; [reflexivity|].
  split; [apply visible_height_plain|].
  split.
  - intros a bg bg' sent' Hf Hd.
    split; [apply (draw_clamps E a bg bg' sent' Hf Hd)|].
    destruct (draw_scroll E a bg bg' sent' Hf Hd) as [Hy [Hh He]].
    rewrite (scroll_bound_drawn E bg bg' Hh He). exact Hy.
  - intros a v bg cb Hf. unfold background_pointer_axis. simpl.
    apply (draw_while_outstanding E a _ cb). exact Hf.
Qed.

(** Six entries 23 high on a surface 100 high: the range is [[0, 58]], and
    a scroll of 100 that arrives while the surface is idle is clamped to
    58 by the draw it triggers. *)
Lemma scroll_clamped_witness :
  scroll_in_range menu_env (ss_background sample_scrolled)
  /\ scroll_limit menu_env (ss_background sample_scrolled) = 58%float
  /\ bg_y_scroll (ss_background sample_scrolled) = 58%float.
Proof.
  split; [|split; reflexivity].
  refine (proj1 (proj1 (scroll_clamped_when_drawn menu_env 7 sample_long_scroll
                          sample_scrolled _ _) _)).
  - vm_compute. reflexivity.
  - reflexivity.
Defined.



(** C6.  While the cached row height is zero, as it is from [output_done]
    until the first draw has measured the font, a left-button release (any
    button event) performs no hit test: the handler returns at the guard,
    launches nothing, changes nothing, and does not reach the division,
    which with the zero divisor would have no [guint] value. *)
Theorem no_hit_before_first_draw
  (E : env) (button state : Z) (bg : background) :
  (ext_height (bg_extents bg) =? 0)%float = true ->
  background_pointer_button E button state bg = Done bg []
  /\ (forall m, div_to_guint m (ext_height (bg_extents bg)) = None)
  /\ (forall surface,
        (ext_height (bg_extents (new_background surface)) =? 0)%float = true
        /\ background_pointer_button E button state (new_background surface)
           = Done (new_background surface) []).
Proof.
  intro H0.
  split; [apply button_zero_height; exact H0|].
  split; [intro m; apply div_to_guint_zero; exact H0|].
  intro surface. split; [reflexivity|].
  apply button_zero_height. reflexivity.
Qed.

(** A release on a background that was never drawn. *)
Lemma no_hit_before_first_draw_witness :
  background_pointer_button sample_env BTN_LEFT WL_POINTER_BUTTON_STATE_RELEASED
    (new_background 7)
  = Done (new_background 7) [].
Proof.
  apply (no_hit_before_first_draw sample_env BTN_LEFT
           WL_POINTER_BUTTON_STATE_RELEASED (new_background 7)).
  reflexivity.
Defined.

(** C7.  In every state reached from a new background, [needs_draw] is set
    only while a frame callback is outstanding, and then a redraw was
    requested in that window: some event found the flag clear with this
    callback outstanding and set it, and no frame completion came since.
    [draw_background] sets the flag only when a callback is outstanding (and
    then draws nothing), clears it when it draws, and the frame completion
    clears the callback handle before it runs the pending draw. *)
Theorem needs_draw_only_while_outstanding
  (E : env) (surface : handle) (evs : list (event * alloc))
  (ss : session) (sent : list request) :
  run E evs (initial_session surface) = Done ss sent ->
  bg_needs_draw (ss_background ss) = true ->
  bg_frame (ss_background ss) <> None
  /\ requested_in_window E (initial_session surface) evs ss
  /\ (forall a bg bg' sent',
        draw_background E a bg = Done bg' sent' ->
        bg_needs_draw bg' = true ->
        bg_frame bg <> None /\ bg_frame bg' = bg_frame bg /\ sent' = [])
  /\ (forall a bg bg' sent',
        bg_frame bg = None -> draw_background E a bg = Done bg' sent' ->
        bg_needs_draw bg' = false)
  /\ (forall a bg cb,
        bg_frame bg = Some cb ->
        background_frame_done E a bg =
        if bg_needs_draw bg
        then after [wl_callback_destroy cb]
               (draw_background E a (set_frame None bg))
        else Done (set_frame None bg) [wl_callback_destroy cb]).
Proof.
  intros Hr Hn.
  destruct (run_flag E (initial_session surface) evs eq_refl ss sent Hr Hn) as [A B].
  split; [exact A|]. split; [exact B|].
  split; [intros a bg bg' sent'; apply draw_sets_flag|].
  split; [intros a bg bg' sent'; apply draw_clears_flag|].
  intros a bg cb Hf. unfold background_frame_done. rewrite Hf. reflexivity.
Qed.

(** After the first configure and an enter, the flag is set and the
    callback of the first draw is outstanding. *)
Lemma needs_draw_witness :
  bg_frame (ss_background sample_entered) <> None.
Proof.
  refine (proj1 (needs_draw_only_while_outstanding sample_env 7 sample_start
                   sample_entered _ _ _)).
  - vm_compute. reflexivity.
  - reflexivity.
Defined.

(** C8.  The first "done" of an output creates its background, with an
    empty buffer pool, the configure handler and the cursor name set, and
    registers the new surface as the output's background; a "done" for an
    output that has a background changes nothing and sends nothing, so a
    second "done" is always a no-op.  A mode event records width and height
    when the current-mode flag is set and leaves the output as it is when
    the flag is clear. *)
Theorem output_provisioning_idempotent (o : output) (surface surface' : handle) :
  (out_background o = None ->
   output_done surface o
   = (mk_output (out_output o) (Some (new_background surface))
        (out_width o) (out_height o),
      [wl_compositor_create_surface surface;
       weston_desktop_shell_set_background (out_output o) surface])
   /\ bg_buffers (new_background surface) = []
   /\ ds_configure (bg_base (new_background surface)) = Some background_configure_fn
   /\ ds_cursor (bg_base (new_background surface)) = Some "left_ptr"%string)
  /\ (out_background o <> None -> output_done surface' o = (o, []))
  /\ output_done surface' (fst (output_done surface o))
     = (fst (output_done surface o), [])
  /\ (forall flags width height refresh,
        Z.land flags WL_OUTPUT_MODE_CURRENT <> 0 ->
        output_mode flags width height refresh o
        = mk_output (out_output o) (out_background o)
            (to_uint32 width) (to_uint32 height)
        /\ (0 <= width < 2 ^ 32 -> 0 <= height < 2 ^ 32 ->
            out_width (output_mode flags width height refresh o) = width
            /\ out_height (output_mode flags width height refresh o) = height))
  /\ (forall flags width height refresh,
        Z.land flags WL_OUTPUT_MODE_CURRENT = 0 ->
        output_mode flags width height refresh o = o).
Proof.
  split; [|split; [|split; [|split]]].
  - intro Hn. unfold output_done. rewrite Hn. repeat split.
  - intro Hs. unfold output_done. destruct (out_background o); [reflexivity | congruence].
  - unfold output_done at 2 3.
    destruct (out_background o) eqn:Hb; unfold output_done; simpl;
      [rewrite Hb|]; reflexivity.
  - intros flags width height refresh Hf. unfold output_mode.
    destruct (Z.land flags WL_OUTPUT_MODE_CURRENT =? 0) eqn:Z0;
      [apply Z.eqb_eq in Z0; contradiction|].
    split; [reflexivity|]. intros Hw Hh. simpl. unfold to_uint32.
    rewrite !Z.mod_small by assumption. split; reflexivity.
  - intros flags width height refresh Hf. unfold output_mode. rewrite Hf. reflexivity.
Qed.

(** The first "done" of an output, and a current mode of 800x600. *)
Lemma output_provisioning_witness :
  output_done 7 sample_output
  = (mk_output 3 (Some (new_background 7)) 0 0,
     [wl_compositor_create_surface 7; weston_desktop_shell_set_background 3 7])
  /\ out_width (output_mode 1 800 600 60000 sample_output) = 800.
Proof.
  destruct (output_provisioning_idempotent sample_output 7 8) as [A [_ [_ [M _]]]].
  split.
  - exact (proj1 (A eq_refl)).
  - refine (proj1 (proj2 (M 1 800 600 60000 _) _ _)).
    + discriminate.
    + lia.
    + lia.
Defined.

(** C9 as stated fails on ties: two entries of the same name come out in
    the reverse of their input order. *)
Lemma ties_counterexample :
  build_application_list tie_input
  = [mk_app "Files" 2 true; mk_app "Files" 1 true]
  /\ ~ keeps_input_order tie_input.
Proof.
  split; [reflexivity|].
  intro H. specialize (H "Files"%string). vm_compute in H. discriminate.
Qed.

(** C9, amended.  The application list built at startup holds exactly the
    entries that should be shown, sorted ascending by display name under
    case-sensitive byte comparison; entries with equal names appear in the
    reverse of their input order (each new entry is linked before the
    entries it compares equal to).  For entries named "Zed", "apple", "Box"
    the order is "Box", "Zed", "apple". *)
Theorem application_list_sorted (all : list app) :
  StronglySorted name_le (build_application_list all)
  /\ Permutation (filter app_should_show all) (build_application_list all)
  /\ (forall n,
        filter (same_name n) (build_application_list all)
        = rev (filter (same_name n) (filter app_should_show all)))
  /\ map app_name (build_application_list sample_input)
     = ["Box"; "Zed"; "apple"]%string.
Proof.
  split; [|split; [|split]].
  - apply Sorted_StronglySorted.
    + intros x y z. apply name_le_trans.
    + unfold build_application_list. apply fold_sorted. constructor.
  - unfold build_application_list. rewrite <- (fold_perm all []), app_nil_r. reflexivity.
  - intro n. unfold build_application_list. rewrite fold_ties. simpl. apply app_nil_r.
  - reflexivity.
Qed.

(** C10 as stated fails: the index of the click is the floor of a rounded
    quotient, so the click interval of a row is not the half-open interval
    of its top.  With rows 0x1.8006666666667p+5 high (the double next above
    48.003125), no scroll and the cursor at 250.015625, the cursor lies in
    [[row_top 4, row_top 4 + H)]] however the tops are computed: by the
    formula of the claim in exact arithmetic, by the same formula in
    doubles, and by the sums of the renderer, which highlights the fifth
    entry.  The release launches the sixth. *)
Lemma click_interval_counterexample :
  (row_top (ss_background sample_skewed) 4
   <= exact (ds_cursor_y (bg_base (ss_background sample_skewed))))%Q
  /\ (exact (ds_cursor_y (bg_base (ss_background sample_skewed)))
      < row_top (ss_background sample_skewed) 4
        + exact (ext_height (bg_extents (ss_background sample_skewed))))%Q
  /\ (row_top_double (ss_background sample_skewed) 4
      <=? ds_cursor_y (bg_base (ss_background sample_skewed)))%float = true
  /\ (ds_cursor_y (bg_base (ss_background sample_skewed))
      <? row_top_double (ss_background sample_skewed) 4
         + ext_height (bg_extents (ss_background sample_skewed)))%float = true
  /\ (ds_cursor_y (bg_base (ss_background sample_skewed))
      <? row_top_double (ss_background sample_skewed) 5)%float = true
  /\ (row_y (ss_background sample_skewed) 4
      <=? ds_cursor_y (bg_base (ss_background sample_skewed)))%float = true
  /\ (ds_cursor_y (bg_base (ss_background sample_skewed))
      <? row_y (ss_background sample_skewed) 5)%float = true
  /\ highlighted (ss_background sample_skewed)
       (row_y (ss_background sample_skewed) 4) (mk_app "Terminal" 15 true)
  /\ nth_error (application_list skew_env) 4 = Some (mk_app "Terminal" 15 true)
  /\ click_index (ss_background sample_skewed) = Some 5
  /\ background_pointer_button skew_env BTN_LEFT WL_POINTER_BUTTON_STATE_RELEASED
       (ss_background sample_skewed)
     = Done (ss_background sample_skewed)
         [g_app_info_launch (mk_app "Web" 16 true)].
Proof.
  split; [vm_compute; discriminate|].
  split; [vm_compute; reflexivity|].
  split; [vm_compute; reflexivity|].
  split; [vm_compute; reflexivity|].
  split; [vm_compute; reflexivity|].
  split; [vm_compute; reflexivity|].
  split; [vm_compute; reflexivity|].
  split; [vm_compute; reflexivity|].
  split; [reflexivity|].
  split; vm_compute; reflexivity.
Qed.

(** C10, amended.  For a state with positive row height and the pointer on
    the surface: the renderer, which paints exactly [painted_menu] in a
    draw, reaches entry [i] at [row_y i], the double its loop variable
    holds there, and reaches the next entry at [row_y i + H]; it highlights
    entry [i] exactly when [row_y i < cursor_y <= row_y (i + 1)].  A
    left-button release launches, once, the entry at the index of the hit
    test, the floor of the rounded quotient.  So with the cursor exactly on
    the top of row [i + 1], entry [i] is the highlighted one and entry
    [i + 1] is not, and a click launches entry [i + 1] whenever the index
    comes out as [i + 1], as it does where no operation rounds. *)
Theorem hover_and_click_intervals
  (E : env) (bg : background) (i : nat) (a : app) :
  (0 <? ext_height (bg_extents bg))%float = true ->
  (0 <=? ds_cursor_y (bg_base bg))%float = true ->
  (ds_cursor_y (bg_base bg) <=? double_of_Z (bg_height bg))%float = true ->
  nth_error (application_list E) i = Some a ->
  (forall al bg0 sent,
     bg_frame bg0 = None -> draw_background E al bg0 = Done bg sent ->
     exists data,
       In (cairo_paint data
             (fill_rectangle (bg_width bg) (bg_height bg) grey
              :: select_font "sans-serif" 20 :: painted_menu E bg)) sent)
  /\ row_y bg 0 = (double_of_Z MENU_PADDING - bg_y_scroll bg)%float
  /\ row_y bg (S i) = (row_y bg i + ext_height (bg_extents bg))%float
  /\ painted_menu E bg =
     draw_rows (bg_height bg) (ds_cursor_y (bg_base bg)) (bg_extents bg)
       (row_y bg 0) (firstn i (application_list E))
     ++ draw_row (bg_height bg) (ds_cursor_y (bg_base bg)) (bg_extents bg)
          (row_y bg i) a
     ++ draw_rows (bg_height bg) (ds_cursor_y (bg_base bg)) (bg_extents bg)
          (row_y bg (S i)) (skipn (S i) (application_list E))
  /\ (highlighted bg (row_y bg i) a <->
      (row_y bg i <? ds_cursor_y (bg_base bg))%float = true
      /\ (ds_cursor_y (bg_base bg) <=? row_y bg (S i))%float = true)
  /\ ((0 <=? menu_y bg)%float = true ->
      click_index bg = Some (Z.of_nat i) -> Z.of_nat i < 2 ^ 32 ->
      exists sent,
        background_pointer_button E BTN_LEFT WL_POINTER_BUTTON_STATE_RELEASED bg
        = Done bg sent
        /\ filter is_launch sent = [g_app_info_launch a])
  /\ (ds_cursor_y (bg_base bg) = row_y bg (S i) ->
      (row_y bg i <? row_y bg (S i))%float = true ->
      highlighted bg (row_y bg i) a
      /\ (forall next, ~ highlighted bg (row_y bg (S i)) next)
      /\ (forall next,
            nth_error (application_list E) (S i) = Some next ->
            (0 <=? menu_y bg)%float = true ->
            click_index bg = Some (Z.of_nat (S i)) -> Z.of_nat (S i) < 2 ^ 32 ->
            exists sent,
              background_pointer_button E BTN_LEFT
                WL_POINTER_BUTTON_STATE_RELEASED bg = Done bg sent
              /\ filter is_launch sent = [g_app_info_launch next])).
Proof.
  intros Hh H0 H1 Hn.
  assert (Click : forall j app,
            nth_error (application_list E) j = Some app ->
            (0 <=? menu_y bg)%float = true ->
            click_index bg = Some (Z.of_nat j) -> Z.of_nat j < 2 ^ 32 ->
            exists sent,
              background_pointer_button E BTN_LEFT
                WL_POINTER_BUTTON_STATE_RELEASED bg = Done bg sent
              /\ filter is_launch sent = [g_app_info_launch app]).
  { intros j app Hj Hm Hi Hfit.
    pose proof (click_by_index E bg Hh Hm) as C. rewrite Hi in C.
    destruct C as [_ C]. apply Z.ltb_lt in Hfit. rewrite Hfit in C.
    unfold g_list_nth_data in C. rewrite Nat2Z.id, Hj in C.
    exists (launch_app E app). split; [exact C | apply launch_app_once]. }
  split; [intros al bg0 sent Hf Hd; apply (draw_paints E al bg0 bg sent Hf Hd)|].
  split; [reflexivity|].
  split; [apply row_y_succ|].
  split; [apply painted_menu_at; exact Hn|].
  split; [apply highlighted_iff; assumption|].
  split; [apply (Click i a Hn)|].
  intros Hc Hlt.
  destruct (highlighted_above bg i a H0 H1 Hc Hlt) as [A B].
  split; [exact A|]. split; [exact B|].
  intros next Hnext. apply (Click (S i) next Hnext).
Qed.

(** With rows 23 high and the cursor at 33, the top of the second row, the
    first entry is highlighted and a click launches the second. *)
Lemma hover_and_click_witness :
  highlighted (ss_background sample_entered)
    (row_y (ss_background sample_entered) 0) (mk_app "Box" 3 true)
  /\ (forall next,
        ~ highlighted (ss_background sample_entered)
            (row_y (ss_background sample_entered) 1) next)
  /\ exists sent,
       background_pointer_button sample_env BTN_LEFT
         WL_POINTER_BUTTON_STATE_RELEASED (ss_background sample_entered)
       = Done (ss_background sample_entered) sent
       /\ filter is_launch sent = [g_app_info_launch (mk_app "Zed" 1 true)].
Proof.
  destruct (hover_and_click_intervals sample_env
              (ss_background sample_entered) 0 (mk_app "Box" 3 true)
              eq_refl eq_refl eq_refl eq_refl) as [_ [_ [_ [_ [_ [_ B]]]]]].
  destruct (B eq_refl eq_refl) as [Hi [Hnot Hnext]].
  split; [exact Hi|]. split; [exact Hnot|].
  apply (Hnext (mk_app "Zed" 1 true)); reflexivity.
Defined.

(** * Further properties *)

(** ** The cursor image *)

Lemma set_cursor_cases E name serial cur :
  set_cursor E name serial cur = (cur, [])
  \/ (set_cursor E name serial cur = (Some name, [wl_pointer_set_cursor serial name])
      /\ theme_has_cursor E name = true /\ cur <> Some name).
Proof.
  unfold set_cursor. destruct cur as [c|].
  - destruct (String.eqb c name) eqn:He; [left; reflexivity|].
    destruct (theme_has_cursor E name); [|left; reflexivity].
    right. split; [reflexivity|]. split; [reflexivity|].
    intro H. inversion H; subst. rewrite String.eqb_refl in He. discriminate.
  - destruct (theme_has_cursor E name); [|left; reflexivity].
    right. split; [reflexivity|]. split; [reflexivity | discriminate].
Qed.

(** X1.  [set_cursor] uploads a cursor image at most once per name: it
    sends the image only when the theme has the cursor and the name differs
    from the current one, and then records the name; asking again for the
    same name, with any serial, sends nothing and changes nothing.  When the
    theme lacks the cursor the current one stays. *)
Theorem set_cursor_deduplicates
  (E : env) (name : string) (serial serial' : Z) (cur : option string) :
  set_cursor E name serial' (fst (set_cursor E name serial cur))
  = (fst (set_cursor E name serial cur), [])
  /\ (snd (set_cursor E name serial cur) = []
      \/ snd (set_cursor E name serial cur) = [wl_pointer_set_cursor serial name])
  /\ (snd (set_cursor E name serial cur) <> [] ->
      theme_has_cursor E name = true /\ cur <> Some name
      /\ fst (set_cursor E name serial cur) = Some name)
  /\ (theme_has_cursor E name = false ->
      set_cursor E name serial cur = (cur, [])).
Proof.
  destruct (set_cursor_cases E name serial cur) as [H|[H [Ht Hc]]]; rewrite H; simpl.
  - split; [|split; [left; reflexivity|split; [congruence|]]].
    + destruct (set_cursor_cases E name serial' cur) as [H'|[H' _]]; [exact H'|].
      (* the second call would upload: then so would the first *)
      unfold set_cursor in H, H'. destruct cur as [c|].
      * destruct (String.eqb c name); [discriminate|].
        destruct (theme_has_cursor E name); discriminate.
      * destruct (theme_has_cursor E name); discriminate.
    + intros _. reflexivity.
  - split; [|split; [right; reflexivity|split]].
    + unfold set_cursor. rewrite String.eqb_refl. reflexivity.
    + intros _. auto.
    + intro Hf. congruence.
Qed.

(** ** What a draw leaves alone *)

Lemma draw_keeps_identity E a bg bg' sent :
  draw_background E a bg = Done bg' sent ->
  bg_base bg' = bg_base bg /\ bg_surface bg' = bg_surface bg
  /\ bg_width bg' = bg_width bg /\ bg_height bg' = bg_height bg.
Proof.
  intro Hd.
  destruct (draw_background_case E a bg)
    as [cb Hf|i buf Hf Hn Hr|buf Hf Hnone Hs Hbuf|msg Hf Hnone Hs];
    inversion Hd; subst; repeat split.
Qed.

Lemma same_handlers_refl s : same_handlers s s.
Proof. repeat split. Qed.

Lemma same_handlers_trans s1 s2 s3 :
  same_handlers s1 s2 -> same_handlers s2 s3 -> same_handlers s1 s3.
Proof.
  unfold same_handlers. intros H1 H2.
  repeat match goal with H : _ /\ _ |- _ => destruct H end.
  repeat split; congruence.
Qed.

Lemma same_handlers_pos x y s : same_handlers (set_cursor_pos x y s) s.
Proof. repeat split. Qed.

(** Whatever the event, the handlers, the cursor name and the surface of
    the background are the same afterwards. *)
Lemma dispatch_keeps_handlers E ev a ss ss' sent :
  dispatch E ev a ss = Done ss' sent ->
  same_handlers (bg_base (ss_background ss')) (bg_base (ss_background ss))
  /\ bg_surface (ss_background ss') = bg_surface (ss_background ss).
Proof.
  assert (D : forall cur focus bg1 pre,
             same_handlers (bg_base bg1) (bg_base (ss_background ss)) ->
             bg_surface bg1 = bg_surface (ss_background ss) ->
             after pre (with_background cur focus (draw_background E a bg1))
             = Done ss' sent ->
             same_handlers (bg_base (ss_background ss')) (bg_base (ss_background ss))
             /\ bg_surface (ss_background ss') = bg_surface (ss_background ss)).
  { intros cur focus bg1 pre Hh Hs H.
    apply after_done in H. destruct H as [sent' [H _]].
    apply with_background_done in H. destruct H as [bg' [H ->]]. simpl.
    destruct (draw_keeps_identity E a bg1 bg' sent' H) as [Hb [Hsf _]].
    rewrite Hb, Hsf. split; assumption. }
  assert (D0 : forall cur focus bg1,
             same_handlers (bg_base bg1) (bg_base (ss_background ss)) ->
             bg_surface bg1 = bg_surface (ss_background ss) ->
             with_background cur focus (draw_background E a bg1) = Done ss' sent ->
             same_handlers (bg_base (ss_background ss')) (bg_base (ss_background ss))
             /\ bg_surface (ss_background ss') = bg_surface (ss_background ss)).
  { intros cur focus bg1 Hh Hs H. apply (D cur focus bg1 []); [exact Hh | exact Hs|].
    rewrite after_nil. exact H. }
  assert (Same : ss' = ss ->
             same_handlers (bg_base (ss_background ss')) (bg_base (ss_background ss))
             /\ bg_surface (ss_background ss') = bg_surface (ss_background ss)).
  { intros ->. split; [apply same_handlers_refl | reflexivity]. }
  destruct ev; simpl; intro H.
  - unfold desktop_shell_configure in H.
    destruct (ds_configure _) as [[]|]; [|discriminate].
    unfold background_configure in H.
    apply D0 in H; [exact H | apply same_handlers_refl | reflexivity].
  - unfold pointer_enter in H.
    destruct (match ds_cursor _ with Some _ => _ | None => _ end) as [cur pre].
    destruct (ds_on_cursor_enter _) as [f|].
    + replace (call_seat_fn E a f) with (draw_background E a) in H
        by (destruct f; reflexivity).
      apply D in H; [exact H | apply same_handlers_pos | reflexivity].
    + inversion H; subst. simpl. split; [apply same_handlers_pos | reflexivity].
  - unfold pointer_leave in H.
    destruct (ds_on_cursor_leave _) as [f|].
    + replace (call_seat_fn E a f) with (draw_background E a) in H
        by (destruct f; reflexivity).
      apply D0 in H; [exact H | apply same_handlers_pos | reflexivity].
    + inversion H; subst. simpl. split; [apply same_handlers_pos | reflexivity].
  - unfold pointer_motion in H.
    destruct (seat_pointer_surface ss); [|inversion H; subst; apply Same; reflexivity].
    destruct (ds_on_cursor_motion _) as [f|].
    + replace (call_seat_fn E a f) with (draw_background E a) in H
        by (destruct f; reflexivity).
      apply D0 in H; [exact H | apply same_handlers_pos | reflexivity].
    + inversion H; subst. simpl. split; [apply same_handlers_pos | reflexivity].
  - unfold pointer_button in H.
    destruct (seat_pointer_surface ss);
      [destruct (ds_on_pointer_button _) as [[]|]|];
      try (inversion H; subst; apply Same; reflexivity).
    apply with_background_done in H. destruct H as [bg' [H ->]]. simpl.
    unfold background_pointer_button in H.
    repeat match type of H with
           | (if ?c then _ else _) = _ => destruct c
           | match ?c with _ => _ end = _ => destruct c
           end; inversion H; subst;
      (split; [apply same_handlers_refl | reflexivity]).
  - unfold pointer_axis in H.
    destruct (seat_pointer_surface ss);
      [destruct (ds_on_pointer_axis _) as [[]|]|];
      try (inversion H; subst; apply Same; reflexivity).
    unfold background_pointer_axis in H.
    destruct (axis =? _).
    + apply D0 in H; [exact H | apply same_handlers_refl | reflexivity].
    + simpl in H. inversion H; subst. simpl.
      split; [apply same_handlers_refl | reflexivity].
  - unfold pointer_frame in H.
    destruct (seat_pointer_surface ss);
      [destruct (ds_on_pointer_frame _) as [f|]|];
      try (inversion H; subst; apply Same; reflexivity).
    replace (call_seat_fn E a f) with (draw_background E a) in H
      by (destruct f; reflexivity).
    apply D0 in H; [exact H | apply same_handlers_refl | reflexivity].
  - apply with_background_done in H. destruct H as [bg' [H ->]]. simpl.
    unfold background_frame_done in H.
    destruct (bg_frame (ss_background ss)) as [cb|]; [|discriminate].
    destruct (bg_needs_draw _).
    + apply after_done in H. destruct H as [sent' [H _]].
      destruct (draw_keeps_identity E a _ bg' sent' H) as [Hb [Hsf _]].
      rewrite Hb, Hsf. split; [apply same_handlers_refl | reflexivity].
    + inversion H; subst. split; [apply same_handlers_refl | reflexivity].
  - inversion H; subst. simpl. split; [apply same_handlers_refl | reflexivity].
Qed.

Lemma run_keeps_handlers E evs : forall ss ss' sent,
  run E evs ss = Done ss' sent ->
  same_handlers (bg_base (ss_background ss')) (bg_base (ss_background ss))
  /\ bg_surface (ss_background ss') = bg_surface (ss_background ss).
Proof.
  induction evs as [|[ev a] rest IH]; intros ss ss' sent H; simpl in H.
  - inversion H; subst. split; [apply same_handlers_refl | reflexivity].
  - destruct (dispatch E ev a ss) as [s1 sent1|] eqn:Hd; [|discriminate].
    apply after_done in H. destruct H as [sent2 [H _]].
    destruct (IH s1 ss' sent2 H) as [A B].
    destruct (dispatch_keeps_handlers E ev a ss s1 sent1 Hd) as [A' B'].
    split; [apply (same_handlers_trans _ _ _ A A') | congruence].
Qed.

(** X2.  No event ever rewrites the capability record of a background:
    in every state reached from a new background the handlers, the cursor
    name and the surface are those [output_done] set.  Hence a configure
    never calls a null handler, and a pointer frame event, for which no
    handler is installed, does nothing at all. *)
Theorem handlers_never_change
  (E : env) (surface : handle) (evs : list (event * alloc))
  (ss : session) (sent : list request) :
  run E evs (initial_session surface) = Done ss sent ->
  same_handlers (bg_base (ss_background ss)) (bg_base (new_background surface))
  /\ bg_surface (ss_background ss) = surface
  /\ ds_configure (bg_base (ss_background ss)) = Some background_configure_fn
  /\ (forall a, dispatch E ev_pointer_frame a ss = Done ss []).
Proof.
  intro Hr.
  destruct (run_keeps_handlers E evs _ ss sent Hr) as [Hh Hs].
  split; [exact Hh|]. split; [exact Hs|].
  destruct Hh as [Hc [_ [_ [_ [_ [_ [_ Hf]]]]]]].
  split; [exact Hc|].
  intro a. simpl. unfold pointer_frame. simpl in Hf. rewrite Hf.
  destruct (seat_pointer_surface ss); reflexivity.
Qed.

Lemma handlers_never_change_witness :
  dispatch sample_env ev_pointer_frame (sample_alloc 9) sample_entered
  = Done sample_entered [].
Proof.
  refine (proj2 (proj2 (proj2 (handlers_never_change sample_env 7 sample_start
                                 sample_entered _ _))) (sample_alloc 9)).
  vm_compute. reflexivity.
Defined.

(** ** Pointer focus *)

Lemma draw_sends_no_launch E a bg r :
  In r (sent_of (draw_background E a bg)) -> launch_related r = false.
Proof.
  destruct (draw_background_case E a bg)
    as [cb Hf|i buf Hf Hn Hr|buf Hf Hnone Hs Hbuf|msg Hf Hnone Hs];
    simpl; intro H.
  - contradiction.
  - apply in_app_or in H. destruct H as [H|H].
    + apply in_map_iff in H. destruct H as [x [<- _]]. reflexivity.
    + simpl in H. repeat (destruct H as [<-|H]; [reflexivity|]). contradiction.
  - apply in_app_or in H. destruct H as [H|H].
    + apply in_map_iff in H. destruct H as [x [<- _]]. reflexivity.
    + simpl in H. repeat (destruct H as [<-|H]; [reflexivity|]). contradiction.
  - apply in_app_or in H. destruct H as [H|H].
    + apply in_map_iff in H. destruct H as [x [<- _]]. reflexivity.
    + simpl in H. repeat (destruct H as [<-|H]; [reflexivity|]). contradiction.
Qed.

Lemma set_cursor_no_launch E name serial cur r :
  In r (snd (set_cursor E name serial cur)) -> launch_related r = false.
Proof.
  destruct (set_cursor_cases E name serial cur) as [H|[H _]]; rewrite H; simpl.
  - contradiction.
  - intros [<-|[]]. reflexivity.
Qed.

(** X3.  [pointer_leave] forgets the pointer: the cursor position is the
    sentinel (-1, -1), the seat has no focused surface and the current
    cursor image is invalidated.  So the next enter uploads the surface's
    cursor again when the theme has it, and stores the position and the
    focus. *)
Theorem leave_then_enter
  (E : env) (a : alloc) (ss ss' : session) (sent : list request) :
  pointer_leave E a ss = Done ss' sent ->
  current_cursor ss' = None
  /\ seat_pointer_surface ss' = None
  /\ ds_cursor_x (bg_base (ss_background ss')) = (-1)%float
  /\ ds_cursor_y (bg_base (ss_background ss')) = (-1)%float
  /\ (forall a' serial x y name,
        ds_cursor (bg_base (ss_background ss)) = Some name ->
        theme_has_cursor E name = true ->
        In (wl_pointer_set_cursor serial name)
           (sent_of (pointer_enter E a' serial x y ss'))
        /\ (forall ss'' sent'',
              pointer_enter E a' serial x y ss' = Done ss'' sent'' ->
              current_cursor ss'' = Some name
              /\ seat_pointer_surface ss'' = Some (bg_surface (ss_background ss))
              /\ ds_cursor_x (bg_base (ss_background ss'')) = wl_fixed_to_double x
              /\ ds_cursor_y (bg_base (ss_background ss'')) = wl_fixed_to_double y)).
Proof.
  intro H.
  assert (L : current_cursor ss' = None /\ seat_pointer_surface ss' = None
              /\ bg_base (ss_background ss')
                 = set_cursor_pos (-1) (-1) (bg_base (ss_background ss))
              /\ bg_surface (ss_background ss') = bg_surface (ss_background ss)).
  { unfold pointer_leave in H. destruct (ds_on_cursor_leave _) as [f|].
    - replace (call_seat_fn E a f) with (draw_background E a) in H
        by (destruct f; reflexivity).
      apply with_background_done in H. destruct H as [bg' [H ->]]. simpl.
      destruct (draw_keeps_identity E a _ bg' sent H) as [Hb [Hs _]].
      rewrite Hb, Hs. repeat split.
    - inversion H; subst. repeat split. }
  destruct L as [Lc [Lf [Lb Ls]]].
  split; [exact Lc|]. split; [exact Lf|].
  split; [rewrite Lb; reflexivity|]. split; [rewrite Lb; reflexivity|].
  intros a' serial x y name Hname Ht.
  assert (Hcur : ds_cursor (bg_base (ss_background ss')) = Some name)
    by (rewrite Lb; exact Hname).
  assert (Hset : set_cursor E name serial None
                 = (Some name, [wl_pointer_set_cursor serial name])).
  { unfold set_cursor. rewrite Ht. reflexivity. }
  unfold pointer_enter. rewrite Hcur, Lc, Hset.
  destruct (ds_on_cursor_enter _) as [f|].
  - replace (call_seat_fn E a' f) with (draw_background E a')
      by (destruct f; reflexivity).
    split.
    + rewrite sent_of_after. apply in_or_app. left. left. reflexivity.
    + intros ss'' sent'' H2.
      apply after_done in H2. destruct H2 as [s2 [H2 _]].
      apply with_background_done in H2. destruct H2 as [bg2 [H2 ->]]. simpl.
      destruct (draw_keeps_identity E a' _ bg2 s2 H2) as [Hb _].
      rewrite Hb, Ls. repeat split.
  - split; [left; reflexivity|].
    intros ss'' sent'' H2. inversion H2; subst. simpl. rewrite Ls. repeat split.
Qed.

Lemma leave_then_enter_witness :
  In (wl_pointer_set_cursor 2 "left_ptr")
     (sent_of (pointer_enter sample_env (sample_alloc 5) 2 0 0
                 (match pointer_leave sample_env (sample_alloc 4) sample_entered with
                  | Done ss' _ => ss'
                  | Fault _ => sample_entered
                  end))).
Proof.
  destruct (pointer_leave sample_env (sample_alloc 4) sample_entered)
    as [ss' sent|sent] eqn:Hl; [|vm_compute in Hl; discriminate].
  destruct (leave_then_enter sample_env (sample_alloc 4) sample_entered ss' sent Hl)
    as [_ [_ [_ [_ L]]]].
  exact (proj1 (L (sample_alloc 5) 2 0 0 "left_ptr"%string eq_refl eq_refl)).
Defined.

(** An event other than an enter, arriving while the seat has no focused
    surface, launches nothing and leaves the seat without focus. *)
Lemma dispatch_outside E ev a ss :
  seat_pointer_surface ss = None ->
  (forall serial x y, ev <> ev_pointer_enter serial x y) ->
  (forall r, In r (sent_of (dispatch E ev a ss)) -> launch_related r = false)
  /\ (forall ss' sent, dispatch E ev a ss = Done ss' sent ->
        seat_pointer_surface ss' = None).
Proof.
  intros Hf Hev.
  assert (D : forall bg1,
    (forall r, In r (sent_of (with_background (current_cursor ss) None
                                (draw_background E a bg1))) ->
               launch_related r = false)
    /\ (forall ss' sent,
          with_background (current_cursor ss) None (draw_background E a bg1)
          = Done ss' sent -> seat_pointer_surface ss' = None)).
  { intro bg1. split.
    - intros r. rewrite sent_of_with_background. apply draw_sends_no_launch.
    - intros ss' sent H. apply with_background_done in H.
      destruct H as [bg' [_ ->]]. reflexivity. }
  assert (N : (forall r, In r (sent_of (Done ss (@nil request))) ->
                         launch_related r = false)
              /\ (forall ss' sent, Done ss [] = Done ss' sent ->
                    seat_pointer_surface ss' = None)).
  { split; [intros r []|]. intros ss' sent H. inversion H; subst. exact Hf. }
  destruct ev; simpl.
  - unfold desktop_shell_configure. destruct (ds_configure _) as [[]|].
    + unfold background_configure. rewrite Hf. apply D.
    + split; [intros r []|discriminate].
  - exfalso. apply (Hev serial surface_x surface_y). reflexivity.
  - unfold pointer_leave. destruct (ds_on_cursor_leave _) as [f|].
    + replace (call_seat_fn E a f) with (draw_background E a)
        by (destruct f; reflexivity).
      split.
      * intros r. rewrite sent_of_with_background. apply draw_sends_no_launch.
      * intros ss' sent H. apply with_background_done in H.
        destruct H as [bg' [_ ->]]. reflexivity.
    + split; [intros r []|]. intros ss' sent H. inversion H; subst. reflexivity.
  - unfold pointer_motion. rewrite Hf. exact N.
  - unfold pointer_button. rewrite Hf. exact N.
  - unfold pointer_axis. rewrite Hf. exact N.
  - unfold pointer_frame. rewrite Hf. exact N.
  - rewrite Hf. unfold background_frame_done.
    destruct (bg_frame (ss_background ss)) as [cb|];
      [|split; [intros r []|discriminate]].
    destruct (bg_needs_draw _).
    + rewrite with_background_after. split.
      * intros r. rewrite sent_of_after, sent_of_with_background.
        intro H. apply in_app_or in H. destruct H as [[<-|[]]|H]; [reflexivity|].
        apply (draw_sends_no_launch _ _ _ _ H).
      * intros ss' sent H. apply after_done in H. destruct H as [s2 [H _]].
        apply with_background_done in H. destruct H as [bg' [_ ->]]. reflexivity.
    + simpl. split; [intros r [<-|[]]; reflexivity|].
      intros ss' sent H. inversion H; subst. reflexivity.
  - split; [intros r []|]. intros ss' sent H. inversion H; subst. exact Hf.
Qed.

Lemma filter_none {A} (f : A -> bool) l :
  (forall x, In x l -> f x = false) -> filter f l = [].
Proof.
  induction l as [|x l IH]; intro H; [reflexivity|].
  simpl. rewrite (H x (or_introl eq_refl)). apply IH.
  intros y Hy. apply H. right. exact Hy.
Qed.

(** X4.  Nothing is launched while the pointer is outside the surface:
    from a state in which the seat has no focused surface, a sequence of
    events without a pointer enter sends no launch (button and scroll events
    are dropped by the router) and ends without focus. *)
Theorem nothing_launched_outside
  (E : env) (evs : list (event * alloc)) (ss : session) :
  seat_pointer_surface ss = None ->
  no_enter evs ->
  (forall r, In r (sent_of (run E evs ss)) -> launch_related r = false)
  /\ (forall ss' sent, run E evs ss = Done ss' sent ->
        seat_pointer_surface ss' = None).
Proof.
  revert ss. induction evs as [|[ev a] rest IH]; intros ss Hf Hno; simpl.
  - split; [intros r []|]. intros ss' sent H. inversion H; subst. exact Hf.
  - assert (Hev : forall serial x y, ev <> ev_pointer_enter serial x y).
    { intros serial x y ->. apply (Hno serial x y a). left. reflexivity. }
    assert (Hrest : no_enter rest).
    { intros serial x y a' Hin. apply (Hno serial x y a'). right. exact Hin. }
    destruct (dispatch_outside E ev a ss Hf Hev) as [A B].
    destruct (dispatch E ev a ss) as [s1 sent1|sent1] eqn:Hd.
    + destruct (IH s1 (B s1 sent1 eq_refl) Hrest) as [A' B'].
      split.
      * intros r. rewrite sent_of_after. intro H. apply in_app_or in H.
        destruct H as [H|H]; [apply A; exact H | apply A'; exact H].
      * intros ss' sent H. apply after_done in H. destruct H as [s2 [H _]].
        apply (B' ss' s2 H).
    + split; [exact A | discriminate].
Qed.

Lemma nothing_launched_outside_witness :
  filter launch_related
    (sent_of (run sample_env
                [(ev_configure 800 600, sample_alloc 1);
                 (ev_pointer_button BTN_LEFT WL_POINTER_BUTTON_STATE_RELEASED,
                  sample_alloc 2)]
                (initial_session 7))) = [].
Proof.
  apply filter_none.
  apply (nothing_launched_outside sample_env); [reflexivity|].
  intros serial x y a [H|[H|[]]]; discriminate.
Defined.

(** ** The button handler *)

(** X5.  The button handler only sends: whatever the button, the state and
    the background, it either stops at the conversion of an index no
    [guint] holds, sending nothing, or it returns the background unchanged
    having sent nothing but at most one launch and the failure line of that
    launch. *)
Theorem button_handler_only_sends
  (E : env) (button state : Z) (bg : background) :
  background_pointer_button E button state bg = Fault []
  \/ exists sent,
       background_pointer_button E button state bg = Done bg sent
       /\ forallb launch_related sent = true
       /\ (List.length (filter is_launch sent) <= 1)%nat.
Proof.
  unfold background_pointer_button.
  destruct (_ && _ && _); [|right; exists []; repeat split; simpl; lia].
  destruct (0 <=? _)%float; [|right; exists []; repeat split; simpl; lia].
  destruct (div_to_guint _ _); [|left; reflexivity].
  destruct (g_list_nth_data _ _) as [app|];
    [|right; exists []; repeat split; simpl; lia].
  right. exists (launch_app E app). split; [reflexivity|].
  unfold launch_app. destruct (launch_succeeds E app); simpl; split; auto.
Qed.

(** ** Faults *)






(** ** Releasing buffers *)

Lemma buffer_release_handles w pool :
  map buf_buffer (buffer_release w pool) = map buf_buffer pool.
Proof.
  unfold buffer_release. rewrite map_map. apply map_ext.
  intro b. destruct (Nat.eqb (buf_buffer b) w); reflexivity.
Qed.

(** X7.  [buffer_release] deallocates nothing and touches nothing but the
    busy flag of the buffers with the released handle: the pool keeps its
    length and, position by position, every field but the flag; buffers with
    that handle end up idle and the others are unchanged; releasing twice, or
    a handle the pool does not hold, changes nothing more; releases commute;
    and the release event sends no request. *)
Theorem buffer_release_only_clears_flag (w w' : handle) (pool : list buffer) :
  List.length (buffer_release w pool) = List.length pool
  /\ Forall2 same_but_busy (buffer_release w pool) pool
  /\ (forall b, In b (buffer_release w pool) ->
        buf_buffer b = w -> buf_busy b = false)
  /\ (forall b, In b pool -> buf_buffer b <> w -> In b (buffer_release w pool))
  /\ buffer_release w (buffer_release w pool) = buffer_release w pool
  /\ buffer_release w (buffer_release w' pool)
     = buffer_release w' (buffer_release w pool)
  /\ (~ In w (map buf_buffer pool) -> buffer_release w pool = pool)
  /\ (forall E a ss, sent_of (dispatch E (ev_buffer_release w) a ss) = []).
Proof.
  unfold buffer_release.
  split; [apply length_map|].
  split.
  { induction pool as [|b r IH]; simpl; constructor; [|exact IH].
    unfold same_but_busy. destruct (Nat.eqb (buf_buffer b) w); repeat split. }
  split.
  { intros b Hin Hw. apply in_map_iff in Hin. destruct Hin as [x [Hx _]].
    destruct (Nat.eqb (buf_buffer x) w) eqn:He; subst b; [reflexivity|].
    apply Nat.eqb_neq in He. contradiction. }
  split.
  { intros b Hin Hne. apply in_map_iff. exists b. split; [|exact Hin].
    destruct (Nat.eqb (buf_buffer b) w) eqn:He; [|reflexivity].
    apply Nat.eqb_eq in He. contradiction. }
  split.
  { rewrite map_map. apply map_ext. intro b.
    destruct (Nat.eqb (buf_buffer b) w) eqn:He; simpl; rewrite He; reflexivity. }
  split.
  { rewrite !map_map. apply map_ext. intro b.
    destruct (Nat.eqb (buf_buffer b) w) eqn:He;
      destruct (Nat.eqb (buf_buffer b) w') eqn:He'; simpl;
      rewrite ?He, ?He'; reflexivity. }
  split.
  { intro Hn. rewrite <- (map_id pool) at 2. apply map_ext_in.
    intros b Hin. destruct (Nat.eqb (buf_buffer b) w) eqn:He; [|reflexivity].
    apply Nat.eqb_eq in He. exfalso. apply Hn. apply in_map_iff.
    exists b. split; [exact He | exact Hin]. }
  intros E a ss. reflexivity.
Qed.

Lemma buffer_release_witness :
  buffer_release 7 sample_pool = sample_pool.
Proof.
  refine (proj1 (proj2 (proj2 (proj2 (proj2 (proj2 (proj2
           (buffer_release_only_clears_flag 7 7 sample_pool))))))) _).
  simpl. intros [H|[H|[]]]; discriminate.
Defined.

(** ** Allocating buffers *)

(** X8.  [create_buffer] succeeds exactly when the three system calls do
    and the size is not zero.  On success it returns an idle buffer of the
    requested geometry and format, registered once with the compositor; its
    mapped size is [height * stride] reduced modulo 2^32, so it is the full
    image size when that product fits 32 bits and smaller than the image
    otherwise.  On failure it returns no buffer and writes exactly one line
    to stderr. *)
Theorem create_buffer_outcomes (a : alloc) (width height stride format : Z) :
  (al_shm a = shm_ok -> to_uint32 (height * stride) <> 0 ->
   exists b,
     create_buffer a width height stride format
     = (Some b, [wl_shm_pool_create_buffer b])
     /\ buf_busy b = false /\ buf_buffer b = al_wl_buffer a
     /\ buf_width b = width /\ buf_height b = height
     /\ buf_stride b = stride /\ buf_format b = format
     /\ 0 < buf_size b < 2 ^ 32
     /\ (0 <= height * stride < 2 ^ 32 -> buf_size b = height * stride)
     /\ (2 ^ 32 <= height * stride -> buf_size b < height * stride))
  /\ (al_shm a <> shm_ok \/ to_uint32 (height * stride) = 0 ->
      exists msg,
        create_buffer a width height stride format = (None, [perror msg])).
Proof.
  unfold create_buffer. cbv zeta. split.
  - intros -> Hz. apply Z.eqb_neq in Hz. rewrite Hz.
    eexists. split; [reflexivity|]. simpl. apply Z.eqb_neq in Hz.
    pose proof (Z.mod_pos_bound (height * stride) (2 ^ 32) eq_refl) as Hm.
    unfold to_uint32 in *. repeat split; try lia.
    intro H. apply Z.mod_small. exact H.
  - intros [H|H].
    + destruct (al_shm a); try (eexists; reflexivity). contradiction.
    + apply Z.eqb_eq in H. rewrite H.
      destruct (al_shm a); eexists; reflexivity.
Qed.

Lemma create_buffer_witness :
  exists b,
    create_buffer (sample_alloc 1) 40000 40000 160000 WL_SHM_FORMAT_XRGB8888
    = (Some b, [wl_shm_pool_create_buffer b])
    /\ buf_size b < 40000 * 160000.
Proof.
  destruct (proj1 (create_buffer_outcomes (sample_alloc 1) 40000 40000 160000
                     WL_SHM_FORMAT_XRGB8888) eq_refl)
    as [b [H [_ [_ [_ [_ [_ [_ [_ [_ L]]]]]]]]]]; [vm_compute; discriminate|].
  exists b. split; [exact H|]. apply L. lia.
Defined.

(** ** The pool after a draw *)

Lemma length_update_at {A} (f : A -> A) (l : list A) (i : nat) :
  List.length (update_at i f l) = List.length l.
Proof.
  revert i. induction l as [|x r IH]; intros [|j]; simpl; auto.
Qed.

Lemma kept_is_busy_or_fits E bg b :
  In b (kept_buffers E bg) -> buf_busy b = true \/ fits E bg b.
Proof.
  unfold kept_buffers. intro H. apply filter_In in H. destruct H as [_ H].
  apply negb_true_iff in H. unfold wrong_size in H.
  destruct (buf_busy b); [left; reflexivity|]. right. simpl in H.
  apply orb_false_iff in H. destruct H as [H H3].
  apply orb_false_iff in H. destruct H as [H1 H2].
  apply negb_false_iff in H1, H2, H3. apply Z.eqb_eq in H1, H2, H3.
  repeat split; assumption.
Qed.

Lemma idle_fit_is_reusable E bg b :
  In b (bg_buffers bg) -> buf_busy b = false -> fits E bg b ->
  In b (kept_buffers E bg)
  /\ reusable (bg_width bg) (bg_height bg) (draw_stride E bg) b = true.
Proof.
  intros Hin Hb [H1 [H2 H3]]. split.
  - unfold kept_buffers. apply filter_In. split; [exact Hin|].
    unfold wrong_size. rewrite Hb, H1, H2, H3, !Z.eqb_refl. reflexivity.
  - unfold reusable. rewrite Hb, H1, H2, H3, !Z.eqb_refl. reflexivity.
Qed.

(** X9.  After a draw that was performed, every buffer left in the pool is
    busy or has the geometry of the surface; the pool holds a busy buffer;
    it has grown by at most one buffer; and a buffer was allocated exactly
    when the pool held no idle buffer of that geometry. *)
Theorem pool_after_draw
  (E : env) (a : alloc) (bg bg' : background) (sent : list request) :
  bg_frame bg = None ->
  draw_background E a bg = Done bg' sent ->
  (forall b, In b (bg_buffers bg') -> buf_busy b = true \/ fits E bg b)
  /\ (exists b, In b (bg_buffers bg') /\ buf_busy b = true)
  /\ (List.length (bg_buffers bg') <= List.length (bg_buffers bg) + 1)%nat
  /\ ((exists b, In (wl_shm_pool_create_buffer b) sent)
      <-> (forall b, In b (bg_buffers bg) -> buf_busy b = false -> ~ fits E bg b)).
Proof.
  intros Hf Hd.
  assert (Hlen : (List.length (kept_buffers E bg) <= List.length (bg_buffers bg))%nat)
    by apply filter_length_le.
  destruct (draw_background_case E a bg)
    as [cb Hf'|i buf Hf' Hn Hr|buf Hf' Hnone Hs Hbuf|msg Hf' Hnone Hs];
    inversion Hd; subst bg' sent; clear Hd; try congruence; simpl.
  - split; [|split; [|split; [|split]]].
    + intros b Hb. apply update_at_from in Hb. destruct Hb as [Hb|[x [_ ->]]].
      * apply (kept_is_busy_or_fits E bg b Hb).
      * left. reflexivity.
    + exists (set_busy true buf). split; [apply update_at_hits; exact Hn | reflexivity].
    + rewrite length_update_at. lia.
    + intros [b Hb]. exfalso. apply in_app_or in Hb. destruct Hb as [Hb|Hb].
      * apply in_map_iff in Hb. destruct Hb as [x [Hx _]]. discriminate.
      * simpl in Hb. intuition discriminate.
    + intro Hno. exfalso.
      apply reusable_true in Hr. destruct Hr as [Hb [H1 [H2 H3]]].
      apply (Hno buf); [|exact Hb | repeat split; assumption].
      apply (kept_buffers_in E). apply (nth_error_In _ _ Hn).
  - split; [|split; [|split; [|split]]].
    + intros b [<-|Hb]; [left; reflexivity|].
      apply (kept_is_busy_or_fits E bg b Hb).
    + exists (set_busy true buf). split; [left; reflexivity | reflexivity].
    + lia.
    + intros _ b Hin Hb Hfit.
      destruct (idle_fit_is_reusable E bg b Hin Hb Hfit) as [Hk Hr].
      rewrite (Hnone b Hk) in Hr. discriminate.
    + intros _. exists buf. apply in_or_app. right. left. reflexivity.
Qed.

Lemma pool_after_draw_witness :
  exists b,
    In b (bg_buffers (ss_background sample_configured)) /\ buf_busy b = true.
Proof.
  refine (proj1 (proj2 (pool_after_draw sample_env (sample_alloc 1)
                          (set_size 800 600 (new_background 7))
                          (ss_background sample_configured) _ eq_refl _))).
  vm_compute. reflexivity.
Defined.

(** X10.  Every draw that is performed ends with the same five requests in
    the same order: the painting into the chosen buffer, the attach of that
    very buffer, the damage of the whole surface, the request of the frame
    callback that the background then records, and the commit.  What is sent
    before only frees and creates buffers, and the chosen buffer is in the
    pool, marked busy. *)
Theorem draw_ends_in_commit
  (E : env) (a : alloc) (bg bg' : background) (sent : list request) :
  bg_frame bg = None ->
  draw_background E a bg = Done bg' sent ->
  exists pre buf ops,
    sent = pre
           ++ [cairo_paint (buf_data buf) ops;
               wl_surface_attach (bg_surface bg) buf;
               wl_surface_damage (bg_surface bg) 0 0 (bg_width bg) (bg_height bg);
               wl_surface_frame (bg_surface bg) (al_callback a);
               wl_surface_commit (bg_surface bg)]
    /\ forallb pool_request pre = true
    /\ (exists y, In y (bg_buffers bg') /\ buf_busy y = true
                  /\ same_but_busy buf y)
    /\ bg_frame bg' = Some (al_callback a).
Proof.
  intros Hf Hd.
  destruct (draw_background_case E a bg)
    as [cb Hf'|i buf Hf' Hn Hr|buf Hf' Hnone Hs Hbuf|msg Hf' Hnone Hs];
    inversion Hd; subst bg' sent; clear Hd; try congruence; simpl.
  - exists (map free_buffer (freed_buffers E bg)), buf. eexists.
    split; [reflexivity|]. split.
    + apply forallb_forall. intros r Hr'. apply in_map_iff in Hr'.
      destruct Hr' as [x [<- _]]. reflexivity.
    + split; [|reflexivity]. exists (set_busy true buf).
      split; [apply update_at_hits; exact Hn|].
      split; [reflexivity | repeat split].
  - exists (map free_buffer (freed_buffers E bg) ++ [wl_shm_pool_create_buffer buf]),
      buf. eexists.
    split; [rewrite <- app_assoc; reflexivity|]. split.
    + apply forallb_forall. intros r Hr'. apply in_app_or in Hr'.
      destruct Hr' as [Hr'|[<-|[]]]; [|reflexivity].
      apply in_map_iff in Hr'. destruct Hr' as [x [<- _]]. reflexivity.
    + split; [|reflexivity]. exists (set_busy true buf).
      split; [left; reflexivity|].
      split; [reflexivity | repeat split].
Qed.

Lemma draw_ends_in_commit_witness :
  exists pre buf ops,
    sent_of (draw_background sample_env (sample_alloc 1)
               (set_size 800 600 (new_background 7)))
    = pre
      ++ [cairo_paint (buf_data buf) ops;
          wl_surface_attach 7 buf;
          wl_surface_damage 7 0 0 800 600;
          wl_surface_frame 7 1;
          wl_surface_commit 7].
Proof.
  destruct (draw_background sample_env (sample_alloc 1)
              (set_size 800 600 (new_background 7))) as [bg' sent|sent] eqn:Hd;
    [|vm_compute in Hd; discriminate].
  destruct (draw_ends_in_commit sample_env (sample_alloc 1)
              (set_size 800 600 (new_background 7)) bg' sent eq_refl Hd)
    as [pre [buf [ops [H _]]]].
  exists pre, buf, ops. exact H.
Defined.

(** ** Buffer handles *)

Lemma filter_keeps_handles_distinct (keep : buffer -> bool) (pool : list buffer) :
  NoDup (map buf_buffer pool) -> NoDup (map buf_buffer (filter keep pool)).
Proof.
  induction pool as [|b pool IH]; simpl; intro Hnd; [constructor|].
  apply NoDup_cons_iff in Hnd. destruct Hnd as [Hb Hnd].
  destruct (keep b); simpl; [|apply IH; exact Hnd].
  apply NoDup_cons; [|apply IH; exact Hnd].
  rewrite in_map_iff. intros [y [Hy Hin]].
  apply filter_In in Hin. apply Hb. rewrite in_map_iff. exists y. tauto.
Qed.

Lemma update_at_handles i v l :
  map buf_buffer (update_at i (set_busy v) l) = map buf_buffer l.
Proof.
  revert i. induction l as [|x r IH]; intros [|j]; simpl; try reflexivity.
  rewrite IH. reflexivity.
Qed.

Lemma kept_handles_in E bg h :
  In h (map buf_buffer (kept_buffers E bg)) -> In h (map buf_buffer (bg_buffers bg)).
Proof.
  intro H. apply in_map_iff in H. destruct H as [x [Hx Hin]].
  apply in_map_iff. exists x. split; [exact Hx | apply (kept_buffers_in E bg x Hin)].
Qed.

Lemma draw_keeps_handles_distinct E a bg bg' sent :
  NoDup (map buf_buffer (bg_buffers bg)) ->
  ~ In (al_wl_buffer a) (map buf_buffer (bg_buffers bg)) ->
  draw_background E a bg = Done bg' sent ->
  NoDup (map buf_buffer (bg_buffers bg')).
Proof.
  intros Hnd Hfresh Hd.
  assert (Hk : NoDup (map buf_buffer (kept_buffers E bg)))
    by (apply filter_keeps_handles_distinct; exact Hnd).
  destruct (draw_background_case E a bg)
    as [cb Hf'|i buf Hf' Hn Hr|buf Hf' Hnone Hs Hbuf|msg Hf' Hnone Hs];
    inversion Hd; subst bg' sent; clear Hd; simpl.
  - exact Hnd.
  - rewrite update_at_handles. exact Hk.
  - constructor; [|exact Hk].
    intro Hin. apply Hfresh. apply (kept_handles_in E). rewrite Hbuf in Hin. exact Hin.
Qed.

(** X11.  As long as every newly created [wl_buffer] differs from the ones
    in the pool, the buffers of the pool keep pairwise distinct handles
    through every event; and in such a pool the release of a buffer's handle
    clears the flag of that buffer and leaves every other buffer as it
    is. *)
Theorem handles_stay_distinct
  (E : env) (ev : event) (a : alloc) (ss ss' : session) (sent : list request) :
  NoDup (map buf_buffer (bg_buffers (ss_background ss))) ->
  ~ In (al_wl_buffer a) (map buf_buffer (bg_buffers (ss_background ss))) ->
  dispatch E ev a ss = Done ss' sent ->
  NoDup (map buf_buffer (bg_buffers (ss_background ss')))
  /\ (forall b,
        In b (bg_buffers (ss_background ss)) ->
        (exists y,
           In y (buffer_release (buf_buffer b) (bg_buffers (ss_background ss)))
           /\ buf_busy y = false /\ same_but_busy b y)
        /\ (forall x, In x (bg_buffers (ss_background ss)) -> x <> b ->
              In x (buffer_release (buf_buffer b) (bg_buffers (ss_background ss))))).
Proof.
  intros Hnd Hfresh Hd. split.
  - destruct (dispatch_is_case E ev a ss)
      as [pre cur focus bg1 Hcore Hq H1 H2|cur focus base sent0 Hq H1 H2|H1 H2
         |He Hf|cb He Hf Hn0|cb He Hf Hn0|w He];
      try discriminate.
    + apply after_done in Hd. destruct Hd as [sent' [Hd _]].
      apply with_background_done in Hd. destruct Hd as [bg' [Hd ->]]. simpl.
      destruct Hcore as [_ [Hb _]].
      apply (draw_keeps_handles_distinct E a bg1 bg' sent'); rewrite ?Hb; assumption.
    + inversion Hd; subst. exact Hnd.
    + inversion Hd; subst. exact Hnd.
    + apply after_done in Hd. destruct Hd as [sent' [Hd _]].
      apply with_background_done in Hd. destruct Hd as [bg' [Hd ->]]. simpl.
      apply (draw_keeps_handles_distinct E a (set_frame None (ss_background ss))
               bg' sent' Hnd Hfresh Hd).
    + inversion Hd; subst. simpl. rewrite buffer_release_handles. exact Hnd.
  - intros b Hin. split.
    + apply release_keeps; [exact Hin | reflexivity].
    + intros x Hx Hne. unfold buffer_release. apply in_map_iff. exists x.
      split; [|exact Hx].
      destruct (Nat.eqb (buf_buffer x) (buf_buffer b)) eqn:He; [|reflexivity].
      apply Nat.eqb_eq in He. exfalso.
      clear Hd Hfresh. revert Hnd Hin Hx.
      generalize (bg_buffers (ss_background ss)) as l.
      induction l as [|y r IH]; simpl; intros Hnd Hin Hx; [contradiction|].
      inversion Hnd as [|? ? Hy Hr]; subst.
      destruct Hin as [->|Hin]; destruct Hx as [->|Hx].
      * apply Hne; reflexivity.
      * apply Hy. rewrite <- He. apply in_map. exact Hx.
      * apply Hy. rewrite He. apply in_map. exact Hin.
      * apply (IH Hr Hin Hx).
Qed.

Lemma handles_stay_distinct_witness :
  NoDup (map buf_buffer
           (bg_buffers (ss_background
              (match dispatch sample_env (ev_configure 1024 768) (sample_alloc 5)
                       sample_resized with
               | Done ss' _ => ss'
               | Fault _ => sample_resized
               end)))).
Proof.
  destruct (dispatch sample_env (ev_configure 1024 768) (sample_alloc 5)
              sample_resized) as [ss' sent|sent] eqn:Hd;
    [|vm_compute in Hd; discriminate].
  refine (proj1 (handles_stay_distinct sample_env (ev_configure 1024 768)
                   (sample_alloc 5) sample_resized ss' sent _ _ Hd)).
  - simpl. constructor; [intros []|constructor].
  - simpl. intros [H|[]]. discriminate.
Defined.

(** ** Resizing *)

(** X12.  A configure stores the new size, converted to [uint32_t], and
    asks for a redraw.  With no frame callback outstanding it draws exactly
    once, into a buffer of the new width and height, and damages the whole
    new surface; with one outstanding it sends nothing, leaves the pool as
    it is and sets [needs_draw].  A negative size is stored as 2^32 plus
    that size. *)
Theorem configure_resizes
  (E : env) (a : alloc) (width height : Z) (bg bg' : background)
  (sent : list request) :
  background_configure E a width height bg = Done bg' sent ->
  bg_width bg' = to_uint32 width /\ bg_height bg' = to_uint32 height
  /\ (0 <= width < 2 ^ 32 -> bg_width bg' = width)
  /\ (- 2 ^ 31 <= width < 0 -> bg_width bg' = 2 ^ 32 + width)
  /\ (bg_frame bg <> None ->
      sent = [] /\ bg_needs_draw bg' = true /\ bg_buffers bg' = bg_buffers bg)
  /\ (bg_frame bg = None ->
      draws sent = 1%nat
      /\ In (wl_surface_damage (bg_surface bg) 0 0 (to_uint32 width)
               (to_uint32 height)) sent
      /\ exists buf,
           In (wl_surface_attach (bg_surface bg) buf) sent
           /\ buf_width buf = to_uint32 width
           /\ buf_height buf = to_uint32 height).
Proof.
  unfold background_configure. intro Hd.
  destruct (draw_keeps_identity E a _ bg' sent Hd) as [_ [_ [Hw Hh]]].
  simpl in Hw, Hh.
  split; [exact Hw|]. split; [exact Hh|].
  split; [intro H; rewrite Hw; unfold to_uint32; apply Z.mod_small; exact H|].
  split.
  { intro H. rewrite Hw. unfold to_uint32.
    replace width with ((2 ^ 32 + width) + (-1) * 2 ^ 32) at 1 by ring.
    rewrite Z.mod_add by lia. apply Z.mod_small. lia. }
  split.
  - intro Hf. destruct (bg_frame bg) as [cb|] eqn:Hfr; [|congruence].
    rewrite (draw_while_outstanding E a _ cb) in Hd by exact Hfr.
    inversion Hd; subst. repeat split.
  - intro Hf.
    destruct (draw_background_case E a (set_size (to_uint32 width) (to_uint32 height) bg))
      as [cb Hf'|i buf Hf' Hn Hr|buf Hf' Hnone Hs Hbuf|msg Hf' Hnone Hs];
      inversion Hd; subst bg' sent; clear Hd; simpl in Hf'; try congruence.
    + split; [rewrite draws_app, draws_frees; reflexivity|].
      split; [apply in_or_app; right; simpl; tauto|].
      exists buf. split; [apply in_or_app; right; simpl; tauto|].
      apply reusable_true in Hr. simpl in Hr. tauto.
    + split; [rewrite draws_app, draws_frees; reflexivity|].
      split; [apply in_or_app; right; simpl; tauto|].
      exists buf. split; [apply in_or_app; right; simpl; tauto|].
      rewrite Hbuf. split; reflexivity.
Qed.

Lemma configure_resizes_witness :
  bg_width (ss_background sample_configured) = 800
  /\ bg_height (ss_background sample_configured) = 600.
Proof.
  destruct (configure_resizes sample_env (sample_alloc 1) 800 600
              (new_background 7) (ss_background sample_configured)
              (sent_of (background_configure sample_env (sample_alloc 1) 800 600
                          (new_background 7))))
    as [Hw [Hh _]]; [vm_compute; reflexivity|].
  split; [exact Hw | exact Hh].
Defined.

(** ** The clamp at work *)

Lemma clamp_cases (m y : double) :
  ((0 <? m)%float = false -> clamp_y_scroll m y = 0%float)
  /\ ((0 <? m)%float = true -> (y <? 0)%float = true ->
      clamp_y_scroll m y = 0%float)
  /\ ((0 <? m)%float = true -> (0 <=? y)%float = true -> (y <=? m)%float = true ->
      clamp_y_scroll m y = y)
  /\ ((0 <? m)%float = true -> (m <? y)%float = true ->
      clamp_y_scroll m y = m).
Proof.
  split; [apply clamp_y_scroll_zero|].
  unfold clamp_y_scroll, fmin, fmax.
  split; [|split]; intros Hm; rewrite Hm.
  - intro Hy. rewrite (flt_zero_not_fle _ Hy), Hy.
    rewrite (flt_fle _ _ Hm). reflexivity.
  - intros Hy0 Hym. rewrite Hy0, Hym. reflexivity.
  - intros Hmy.
    assert (H0 : (0 <=? y)%float = true)
      by (apply flt_fle, (flt_fle_trans _ _ _ Hm), flt_fle, Hmy).
    rewrite H0.
    assert (Hn : (y <=? m)%float = false).
    { destruct (y <=? m)%float eqn:A; [|reflexivity].
      pose proof (flt_fle_trans _ _ _ Hmy A) as C.
      rewrite flt_irrefl in C. discriminate. }
    rewrite Hn, Hmy. reflexivity.
Qed.

(** X13.  A scroll event that arrives while no frame callback is
    outstanding is applied at once and saturates: the offset becomes the
    old offset plus the delta (one rounded addition), cut to 0 from below
    and to [max_y_scroll] from above, and is 0 whenever [max_y_scroll] is
    not positive; the draw is performed in the same step.  A scroll on any
    other axis than the vertical one is ignored. *)
Theorem idle_scroll_saturates
  (E : env) (a : alloc) (value : double) (bg bg' : background)
  (sent : list request) :
  bg_frame bg = None ->
  background_pointer_axis E a WL_POINTER_AXIS_VERTICAL_SCROLL value bg
  = Done bg' sent ->
  draws sent = 1%nat
  /\ ((0 <? max_y_scroll E (bg_height bg) (font_extents E))%float = false ->
      bg_y_scroll bg' = 0%float)
  /\ ((0 <? max_y_scroll E (bg_height bg) (font_extents E))%float = true ->
      ((bg_y_scroll bg + value <? 0)%float = true -> bg_y_scroll bg' = 0%float)
      /\ ((0 <=? bg_y_scroll bg + value)%float = true ->
          (bg_y_scroll bg + value
           <=? max_y_scroll E (bg_height bg) (font_extents E))%float = true ->
          bg_y_scroll bg' = (bg_y_scroll bg + value)%float)
      /\ ((max_y_scroll E (bg_height bg) (font_extents E)
           <? bg_y_scroll bg + value)%float = true ->
          bg_y_scroll bg' = max_y_scroll E (bg_height bg) (font_extents E)))
  /\ (forall axis,
        axis <> WL_POINTER_AXIS_VERTICAL_SCROLL ->
        background_pointer_axis E a axis value bg = Done bg []).
Proof.
  intros Hf Hd. unfold background_pointer_axis in Hd. simpl in Hd.
  destruct (draw_scroll E a (set_y_scroll (bg_y_scroll bg + value)%float bg)
              bg' sent Hf Hd) as [Hy _]. simpl in Hy.
  destruct (clamp_cases (max_y_scroll E (bg_height bg) (font_extents E))
              (bg_y_scroll bg + value)%float) as [C0 [C1 [C2 C3]]].
  split.
  { destruct (draw_background_case E a (set_y_scroll (bg_y_scroll bg + value)%float bg))
      as [cb Hf'|i buf Hf' Hn Hr|buf Hf' Hnone Hs Hbuf|msg Hf' Hnone Hs];
      inversion Hd; subst bg' sent; simpl in Hf'; try congruence;
      rewrite draws_app, draws_frees; reflexivity. }
  rewrite Hy.
  split; [exact C0|].
  split; [intro Hm; split; [|split]; auto|].
  intros axis Hne. unfold background_pointer_axis.
  destruct (axis =? WL_POINTER_AXIS_VERTICAL_SCROLL) eqn:He; [|reflexivity].
  apply Z.eqb_eq in He. contradiction.
Qed.

(** Six entries 23 high on a surface 100 high, scrolled by 100 from 0: the
    offset ends at the bound, 58. *)
Lemma idle_scroll_saturates_witness :
  bg_y_scroll
    (match background_pointer_axis menu_env (sample_alloc 2)
             WL_POINTER_AXIS_VERTICAL_SCROLL 100 (set_size 200 100 (new_background 7)) with
     | Done bg' _ => bg'
     | Fault _ => new_background 7
     end) = 58%float.
Proof.
  destruct (background_pointer_axis menu_env (sample_alloc 2)
              WL_POINTER_AXIS_VERTICAL_SCROLL 100 (set_size 200 100 (new_background 7)))
    as [bg' sent|sent] eqn:Hd; [|vm_compute in Hd; discriminate].
  exact (proj2 (proj2 (proj1 (proj2 (proj2 (idle_scroll_saturates menu_env
           (sample_alloc 2) 100 (set_size 200 100 (new_background 7)) bg' sent
           eq_refl Hd))) eq_refl)) eq_refl).
Defined.

(** X14.  On a surface less than 20 high the unsigned subtraction
    [height - MENU_PADDING * 2] wraps around to 2^32 less the missing
    height, so the draw sets the scroll offset to 0 whatever it was, even
    when the menu is higher than the surface, as long as the menu is not
    higher than that wrapped number. *)
Theorem tiny_surface_never_scrolls
  (E : env) (a : alloc) (bg bg' : background) (sent : list request) :
  bg_frame bg = None ->
  0 <= bg_height bg < 20 ->
  visible_height bg = 2 ^ 32 - 20 + bg_height bg
  /\ ((double_of_Z (g_list_length (application_list E)) * ext_height (font_extents E)
       <=? double_of_Z (2 ^ 32 - 20 + bg_height bg))%float = true ->
      draw_background E a bg = Done bg' sent ->
      bg_y_scroll bg' = 0%float).
Proof.
  intros Hf Hh.
  assert (Hw : to_uint32 (bg_height bg - MENU_PADDING * 2) = 2 ^ 32 - 20 + bg_height bg).
  { unfold to_uint32. change (MENU_PADDING * 2) with 20.
    replace (bg_height bg - 20)
      with ((2 ^ 32 - 20 + bg_height bg) + (-1) * 2 ^ 32) at 1 by ring.
    rewrite Z.mod_add by lia. apply Z.mod_small. lia. }
  split; [exact Hw|].
  intros Ht Hd. destruct (draw_scroll E a bg bg' sent Hf Hd) as [Hy _].
  rewrite Hy. apply clamp_y_scroll_zero. unfold max_y_scroll.
  rewrite Hw. apply fsub_not_positive. exact Ht.
Qed.

(** Three entries 23 high on a surface 10 high, scrolled to 30. *)
Lemma tiny_surface_witness :
  bg_y_scroll
    (match draw_background sample_env (sample_alloc 1)
             (set_y_scroll 30 sample_tiny) with
     | Done bg' _ => bg'
     | Fault _ => sample_tiny
     end) = 0%float.
Proof.
  destruct (draw_background sample_env (sample_alloc 1) (set_y_scroll 30 sample_tiny))
    as [bg' sent|sent] eqn:Hd; [|vm_compute in Hd; discriminate].
  refine (proj2 (tiny_surface_never_scrolls sample_env (sample_alloc 1)
                   (set_y_scroll 30 sample_tiny) bg' sent eq_refl _) _ Hd).
  - simpl. lia.
  - reflexivity.
Defined.

(** ** Scrolling during a frame *)

Lemma scroll_events_run E : forall vs ss s cb,
  seat_pointer_surface ss = Some s ->
  ds_on_pointer_axis (bg_base (ss_background ss)) = Some background_pointer_axis_fn ->
  bg_frame (ss_background ss) = Some cb ->
  run E (scroll_events vs) ss
  = Done (mk_session (current_cursor ss) (seat_pointer_surface ss)
            (set_needs_draw (match vs with [] => bg_needs_draw (ss_background ss)
                                         | _ => true end)
               (set_y_scroll (scroll_sum (bg_y_scroll (ss_background ss)) vs)
                  (ss_background ss))))
         [].
Proof.
  induction vs as [|[v a] rest IH]; intros ss s cb Hs Hh Hf.
  - simpl. destruct ss as [c f bg]. destruct bg. reflexivity.
  - simpl. unfold pointer_axis. rewrite Hs, Hh.
    unfold background_pointer_axis. simpl.
    rewrite (draw_while_outstanding E a _ cb) by exact Hf. simpl.
    rewrite (IH _ s cb); try assumption; try reflexivity.
    destruct rest; reflexivity.
Qed.

(** X15.  Scroll deltas that arrive while a frame callback is outstanding
    are summed, not clamped one by one: after any number of them the offset
    is the old offset plus all the deltas, nothing has been sent, and
    [needs_draw] is set; the frame completion that follows draws once and
    clamps the sum. *)
Theorem scrolls_accumulate_during_frame
  (E : env) (vs : list (Z * alloc)) (ss : session) (s cb : handle) :
  seat_pointer_surface ss = Some s ->
  ds_on_pointer_axis (bg_base (ss_background ss)) = Some background_pointer_axis_fn ->
  bg_frame (ss_background ss) = Some cb ->
  vs <> [] ->
  exists ss',
    run E (scroll_events vs) ss = Done ss' []
    /\ bg_y_scroll (ss_background ss')
       = scroll_sum (bg_y_scroll (ss_background ss)) vs
    /\ bg_needs_draw (ss_background ss') = true
    /\ bg_frame (ss_background ss') = Some cb
    /\ (forall a ss'' sent,
          dispatch E ev_frame_done a ss' = Done ss'' sent ->
          draws sent = 1%nat
          /\ bg_y_scroll (ss_background ss'')
             = clamp_y_scroll
                 (max_y_scroll E (bg_height (ss_background ss)) (font_extents E))
                 (scroll_sum (bg_y_scroll (ss_background ss)) vs)).
Proof.
  intros Hs Hh Hf Hne.
  rewrite (scroll_events_run E vs ss s cb Hs Hh Hf).
  eexists. split; [reflexivity|]. simpl.
  split; [reflexivity|].
  split; [destruct vs; [contradiction | reflexivity]|].
  split; [exact Hf|].
  intros a ss'' sent Hd.
  apply with_background_done in Hd. destruct Hd as [bg' [Hd ->]]. simpl.
  unfold background_frame_done in Hd. simpl in Hd. rewrite Hf in Hd.
  destruct vs as [|v0 rest]; [contradiction|].
  apply after_done in Hd. destruct Hd as [sent' [Hd ->]].
  split.
  - destruct (draw_background_case E a
                (set_frame None
                   (set_needs_draw true
                      (set_y_scroll (scroll_sum (bg_y_scroll (ss_background ss))
                                       (v0 :: rest)) (ss_background ss)))))
      as [cb' Hf'|i buf Hf' Hn Hr|buf Hf' Hnone Hs' Hbuf|msg Hf' Hnone Hs'];
      inversion Hd; subst bg' sent'; simpl in Hf'; try discriminate;
      rewrite draws_app; simpl; rewrite draws_app, draws_frees; reflexivity.
  - rewrite (proj1 (draw_scroll E a
               (set_frame None
                  (set_needs_draw true
                     (set_y_scroll (scroll_sum (bg_y_scroll (ss_background ss))
                                      (v0 :: rest)) (ss_background ss))))
               bg' sent' eq_refl Hd)).
    reflexivity.
Qed.

Lemma scrolls_accumulate_witness :
  exists ss',
    run sample_env
      (scroll_events [(-1280, sample_alloc 3); (768, sample_alloc 4)])
      sample_entered = Done ss' []
    /\ bg_y_scroll (ss_background ss')
       = scroll_sum (bg_y_scroll (ss_background sample_entered))
           [(-1280, sample_alloc 3); (768, sample_alloc 4)].
Proof.
  destruct (scrolls_accumulate_during_frame sample_env
              [(-1280, sample_alloc 3); (768, sample_alloc 4)]
              sample_entered 7%nat 1%nat eq_refl eq_refl eq_refl)
    as [ss' [H1 [H2 _]]]; [discriminate|].
  exists ss'. split; assumption.
Defined.

(** ** The rounded quotient *)

(** The index of the hit test is the floor of the quotient as the
    division rounds it, which can be the next integer above the floor of
    the exact quotient: with rows 0x1.2aaaaaaaaaaabp+4 high and
    [menu_y = 56] the exact quotient is below 3, the double quotient is 3,
    and a release there is past the last of three entries and launches
    nothing. *)
Lemma rounded_quotient_example :
  menu_y sample_thirds = 56%float
  /\ (exact (menu_y sample_thirds)
      < 3 * exact (ext_height (bg_extents sample_thirds)))%Q
  /\ click_quotient sample_thirds = 3%float
  /\ click_index sample_thirds = Some 3
  /\ background_pointer_button sample_env BTN_LEFT WL_POINTER_BUTTON_STATE_RELEASED
       sample_thirds
     = Done sample_thirds [].
Proof.
  split; [vm_compute; reflexivity|].
  split; [vm_compute; reflexivity|].
  split; [vm_compute; reflexivity|].
  split; vm_compute; reflexivity.
Qed.

(** ** The comparison of names *)

Lemma nat_of_ascii_inj c d : nat_of_ascii c = nat_of_ascii d -> c = d.
Proof.
  intro H. rewrite <- (ascii_nat_embedding c), <- (ascii_nat_embedding d), H.
  reflexivity.
Qed.

Lemma strcmp_eq_iff a : forall b,
  no_nul a = true -> no_nul b = true -> (strcmp a b = 0 <-> a = b).
Proof.
  induction a as [|c a IH]; intros [|d b] Ha Hb; simpl in *.
  - split; reflexivity.
  - apply andb_true_iff in Hb. destruct Hb as [Hd _].
    apply negb_true_iff, Nat.eqb_neq in Hd. split; [lia | discriminate].
  - apply andb_true_iff in Ha. destruct Ha as [Hc _].
    apply negb_true_iff, Nat.eqb_neq in Hc. split; [lia | discriminate].
  - apply andb_true_iff in Ha, Hb. destruct Ha as [Hc Ha]. destruct Hb as [Hd Hb].
    apply negb_true_iff, Nat.eqb_neq in Hc, Hd.
    destruct (Z.eqb_spec (Z.of_nat (nat_of_ascii c)) (Z.of_nat (nat_of_ascii d)))
      as [e|ne].
    + destruct (Z.eqb_spec (Z.of_nat (nat_of_ascii c)) 0) as [z|nz]; [lia|].
      apply Nat2Z.inj, nat_of_ascii_inj in e. subst d.
      rewrite (IH b Ha Hb). split; [intros ->; reflexivity|].
      intro H. inversion H. reflexivity.
    + split; [lia|]. intro H. inversion H; subst. contradiction.
Qed.

(** X16.  On names without zero byte [sort_apps] returns 0 exactly for
    equal names: the entries that tie in the application list are the
    entries with the same display name, byte for byte. *)
Theorem sort_apps_ties_are_equal_names (a b : app) :
  no_nul (app_name a) = true -> no_nul (app_name b) = true ->
  (sort_apps a b = 0 <-> app_name a = app_name b).
Proof. unfold sort_apps, g_strcmp0. apply strcmp_eq_iff. Qed.

Lemma sort_apps_ties_witness :
  sort_apps (mk_app "Files" 1 true) (mk_app "Files" 2 true) = 0.
Proof.
  apply (sort_apps_ties_are_equal_names (mk_app "Files" 1 true)
           (mk_app "Files" 2 true)); reflexivity.
Defined.

Lemma strcmp_common_prefix p : forall a b,
  no_nul p = true -> strcmp (p ++ a) (p ++ b) = strcmp a b.
Proof.
  induction p as [|c p IH]; intros a b Hp; simpl in *; [reflexivity|].
  apply andb_true_iff in Hp. destruct Hp as [Hc Hp].
  apply negb_true_iff, Nat.eqb_neq in Hc.
  rewrite Z.eqb_refl.
  destruct (Z.eqb_spec (Z.of_nat (nat_of_ascii c)) 0) as [z|nz]; [lia|].
  apply IH. exact Hp.
Qed.

Lemma string_app_empty s : (s ++ "")%string = s.
Proof. induction s as [|c s IH]; simpl; [reflexivity | rewrite IH; reflexivity]. Qed.

(** X17.  [sort_apps] is a consistent comparator, as
    [g_list_insert_sorted] needs: an entry compares equal to itself,
    swapping the arguments flips the sign, and "not greater" is transitive.
    The order is that of the first differing byte, read as an unsigned
    value, after any common prefix; and a name sorts before every proper
    extension of it. *)
Theorem sort_apps_consistent (a b c : app) :
  sort_apps a a = 0
  /\ (sort_apps a b < 0 <-> 0 < sort_apps b a)
  /\ (sort_apps a b = 0 <-> sort_apps b a = 0)
  /\ (sort_apps a b <= 0 -> sort_apps b c <= 0 -> sort_apps a c <= 0)
  /\ (forall p x y r s,
        no_nul p = true -> (nat_of_ascii x < nat_of_ascii y)%nat ->
        strcmp (p ++ String x r) (p ++ String y s) < 0)
  /\ (forall p x r,
        no_nul p = true -> nat_of_ascii x <> 0%nat ->
        strcmp p (p ++ String x r) < 0).
Proof.
  unfold sort_apps, g_strcmp0.
  split; [apply strcmp_refl|].
  split; [rewrite (strcmp_antisym (app_name a) (app_name b)); lia|].
  split; [rewrite (strcmp_antisym (app_name a) (app_name b)); lia|].
  split; [apply strcmp_trans|].
  split.
  - intros p x y r s Hp Hxy. rewrite (strcmp_common_prefix p _ _ Hp). simpl.
    destruct (Z.eqb_spec (Z.of_nat (nat_of_ascii x)) (Z.of_nat (nat_of_ascii y)));
      lia.
  - intros p x r Hp Hx.
    pose proof (strcmp_common_prefix p EmptyString (String x r) Hp) as H.
    rewrite string_app_empty in H. rewrite H. simpl. lia.
Qed.

Lemma sort_apps_consistent_witness :
  strcmp "Zed" "apple" < 0 /\ strcmp "Box" "Boxes" < 0.
Proof.
  destruct (sort_apps_consistent (mk_app "" 0 true) (mk_app "" 0 true)
              (mk_app "" 0 true)) as [_ [_ [_ [_ [F P]]]]].
  split.
  - apply (F ""%string "Z"%char "a"%char "ed"%string "pple"%string);
      [reflexivity | apply Nat.ltb_lt; reflexivity].
  - apply (P "Box"%string "e"%char "s"%string); [reflexivity | discriminate].
Defined.

(** ** Outputs *)

(** X18.  Mode and done events of an output compose without interfering:
    the last mode flagged current decides the recorded size and a mode
    without the flag changes nothing; a mode event never touches the
    background and a done event never touches the size, so the two
    commute; and the background that a done event creates starts 0 by 0
    whatever mode the output has recorded (its size comes from the first
    configure). *)
Theorem output_events_compose
  (o : output) (surface : handle) (f1 w1 h1 r1 f2 w2 h2 r2 : Z) :
  (Z.land f2 WL_OUTPUT_MODE_CURRENT <> 0 ->
   output_mode f2 w2 h2 r2 (output_mode f1 w1 h1 r1 o)
   = output_mode f2 w2 h2 r2 o)
  /\ (Z.land f2 WL_OUTPUT_MODE_CURRENT = 0 ->
      output_mode f2 w2 h2 r2 (output_mode f1 w1 h1 r1 o)
      = output_mode f1 w1 h1 r1 o)
  /\ out_background (output_mode f1 w1 h1 r1 o) = out_background o
  /\ out_output (output_mode f1 w1 h1 r1 o) = out_output o
  /\ out_width (fst (output_done surface o)) = out_width o
  /\ out_height (fst (output_done surface o)) = out_height o
  /\ output_done surface (output_mode f1 w1 h1 r1 o)
     = (output_mode f1 w1 h1 r1 (fst (output_done surface o)),
        snd (output_done surface o))
  /\ (out_background o = None ->
      exists bg,
        out_background (fst (output_done surface (output_mode f1 w1 h1 r1 o)))
        = Some bg
        /\ bg_width bg = 0 /\ bg_height bg = 0).
Proof.
  unfold output_mode, output_done.
  split; [|split; [|split; [|split; [|split; [|split; [|split]]]]]].
  - intro H. apply Z.eqb_neq in H. rewrite H.
    destruct (Z.land f1 WL_OUTPUT_MODE_CURRENT =? 0); reflexivity.
  - intro H. rewrite H. reflexivity.
  - destruct (Z.land f1 WL_OUTPUT_MODE_CURRENT =? 0); reflexivity.
  - destruct (Z.land f1 WL_OUTPUT_MODE_CURRENT =? 0); reflexivity.
  - destruct (out_background o); reflexivity.
  - destruct (out_background o); reflexivity.
  - destruct (Z.land f1 WL_OUTPUT_MODE_CURRENT =? 0);
      destruct (out_background o) eqn:Hb; simpl; rewrite ?Hb; reflexivity.
  - intro H. exists (new_background surface).
    destruct (Z.land f1 WL_OUTPUT_MODE_CURRENT =? 0); simpl; rewrite H; simpl;
      repeat split.
Qed.

Lemma output_events_compose_witness :
  out_width (output_mode 1 1024 768 60000 (output_mode 3 800 600 60000 sample_output))
  = 1024
  /\ exists bg,
       out_background
         (fst (output_done 7 (output_mode 3 800 600 60000 sample_output)))
       = Some bg
       /\ bg_width bg = 0 /\ bg_height bg = 0.
Proof.
  destruct (output_events_compose sample_output 7 3 800 600 60000 1 1024 768 60000)
    as [A [_ [_ [_ [_ [_ [_ B]]]]]]].
  split.
  - rewrite A; [reflexivity | discriminate].
  - apply B. reflexivity.
Defined.



(** ** The registry *)

Ltac two_interfaces :=
  match goal with
  | Ha : interface_is ?a ?ad = true, Hb : interface_is ?b ?ad = true |- _ =>
      let X := fresh in
      assert (X : strcmp a b = 0)
        by (unfold interface_is in Ha, Hb; apply Z.eqb_eq in Ha, Hb;
            apply (strcmp_eq_trans a (ad_interface ad) b);
            [rewrite strcmp_antisym; lia | exact Hb]);
      vm_compute in X; discriminate X
  end.

Ltac by_interface ad :=
  unfold registry_global;
  destruct (interface_is "wl_compositor" ad) eqn:?;
  destruct (interface_is "wl_seat" ad) eqn:?;
  destruct (interface_is "wl_shm" ad) eqn:?;
  destruct (interface_is "weston_desktop_shell" ad) eqn:?;
  destruct (interface_is "xdg_wm_base" ad) eqn:?;
  destruct (interface_is "wp_viewporter" ad) eqn:?;
  destruct (interface_is "wl_output" ad) eqn:?;
  try two_interfaces.




(** ** Discovery *)


Lemma registry_global_need ad g v :
  registry_global ad (set_need_roundtrip v g)
  = (set_need_roundtrip (v || interface_is "wl_output" ad)
       (fst (registry_global ad g)),
     snd (registry_global ad g)).
Proof.
  by_interface ad; simpl; rewrite ?orb_true_r, ?orb_false_r; reflexivity.
Qed.




Lemma deliver_need ads : forall g v,
  fst (deliver ads (set_need_roundtrip v g))
  = set_need_roundtrip (v || advertised "wl_output" ads) (fst (deliver ads g))
  /\ snd (deliver ads (set_need_roundtrip v g)) = snd (deliver ads g).
Proof.
  unfold advertised.
  induction ads as [|ad rest IH]; intros g v; simpl.
  - rewrite orb_false_r. split; reflexivity.
  - rewrite registry_global_need.
    destruct (registry_global ad g) as [g1 c1]. simpl.
    destruct (IH g1 (v || interface_is "wl_output" ad)) as [A B].
    destruct (deliver rest (set_need_roundtrip _ g1)) as [g2 c2].
    destruct (deliver rest g1) as [g3 c3]. simpl in *.
    subst. rewrite orb_assoc. split; reflexivity.
Qed.




Lemma set_need_fields v g :
  desktop_shell (set_need_roundtrip v g) = desktop_shell g
  /\ xdg_wm_base (set_need_roundtrip v g) = xdg_wm_base g
  /\ viewporter (set_need_roundtrip v g) = viewporter g
  /\ output_list (set_need_roundtrip v g) = output_list g
  /\ need_roundtrip (set_need_roundtrip v g) = v.
Proof. repeat split. Qed.



(** ** The start of [main] *)








